(** * news-aggregator: a shallow embedding of [main.go]

    The program harvests (link, title) pairs from HTML pages following
    declarative rules, stores them in an SQLite table keyed by link and
    serves a substring search over the table.

    Go strings are byte strings: they are modelled by [string] (a list of
    8-bit [ascii]).  Fallible functions return [result]; the Go [error]
    values the program can build are the constructors of [error]. *)

From Stdlib Require Import String Ascii List Bool Arith NArith ZArith Lia.
From Stdlib Require Import Sorting.Sorted Sorting.Permutation.
Import ListNotations.
Open Scope string_scope.
Open Scope list_scope.
Open Scope nat_scope.

Infix "+++" := String.append (right associativity, at level 60).

(** ** Errors and results *)

Inductive error : Type :=
| errorString (msg : string)                      (* errors.New(msg) *)
| EscapeError (s : string)                        (* url.EscapeError *)
| InvalidHostError (s : string)                   (* url.InvalidHostError *)
| InvalidPortError (colonPort : string)           (* "invalid port %q after host" *)
| url_Error (op url : string) (err : error)       (* &url.Error{op, url, err} *)
| ConvertError (link base : string) (err : error) (* fmt.Errorf in loadNewsList *)
| InsertError (link title : string) (err : error) (* fmt.Errorf in insertNewsItem *)
| RulesError (err : error)                        (* fmt.Errorf in readParsingRules *)
| SyntaxError                                     (* json.SyntaxError *)
| UnmarshalTypeError (value type : string)        (* json.UnmarshalTypeError *)
| UniqueConstraint (column : string)              (* sqlite: UNIQUE constraint failed *)
| DriverError (msg : string).                     (* any other failure of the engine *)

Inductive result (A : Type) : Type :=
| OK (a : A)
| Err (e : error).
Arguments OK {A} a.
Arguments Err {A} e.

Notation "'do' x <- c ; k" :=
  (match c with OK x => k | Err e => Err e end)
  (at level 10, x pattern, c at level 100, k at level 200).

Definition is_ok {A} (r : result A) : bool :=
  match r with OK _ => true | Err _ => false end.

(** ** Byte strings, as package [strings] sees them *)

Module strings.

Definition byte (c : ascii) : nat := nat_of_ascii c.

Definition between (lo hi c : ascii) : bool :=
  (byte lo <=? byte c) && (byte c <=? byte hi).

(** [s[:n]] and [s[n:]] *)
Fixpoint take (n : nat) (s : string) : string :=
  match n, s with
  | S n', String c s' => String c (take n' s')
  | _, _ => ""
  end.

Fixpoint drop (n : nat) (s : string) : string :=
  match n, s with
  | S n', String _ s' => drop n' s'
  | _, _ => s
  end.

Fixpoint HasPrefix (s p : string) {struct p} : bool :=
  match p, s with
  | "", _ => true
  | String a p', String b s' => Ascii.eqb a b && HasPrefix s' p'
  | _, _ => false
  end.

Definition len (s : string) : nat := String.length s.

Definition HasSuffix (s p : string) : bool :=
  (len p <=? len s) && String.eqb (drop (len s - len p) s) p.

(** [strings.Index]: position of the first occurrence of [sep], if any. *)
Fixpoint Index (s sep : string) : option nat :=
  if HasPrefix s sep then Some 0
  else match s with
       | "" => None
       | String _ s' => option_map S (Index s' sep)
       end.

Definition Contains (s sep : string) : bool :=
  match Index s sep with Some _ => true | None => false end.

Fixpoint IndexByte (s : string) (c : ascii) : option nat :=
  match s with
  | "" => None
  | String b s' => if Ascii.eqb b c then Some 0 else option_map S (IndexByte s' c)
  end.

Fixpoint LastIndexByte (s : string) (c : ascii) : option nat :=
  match s with
  | "" => None
  | String b s' =>
      match LastIndexByte s' c with
      | Some i => Some (S i)
      | None => if Ascii.eqb b c then Some 0 else None
      end
  end.

Fixpoint CountByte (s : string) (c : ascii) : nat :=
  match s with
  | "" => 0
  | String b s' => (if Ascii.eqb b c then 1 else 0) + CountByte s' c
  end.

Definition lower (c : ascii) : ascii :=
  if between "A" "Z" c then ascii_of_nat (byte c + 32) else c.

Fixpoint ToLower (s : string) : string :=
  match s with
  | "" => ""
  | String c s' => String (lower c) (ToLower s')
  end.

(** [strings.Split(s, sep)] for a one-byte separator: never empty. *)
Fixpoint Split (s : string) (sep : ascii) : list string :=
  match s with
  | "" => [""]
  | String c s' =>
      if Ascii.eqb c sep then "" :: Split s' sep
      else match Split s' sep with
           | x :: xs => String c x :: xs
           | [] => [String c ""]
           end
  end.

Fixpoint Join (l : list string) (sep : string) : string :=
  match l with
  | [] => ""
  | [x] => x
  | x :: xs => x +++ sep +++ Join xs sep
  end.

Definition TrimPrefix (s p : string) : string :=
  if HasPrefix s p then drop (len p) s else s.

End strings.

(** ** Package [net/url]

    [convertToAbsURL] is three calls into Go's [net/url].  The package is
    not part of the repository; the functions the program reaches are
    transcribed here from the library (as of Go 1.13, the toolchain of the
    program's time), byte for byte, so that the program's results can be
    computed. *)

Module url.
Import strings.

Inductive encoding : Type :=
| encodePath | encodePathSegment | encodeHost | encodeZone
| encodeUserPassword | encodeQueryComponent | encodeFragment.

Definition isHostMode (m : encoding) : bool :=
  match m with encodeHost | encodeZone => true | _ => false end.

Record Userinfo : Type := mkUserinfo {
  username : string;
  password : string;
  passwordSet : bool
}.

Record URL : Type := mkURL {
  Scheme : string;
  Opaque : string;
  User : option Userinfo;
  Host : string;
  Path : string;
  RawPath : string;
  ForceQuery : bool;
  RawQuery : string;
  Fragment : string
}.

(** [new(URL)] *)
Definition zeroURL : URL := mkURL "" "" None "" "" "" false "" "".

Definition isEmpty (s : string) : bool :=
  match s with "" => true | _ => false end.

Definition oneOf (c : ascii) (set : string) : bool :=
  match IndexByte set c with Some _ => true | None => false end.

Definition dquote : ascii := ascii_of_nat 34.

Definition ishex (c : ascii) : bool :=
  between "0" "9" c || between "a" "f" c || between "A" "F" c.

Definition unhex (c : ascii) : nat :=
  if between "0" "9" c then byte c - byte "0"
  else if between "a" "f" c then byte c - byte "a" + 10
  else if between "A" "F" c then byte c - byte "A" + 10
  else 0.

Definition upperhex (n : nat) : ascii :=
  match get n "0123456789ABCDEF" with Some c => c | None => "0"%char end.

Definition shouldEscape (c : ascii) (mode : encoding) : bool :=
  if between "a" "z" c || between "A" "Z" c || between "0" "9" c then false
  else if isHostMode mode
          && (oneOf c "!$&'()*+,;=:[]<>" || Ascii.eqb c dquote) then false
  else if oneOf c "-_.~" then false
  else if oneOf c "$&+,/:;=?@" then
    match mode with
    | encodePath => Ascii.eqb c "?"
    | encodePathSegment => oneOf c "/;,?"
    | encodeUserPassword => oneOf c "@/?:"
    | encodeQueryComponent => true
    | encodeFragment => false
    | encodeHost | encodeZone => true
    end
  else match mode with
       | encodeFragment => negb (oneOf c "!()*")
       | _ => true
       end.

(** First loop of [unescape]: every [%] must start a well-formed escape,
    and a host admits no byte that would have to be escaped. *)
Fixpoint unescape_check (mode : encoding) (s : string) : option error :=
  match s with
  | "" => None
  | String c r =>
      if Ascii.eqb c "%" then
        match r with
        | String h1 (String h2 r') =>
            if ishex h1 && ishex h2 then
              let esc := String c (String h1 (String h2 "")) in
              if match mode with encodeHost => true | _ => false end
                 && (unhex h1 <? 8) && negb (String.eqb esc "%25")
              then Some (EscapeError esc)
              else if match mode with encodeZone => true | _ => false end
                      && negb (String.eqb esc "%25")
                      && negb (unhex h1 * 16 + unhex h2 =? 32)
                      && shouldEscape (ascii_of_nat (unhex h1 * 16 + unhex h2)) encodeHost
              then Some (EscapeError esc)
              else unescape_check mode r'
            else Some (EscapeError (take 3 s))
        | _ => Some (EscapeError (take 3 s))
        end
      else if Ascii.eqb c "+" then unescape_check mode r
      else if isHostMode mode && (byte c <? 128) && shouldEscape c encodeHost
      then Some (InvalidHostError (String c ""))
      else unescape_check mode r
  end.

(** Second loop of [unescape], run on a checked string. *)
Fixpoint unescape_decode (mode : encoding) (s : string) : string :=
  match s with
  | "" => ""
  | String c r =>
      if Ascii.eqb c "%" then
        match r with
        | String h1 (String h2 r') =>
            String (ascii_of_nat (unhex h1 * 16 + unhex h2)) (unescape_decode mode r')
        | _ => ""
        end
      else if Ascii.eqb c "+" then
        String (match mode with encodeQueryComponent => " "%char | _ => c end)
               (unescape_decode mode r)
      else String c (unescape_decode mode r)
  end.

Definition unescape (s : string) (mode : encoding) : result string :=
  match unescape_check mode s with
  | Some e => Err e
  | None => OK (unescape_decode mode s)
  end.

Fixpoint escape (s : string) (mode : encoding) : string :=
  match s with
  | "" => ""
  | String c r =>
      if Ascii.eqb c " " && match mode with encodeQueryComponent => true | _ => false end
      then String "+" (escape r mode)
      else if shouldEscape c mode
      then String "%" (String (upperhex (byte c / 16))
                      (String (upperhex (byte c mod 16)) (escape r mode)))
      else String c (escape r mode)
  end.

(** [split(s, c, cutc)]: cut [s] at the first [c]. *)
Definition split (s : string) (c : ascii) (cutc : bool) : string * string :=
  match IndexByte s c with
  | None => (s, "")
  | Some i => if cutc then (take i s, drop (i + 1) s) else (take i s, drop i s)
  end.

(** The loop of [getscheme], at index [i] with [rest = rawurl[i:]]. *)
Fixpoint getscheme_loop (rawurl : string) (i : nat) (rest : string)
  : result (string * string) :=
  match rest with
  | "" => OK ("", rawurl)
  | String c rest' =>
      if between "a" "z" c || between "A" "Z" c then getscheme_loop rawurl (S i) rest'
      else if between "0" "9" c || oneOf c "+-." then
        if i =? 0 then OK ("", rawurl) else getscheme_loop rawurl (S i) rest'
      else if Ascii.eqb c ":" then
        if i =? 0 then Err (errorString "missing protocol scheme")
        else OK (take i rawurl, rest')
      else OK ("", rawurl)
  end.

Definition getscheme (rawurl : string) : result (string * string) :=
  getscheme_loop rawurl 0 rawurl.

Fixpoint stringContainsCTLByte (s : string) : bool :=
  match s with
  | "" => false
  | String b s' => (byte b <? 32) || (byte b =? 127) || stringContainsCTLByte s'
  end.

Fixpoint allDigits (s : string) : bool :=
  match s with
  | "" => true
  | String b s' => between "0" "9" b && allDigits s'
  end.

Definition validOptionalPort (port : string) : bool :=
  match port with
  | "" => true
  | String c digits => Ascii.eqb c ":" && allDigits digits
  end.

Fixpoint validUserinfo (s : string) : bool :=
  match s with
  | "" => true
  | String r s' =>
      (between "A" "Z" r || between "a" "z" r || between "0" "9" r
       || oneOf r "-._:~!$&'()*+,;=%@")
      && validUserinfo s'
  end.

Definition parseHost (host : string) : result string :=
  let plain := do h <- unescape host encodeHost; OK h in
  if HasPrefix host "[" then
    match LastIndexByte host "]" with
    | None => Err (errorString "missing ']' in host")
    | Some i =>
        let colonPort := drop (i + 1) host in
        if negb (validOptionalPort colonPort) then Err (InvalidPortError colonPort)
        else match Index (take i host) "%25" with
             | Some zone =>
                 do host1 <- unescape (take zone host) encodeHost;
                 do host2 <- unescape (drop zone (take i host)) encodeZone;
                 do host3 <- unescape (drop i host) encodeHost;
                 OK (host1 +++ host2 +++ host3)
             | None => plain
             end
    end
  else
    match LastIndexByte host ":" with
    | Some i =>
        let colonPort := drop i host in
        if negb (validOptionalPort colonPort) then Err (InvalidPortError colonPort)
        else plain
    | None => plain
    end.

Definition parseAuthority (authority : string) : result (option Userinfo * string) :=
  match LastIndexByte authority "@" with
  | None => do host <- parseHost authority; OK (None, host)
  | Some i =>
      do host <- parseHost (drop (i + 1) authority);
      let userinfo := take i authority in
      if negb (validUserinfo userinfo) then Err (errorString "net/url: invalid userinfo")
      else if negb (Contains userinfo ":") then
        do userinfo' <- unescape userinfo encodeUserPassword;
        OK (Some (mkUserinfo userinfo' "" false), host)
      else
        let (username0, password0) := split userinfo ":" true in
        do username' <- unescape username0 encodeUserPassword;
        do password' <- unescape password0 encodeUserPassword;
        OK (Some (mkUserinfo username' password' true), host)
  end.

Definition setPath (u : URL) (p : string) : result URL :=
  do path <- unescape p encodePath;
  OK (mkURL (Scheme u) (Opaque u) (User u) (Host u) path
            (if String.eqb p (escape path encodePath) then "" else p)
            (ForceQuery u) (RawQuery u) (Fragment u)).

(** [parse(rawurl, false)] *)
Definition parse (rawurl : string) : result URL :=
  if stringContainsCTLByte rawurl
  then Err (errorString "net/url: invalid control character in URL")
  else if String.eqb rawurl "*"
  then OK (mkURL "" "" None "" "*" "" false "" "")
  else
    do sr <- getscheme rawurl;
    let scheme := ToLower (fst sr) in
    let rest := snd sr in
    let '(rest, force, query) :=
      if HasSuffix rest "?" && (CountByte rest "?" =? 1)
      then (take (len rest - 1) rest, true, "")
      else (fst (split rest "?" true), false, snd (split rest "?" true)) in
    if negb (HasPrefix rest "/") && negb (isEmpty scheme)
    then OK (mkURL scheme rest None "" "" "" force query "")
    else if negb (HasPrefix rest "/")
            && match IndexByte rest ":", IndexByte rest "/" with
               | Some colon, Some slash => colon <? slash
               | Some _, None => true
               | None, _ => false
               end
    then Err (errorString "first path segment in URL cannot contain colon")
    else if (negb (isEmpty scheme) || negb (HasPrefix rest "///")) && HasPrefix rest "//"
    then
      let (authority, rest') := split (drop 2 rest) "/" false in
      do uh <- parseAuthority authority;
      setPath (mkURL scheme "" (fst uh) (snd uh) "" "" force query "") rest'
    else
      setPath (mkURL scheme "" None "" "" "" force query "") rest.

(** [url.Parse] *)
Definition Parse (rawurl : string) : result URL :=
  let (u, frag) := split rawurl "#" true in
  match parse u with
  | Err e => Err (url_Error "parse" u e)
  | OK url =>
      if isEmpty frag then OK url
      else match unescape frag encodeFragment with
           | Err e => Err (url_Error "parse" rawurl e)
           | OK f => OK (mkURL (Scheme url) (Opaque url) (User url) (Host url) (Path url)
                               (RawPath url) (ForceQuery url) (RawQuery url) f)
           end
  end.

Fixpoint validEncodedPath (s : string) : bool :=
  match s with
  | "" => true
  | String c s' =>
      (oneOf c "!$&'()*+,;=:@[]%" || negb (shouldEscape c encodePath))
      && validEncodedPath s'
  end.

Definition EscapedPath (u : URL) : string :=
  if negb (isEmpty (RawPath u)) && validEncodedPath (RawPath u)
     && match unescape (RawPath u) encodePath with
        | OK p => String.eqb p (Path u)
        | Err _ => false
        end
  then RawPath u
  else if String.eqb (Path u) "*" then "*"
  else escape (Path u) encodePath.

Definition IsAbs (u : URL) : bool := negb (isEmpty (Scheme u)).

Definition Userinfo_String (ui : Userinfo) : string :=
  escape (username ui) encodeUserPassword
  +++ (if passwordSet ui then ":" +++ escape (password ui) encodeUserPassword else "").

Definition isSome {A} (o : option A) : bool :=
  match o with Some _ => true | None => false end.

(** The method [u.String()] *)
Definition String_ (u : URL) : string :=
  let buf := if isEmpty (Scheme u) then "" else Scheme u +++ ":" in
  let buf :=
    if negb (isEmpty (Opaque u)) then buf +++ Opaque u
    else
      let buf :=
        if negb (isEmpty (Scheme u)) || negb (isEmpty (Host u)) || isSome (User u) then
          let buf :=
            if negb (isEmpty (Host u)) || negb (isEmpty (Path u)) || isSome (User u)
            then buf +++ "//" else buf in
          let buf :=
            match User u with
            | Some ui => buf +++ Userinfo_String ui +++ "@"
            | None => buf
            end in
          if negb (isEmpty (Host u)) then buf +++ escape (Host u) encodeHost else buf
        else buf in
      let path := EscapedPath u in
      let buf :=
        if negb (isEmpty path) && negb (HasPrefix path "/") && negb (isEmpty (Host u))
        then buf +++ "/" else buf in
      let buf :=
        if isEmpty buf
           && match IndexByte path ":" with
              | Some i => negb (isSome (IndexByte (take i path) "/"))
              | None => false
              end
        then buf +++ "./" else buf in
      buf +++ path in
  let buf :=
    if ForceQuery u || negb (isEmpty (RawQuery u)) then buf +++ "?" +++ RawQuery u
    else buf in
  if negb (isEmpty (Fragment u)) then buf +++ "#" +++ escape (Fragment u) encodeFragment
  else buf.

Definition resolveStep (dst : list string) (elem : string) : list string :=
  if String.eqb elem "." then dst
  else if String.eqb elem ".." then removelast dst
  else dst ++ [elem].

Definition resolvePath (base ref : string) : string :=
  let full :=
    match ref with
    | "" => base
    | String c _ =>
        if Ascii.eqb c "/" then ref
        else match LastIndexByte base "/" with
             | Some i => take (i + 1) base +++ ref
             | None => ref
             end
    end in
  if isEmpty full then ""
  else
    let src := Split full "/" in
    let dst := fold_left resolveStep src [] in
    let lastElem := last src "" in
    let dst :=
      if String.eqb lastElem "." || String.eqb lastElem ".." then dst ++ [""] else dst in
    "/" +++ TrimPrefix (Join dst "/") "/".

(** [url.setPath(p)] with its error dropped, as [ResolveReference] calls it. *)
Definition setPath_ (u : URL) (p : string) : URL :=
  match setPath u p with OK u' => u' | Err _ => u end.

(** [u.ResolveReference(ref)] *)
Definition ResolveReference (u ref : URL) : URL :=
  let scheme := if isEmpty (Scheme ref) then Scheme u else Scheme ref in
  if negb (isEmpty (Scheme ref)) || negb (isEmpty (Host ref)) || isSome (User ref) then
    setPath_ (mkURL scheme (Opaque ref) (User ref) (Host ref) (Path ref) (RawPath ref)
                    (ForceQuery ref) (RawQuery ref) (Fragment ref))
             (resolvePath (EscapedPath ref) "")
  else if negb (isEmpty (Opaque ref)) then
    mkURL scheme (Opaque ref) None "" "" (RawPath ref)
          (ForceQuery ref) (RawQuery ref) (Fragment ref)
  else
    let inherit := isEmpty (Path ref) && isEmpty (RawQuery ref) in
    let query := if inherit then RawQuery u else RawQuery ref in
    let fragment :=
      if inherit && isEmpty (Fragment ref) then Fragment u else Fragment ref in
    setPath_ (mkURL scheme (Opaque ref) (User u) (Host u) (Path ref) (RawPath ref)
                    (ForceQuery ref) query fragment)
             (resolvePath (EscapedPath u) (EscapedPath ref)).

(** The method [u.Parse(ref)]: parse [ref] in the context of [u]. *)
Definition URL_Parse (u : URL) (ref : string) : result URL :=
  do refURL <- Parse ref;
  OK (ResolveReference u refURL).

End url.

(** ** Packages [html] and [htmlquery]

    A parsed document is a tree of [html.Node]s.  [InnerText] and
    [SelectAttr] are the two readers [extractEntity] calls; the XPath
    engine behind [Find] and [FindOne] is an interface of the model. *)

Module html.

Inductive NodeType : Type :=
| ErrorNode | TextNode | DocumentNode | ElementNode | CommentNode | DoctypeNode.

Record Attribute : Type := mkAttribute {
  Namespace : string;
  Key : string;
  Val : string
}.

(** [orphan] is [n.Parent == nil]. *)
#[warnings="-register-all"] Inductive Node : Type :=
| mkNode (type : NodeType) (data : string) (attr : list Attribute)
         (orphan : bool) (children : list Node).

Definition Type_ (n : Node) : NodeType := let 'mkNode t _ _ _ _ := n in t.
Definition Data (n : Node) : string := let 'mkNode _ d _ _ _ := n in d.
Definition Attr (n : Node) : list Attribute := let 'mkNode _ _ a _ _ := n in a.
Definition orphan (n : Node) : bool := let 'mkNode _ _ _ o _ := n in o.
Definition children (n : Node) : list Node := let 'mkNode _ _ _ _ c := n in c.

End html.

Module htmlquery.
Import html.

(** [htmlquery.InnerText]: the text nodes below [n], comments left out. *)
Fixpoint InnerText (n : Node) : string :=
  match n with
  | mkNode TextNode data _ _ _ => data
  | mkNode CommentNode _ _ _ _ => ""
  | mkNode _ _ _ _ cs =>
      (fix output (l : list Node) : string :=
         match l with
         | [] => ""
         | c :: l' => InnerText c +++ output l'
         end) cs
  end.

Fixpoint lookupAttr (attrs : list Attribute) (name : string) : string :=
  match attrs with
  | [] => ""
  | a :: rest => if String.eqb (Key a) name then Val a else lookupAttr rest name
  end.

(** [htmlquery.SelectAttr] on a non-nil node. *)
Definition SelectAttr (n : Node) (name : string) : string :=
  if match Type_ n with ElementNode => true | _ => false end
     && orphan n && String.eqb name (Data n)
  then InnerText n
  else lookupAttr (Attr n) name.

(** The XPath engine: [Find top expr] is the sequence of nodes [expr]
    selects from [top], in document order; [FindOne] is the first of them,
    if any.  (An expression the engine cannot compile makes both panic;
    an engine stands for the library on the expressions it accepts.) *)
Class XPath : Type := {
  Find : Node -> string -> list Node;
  FindOne : Node -> string -> option Node
}.

End htmlquery.

(** ** The program's types *)

Record ExtractRule : Type := mkExtractRule {
  XPathExpr : string;
  Attribute : string
}.

Record ParsingRule : Type := mkParsingRule {
  Interval : N;
  URL : string;
  NewsNodesXPathExpr : string;
  LinkRule : ExtractRule;
  TitleRule : ExtractRule
}.

Record NewsItem : Type := mkNewsItem {
  Link : string;
  Title : string
}.

(** A Go slice is [nil] ([None]) or holds a sequence ([Some l], possibly
    empty): the two print differently as JSON. *)
Definition slice (A : Type) : Type := option (list A).

Definition append {A} (s : slice A) (x : A) : slice A :=
  match s with
  | None => Some [x]
  | Some l => Some (l ++ [x])
  end.

(** The elements [range] visits. *)
Definition elems {A} (s : slice A) : list A :=
  match s with
  | None => []
  | Some l => l
  end.

(** What the program writes with package [log]. *)
Inductive LogEntry : Type :=
| LogEmptyResult (rule : ExtractRule)  (* log.Printf("The rule %s might be not working ...") *)
| LogParsingRules (rules : slice (option ParsingRule))  (* log.Printf("parsing rules: %s") *)
| LogPrintln (e : error)               (* log.Println(err) *)
| LogFatal (e : error).                (* log.Fatal(err): print, then os.Exit(1) *)

(** ** Extraction: [convertToAbsURL], [extractEntity], [loadNewsList] *)

(** In the source the first statement binds a local [url] that shadows the
    package: the second call is the method [url.Parse(baseURL)] of the
    parsed link, which resolves the base against the link. *)
Definition convertToAbsURL (baseURL linkURL : string) : result string :=
  do u <- url.Parse linkURL;
  do base <- url.URL_Parse u baseURL;
  if negb (url.IsAbs u) then OK (url.String_ (url.ResolveReference base u))
  else OK linkURL.

Section Extraction.
Import htmlquery.
Context {engine : XPath}.

Definition extractEntity (parentNode : html.Node) (rule : ExtractRule)
  : string * list LogEntry :=
  let result :=
    match FindOne parentNode (XPathExpr rule) with
    | Some node =>
        if negb (url.isEmpty (Attribute rule)) then SelectAttr node (Attribute rule)
        else InnerText node
    | None => ""
    end in
  (result, if url.isEmpty result then [LogEmptyResult rule] else []).

(** The body of the [for] loop of [loadNewsList], over the nodes still to
    visit; [items] and [log] are what the earlier iterations left.  On a
    failed conversion [link] has been overwritten with the empty string the
    call returned, which is what the message then shows. *)
Fixpoint loadNewsList_loop (rule : ParsingRule) (nodes : list html.Node)
    (items : slice NewsItem) (log : list LogEntry)
  : result (slice NewsItem) * list LogEntry :=
  match nodes with
  | [] => (OK items, log)
  | node :: rest =>
      let (link, log1) := extractEntity node (LinkRule rule) in
      let (title, log2) := extractEntity node (TitleRule rule) in
      match convertToAbsURL (URL rule) link with
      | Err err => (Err (ConvertError "" (URL rule) err), log ++ log1 ++ log2)
      | OK link' =>
          loadNewsList_loop rule rest (append items (mkNewsItem link' title))
                            (log ++ log1 ++ log2)
      end
  end.

(** [LoadURL] is [htmlquery.LoadURL] at the moment of the call: the
    document behind a URL, or the network or parse error. *)
Definition loadNewsList (LoadURL : string -> result html.Node) (rule : ParsingRule)
  : result (slice NewsItem) * list LogEntry :=
  match LoadURL (URL rule) with
  | Err err => (Err err, [])
  | OK doc => loadNewsList_loop rule (Find doc (NewsNodesXPathExpr rule)) None []
  end.

End Extraction.

(** ** Package [encoding/json]

    [rules.json] is read with [json.Unmarshal] and the search reply is
    written with [json.MarshalIndent].  A JSON text is modelled by the value
    it denotes; [parse] is the library's scanner with the unquoting of
    string literals, on the whole input as [Unmarshal] checks it first. *)

Module json.
Import strings.

#[warnings="-register-all"] Inductive value : Type :=
| Null
| Bool (b : bool)
| Number (literal : string)
| Str (s : string)
| Array (elements : list value)
| Object (members : list (string * value)).

Definition isSpace (c : ascii) : bool :=
  Ascii.eqb c " " || (byte c =? 9) || (byte c =? 13) || (byte c =? 10).

Fixpoint skipSpace (s : string) : string :=
  match s with
  | String c s' => if isSpace c then skipSpace s' else s
  | "" => ""
  end.

Definition isDigit (c : ascii) : bool := between "0" "9" c.

Fixpoint spanDigits (s : string) : string * string :=
  match s with
  | String c s' =>
      if isDigit c then let (d, r) := spanDigits s' in (String c d, r) else ("", s)
  | "" => ("", "")
  end.

(** A number literal at the head of [s]: an optional minus sign, then
    zero or a digit sequence that does not start with zero, then an
    optional fraction (a dot and digits) and an optional exponent
    (e or E, an optional sign, digits). *)
Definition scanNumber (s : string) : option (string * string) :=
  let (sign, s1) :=
    match s with
    | String c r => if Ascii.eqb c "-" then ("-", r) else ("", s)
    | "" => ("", s)
    end in
  let intPart :=
    match s1 with
    | String c r =>
        if Ascii.eqb c "0" then Some ("0", r)
        else if isDigit c then let (d, r') := spanDigits s1 in Some (d, r')
        else None
    | "" => None
    end in
  match intPart with
  | None => None
  | Some (ip, s2) =>
      let frac :=
        match s2 with
        | String c r =>
            if Ascii.eqb c "." then
              match spanDigits r with
              | ("", _) => None
              | (d, r') => Some ("." +++ d, r')
              end
            else Some ("", s2)
        | "" => Some ("", s2)
        end in
      match frac with
      | None => None
      | Some (fp, s3) =>
          let expo :=
            match s3 with
            | String c r =>
                if Ascii.eqb c "e" || Ascii.eqb c "E" then
                  let (sg, r1) :=
                    match r with
                    | String c' r' =>
                        if Ascii.eqb c' "+" || Ascii.eqb c' "-"
                        then (String c' "", r') else ("", r)
                    | "" => ("", r)
                    end in
                  match spanDigits r1 with
                  | ("", _) => None
                  | (d, r2) => Some (String c sg +++ d, r2)
                  end
                else Some ("", s3)
            | "" => Some ("", s3)
            end in
          match expo with
          | None => None
          | Some (ep, s4) => Some (sign +++ ip +++ fp +++ ep, s4)
          end
      end
  end.

(** [utf8.EncodeRune] *)
Definition encodeRune (r : N) : string :=
  let b (n : N) := ascii_of_N n in
  (if r <? 128 then String (b r) ""
   else if r <? 2048 then String (b (192 + r / 64)) (String (b (128 + r mod 64)) "")
   else if ((55296 <=? r) && (r <? 57344)) || (1114111 <? r)
   then String (b 239) (String (b 191) (String (b 189) ""))
   else if r <? 65536
   then String (b (224 + r / 4096))
          (String (b (128 + (r / 64) mod 64)) (String (b (128 + r mod 64)) ""))
   else String (b (240 + r / 262144))
          (String (b (128 + (r / 4096) mod 64))
             (String (b (128 + (r / 64) mod 64)) (String (b (128 + r mod 64)) ""))))%N.

(** Width of the well-formed UTF-8 sequence at the head of [s];
    [0] when the first byte starts none ([utf8.DecodeRune] gives the
    replacement rune, width 1). *)
Definition utf8Width (s : string) : nat :=
  let cont (c : ascii) := (128 <=? byte c) && (byte c <=? 191) in
  match s with
  | "" => 0
  | String c0 r0 =>
      let b0 := byte c0 in
      if b0 <? 128 then 1
      else match r0 with
           | "" => 0
           | String c1 r1 =>
               let b1 := byte c1 in
               if (194 <=? b0) && (b0 <=? 223) then (if cont c1 then 2 else 0)
               else match r1 with
                    | "" => 0
                    | String c2 r2 =>
                        let lo3 := if b0 =? 224 then 160 else 128 in
                        let hi3 := if b0 =? 237 then 159 else 191 in
                        if (224 <=? b0) && (b0 <=? 239) then
                          (if (lo3 <=? b1) && (b1 <=? hi3) && cont c2 then 3 else 0)
                        else match r2 with
                             | "" => 0
                             | String c3 _ =>
                                 let lo4 := if b0 =? 240 then 144 else 128 in
                                 let hi4 := if b0 =? 244 then 143 else 191 in
                                 if (240 <=? b0) && (b0 <=? 244) && (lo4 <=? b1)
                                    && (b1 <=? hi4) && cont c2 && cont c3
                                 then 4 else 0
                             end
                    end
           end
  end.

(** The string that the literal the encoder writes for [s] denotes: the
    encoder copies every well-formed UTF-8 sequence (some as escapes) and
    writes [\ufffd] for each byte that starts none.  [skip] counts the
    bytes still to copy of the sequence met last. *)
Fixpoint encodedFrom (skip : nat) (s : string) : string :=
  match s with
  | "" => ""
  | String c rest =>
      match skip with
      | S k => String c (encodedFrom k rest)
      | 0 =>
          match utf8Width s with
          | 0 => encodeRune 65533%N +++ encodedFrom 0 rest
          | S k => String c (encodedFrom k rest)
          end
      end
  end.

Definition encoded (s : string) : string := encodedFrom 0 s.

Definition hexval (c : ascii) : option N :=
  if between "0" "9" c then Some (N_of_ascii c - 48)%N
  else if between "a" "f" c then Some (N_of_ascii c - 87)%N
  else if between "A" "F" c then Some (N_of_ascii c - 55)%N
  else None.

(** [getu4]: the rune of an escape [\uXXXX] at the head of [s]. *)
Definition getu4 (s : string) : option N :=
  match s with
  | String bs (String u (String h1 (String h2 (String h3 (String h4 _))))) =>
      if Ascii.eqb bs "\" && Ascii.eqb u "u" then
        match hexval h1, hexval h2, hexval h3, hexval h4 with
        | Some a, Some b, Some c, Some d => Some (a * 4096 + b * 256 + c * 16 + d)%N
        | _, _, _, _ => None
        end
      else None
  | _ => None
  end.

Definition dquote : ascii := ascii_of_nat 34.

(** The body of a string literal, after its opening quote: the string it
    denotes and the input after the closing quote. *)
Fixpoint scanString (fuel : nat) (s : string) : option (string * string) :=
  match fuel with
  | 0 => None
  | S fuel' =>
      match s with
      | "" => None
      | String c r =>
          if Ascii.eqb c dquote then Some ("", r)
          else if byte c <? 32 then None
          else if Ascii.eqb c "\" then
            match r with
            | "" => None
            | String e r' =>
                let simple (x : nat) :=
                  match scanString fuel' r' with
                  | Some (t, rest) => Some (String (ascii_of_nat x) t, rest)
                  | None => None
                  end in
                if Ascii.eqb e dquote then simple 34
                else if Ascii.eqb e "\" then simple 92
                else if Ascii.eqb e "/" then simple 47
                else if Ascii.eqb e "b" then simple 8
                else if Ascii.eqb e "f" then simple 12
                else if Ascii.eqb e "n" then simple 10
                else if Ascii.eqb e "r" then simple 13
                else if Ascii.eqb e "t" then simple 9
                else if Ascii.eqb e "u" then
                  match getu4 s with
                  | None => None
                  | Some rr =>
                      let r6 := drop 6 s in
                      let pair :=
                        match getu4 r6 with
                        | Some rr1 =>
                            if ((55296 <=? rr) && (rr <? 56320)
                                && (56320 <=? rr1) && (rr1 <? 57344))%N
                            then Some ((rr - 55296) * 1024 + (rr1 - 56320) + 65536)%N
                            else None
                        | None => None
                        end in
                      let surrogate := ((55296 <=? rr) && (rr <? 57344))%N in
                      let '(rune, after) :=
                        match surrogate, pair with
                        | true, Some dec => (dec, drop 6 r6)
                        | true, None => (65533%N, r6)
                        | false, _ => (rr, r6)
                        end in
                      match scanString fuel' after with
                      | Some (t, rest) => Some (encodeRune rune +++ t, rest)
                      | None => None
                      end
                  end
                else None
            end
          else
            let w := utf8Width s in
            let '(bytes, after) :=
              if w =? 0 then (encodeRune 65533%N, r) else (take w s, drop w s) in
            match scanString fuel' after with
            | Some (t, rest) => Some (bytes +++ t, rest)
            | None => None
            end
      end
  end.

(** The scanner proper.  [fuel] bounds the depth of the recursion; twice
    the length of the input is more than any text needs. *)
Fixpoint scanValue (fuel : nat) (s : string) : option (value * string) :=
  match fuel with
  | 0 => None
  | S fuel' =>
      match skipSpace s with
      | "" => None
      | String c r as s0 =>
          if Ascii.eqb c "{" then
            match skipSpace r with
            | "" => None
            | String c' r' =>
                if Ascii.eqb c' "}" then Some (Object [], r')
                else match scanMembers fuel' r with
                     | Some (ms, rest) => Some (Object ms, rest)
                     | None => None
                     end
            end
          else if Ascii.eqb c "[" then
            match skipSpace r with
            | "" => None
            | String c' r' =>
                if Ascii.eqb c' "]" then Some (Array [], r')
                else match scanElements fuel' r with
                     | Some (vs, rest) => Some (Array vs, rest)
                     | None => None
                     end
            end
          else if Ascii.eqb c dquote then
            match scanString (S (len r)) r with
            | Some (t, rest) => Some (Str t, rest)
            | None => None
            end
          else if Ascii.eqb c "t" then
            if HasPrefix r "rue" then Some (Bool true, drop 3 r) else None
          else if Ascii.eqb c "f" then
            if HasPrefix r "alse" then Some (Bool false, drop 4 r) else None
          else if Ascii.eqb c "n" then
            if HasPrefix r "ull" then Some (Null, drop 3 r) else None
          else
            match scanNumber s0 with
            | Some (lit, rest) => Some (Number lit, rest)
            | None => None
            end
      end
  end
with scanElements (fuel : nat) (s : string) : option (list value * string) :=
  match fuel with
  | 0 => None
  | S fuel' =>
      match scanValue fuel' s with
      | None => None
      | Some (v, r) =>
          match skipSpace r with
          | "" => None
          | String c r' =>
              if Ascii.eqb c "," then
                match scanElements fuel' r' with
                | Some (vs, rest) => Some (v :: vs, rest)
                | None => None
                end
              else if Ascii.eqb c "]" then Some ([v], r')
              else None
          end
      end
  end
with scanMembers (fuel : nat) (s : string) : option (list (string * value) * string) :=
  match fuel with
  | 0 => None
  | S fuel' =>
      match skipSpace s with
      | "" => None
      | String q r =>
          if negb (Ascii.eqb q dquote) then None
          else match scanString (S (len r)) r with
               | None => None
               | Some (key, r1) =>
                   match skipSpace r1 with
                   | "" => None
                   | String colon r2 =>
                       if negb (Ascii.eqb colon ":") then None
                       else match scanValue fuel' r2 with
                            | None => None
                            | Some (v, r3) =>
                                match skipSpace r3 with
                                | "" => None
                                | String c r4 =>
                                    if Ascii.eqb c "," then
                                      match scanMembers fuel' r4 with
                                      | Some (ms, rest) => Some ((key, v) :: ms, rest)
                                      | None => None
                                      end
                                    else if Ascii.eqb c "}" then Some ([(key, v)], r4)
                                    else None
                                end
                            end
                   end
               end
      end
  end.

(** The value a JSON text denotes: one value, white space around it. *)
Definition parse (data : string) : result value :=
  match scanValue (2 * len data + 2) data with
  | Some (v, rest) => if url.isEmpty (skipSpace rest) then OK v else Err SyntaxError
  | None => Err SyntaxError
  end.

(** How the decoder names the kind of a value in its type errors; for a
    number that does not fit an integer field it adds the literal. *)
Definition kind (v : value) : string :=
  match v with
  | Null => "null"
  | Bool _ => "bool"
  | Number _ => "number"
  | Str _ => "string"
  | Array _ => "array"
  | Object _ => "object"
  end.

(** Matching an object key against a field name: exactly, or letter by
    letter without regard to case, where the key may also write [s] as
    U+017F and [k] as U+212A. *)
Fixpoint equalFold (name key : string) : bool :=
  match name with
  | "" => url.isEmpty key
  | String sb name' =>
      match key with
      | "" => false
      | String tb key' =>
          if byte tb <? 128 then
            Ascii.eqb (lower sb) (lower tb) && equalFold name' key'
          else if Ascii.eqb (lower sb) "s" then
            HasPrefix key (String (ascii_of_nat 197) (String (ascii_of_nat 191) ""))
            && equalFold name' (drop 2 key)
          else if Ascii.eqb (lower sb) "k" then
            HasPrefix key (String (ascii_of_nat 226) (String (ascii_of_nat 132)
                            (String (ascii_of_nat 170) "")))
            && equalFold name' (drop 3 key)
          else false
      end
  end.

Definition matches (name key : string) : bool :=
  String.eqb name key || equalFold name key.

End json.

(** ** The store: table [news] of [news.db]

    [openDatabase] creates
    [news(id INTEGER PRIMARY KEY AUTOINCREMENT, link UNIQUE NOT NULL,
    title NOT NULL, timestamp DEFAULT CURRENT_TIMESTAMP)]; the program then
    runs one INSERT and two SELECT statements against it.  The table is the
    list of its rows in rowid order; a timestamp counts seconds. *)

Module sqlite.

Record Row : Type := mkRow {
  id : nat;
  link : string;
  title : string;
  timestamp : nat
}.

Record DB : Type := mkDB {
  rows : list Row;
  seq : nat            (* sqlite_sequence: the largest rowid handed out *)
}.

(** The file after the CREATE TABLE statement ran on a fresh database. *)
Definition empty : DB := mkDB [] 0.

Definition hasLink (l : string) (db : DB) : bool :=
  existsb (fun r => String.eqb (link r) l) (rows db).

(** [INSERT INTO news(link, title) values(?, ?)], run at second [now]. *)
Definition insert (db : DB) (l t : string) (now : nat) : result DB :=
  if hasLink l db then Err (UniqueConstraint "news.link")
  else OK (mkDB (rows db ++ [mkRow (S (seq db)) l t now]) (S (seq db))).

(** [instr(X, Y)] on two TEXT values, as [instrFunc] computes it: the
    haystack is compared with the needle byte by byte at its first byte
    and, after that, only at the bytes that do not continue a UTF-8
    character ([(b & 0xc0) == 0x80] is skipped); the result is the number
    of the character where the needle was found, counted from 1, or 0. *)
Definition isContinuation (c : ascii) : bool :=
  (128 <=? strings.byte c) && (strings.byte c <? 192).

(** The loop at one byte of the haystack: [try] is true at the first
    byte, [n] is the number of the character that starts here or next. *)
Fixpoint instr_loop (hay needle : string) (try : bool) (n : nat) : nat :=
  match hay with
  | "" => 0
  | String c rest =>
      if try || negb (isContinuation c) then
        if strings.HasPrefix hay needle then n
        else instr_loop rest needle false (S n)
      else instr_loop rest needle false n
  end.

Definition instr (x y : string) : nat :=
  if url.isEmpty y then 1 else instr_loop x y true 1.

(** [ORDER BY timestamp DESC]: rows with equal timestamps come out in
    the order the engine met them. *)
Fixpoint insertDesc (r : Row) (l : list Row) : list Row :=
  match l with
  | [] => [r]
  | x :: l' =>
      if timestamp x <=? timestamp r then r :: x :: l' else x :: insertDesc r l'
  end.

Definition orderByTimestampDesc (l : list Row) : list Row :=
  fold_right insertDesc [] l.

Definition columns (r : Row) : string * string := (link r, title r).

(** [SELECT link, title FROM news ORDER BY timestamp DESC] *)
Definition selectAll (db : DB) : list (string * string) :=
  map columns (orderByTimestampDesc (rows db)).

(** [SELECT link, title FROM news WHERE instr(title, ?) <> 0
    ORDER BY timestamp DESC] *)
Definition selectInstr (db : DB) (arg : string) : list (string * string) :=
  map columns
      (orderByTimestampDesc
         (filter (fun r => negb (instr (title r) arg =? 0)) (rows db))).

End sqlite.

(** ** Storage and search: [openDatabase], [insertNewsItem], [getNews],
    [searchHandler] *)

(** [disk] is [news.db] as the process finds it ([None]: no file yet);
    [fault] is the failure of [sql.Open] or of the CREATE statement, when
    there is one.  The statement is CREATE TABLE IF NOT EXISTS: a table
    that is there is left as it is. *)
Definition openDatabase (disk : option sqlite.DB) (fault : option error)
  : result sqlite.DB :=
  match fault with
  | Some err => Err err
  | None => OK (match disk with Some db => db | None => sqlite.empty end)
  end.

(** [fault] is a failure of the engine on this statement other than the
    constraint (a locked or unreadable file), when there is one, and [now]
    the second the engine reads as CURRENT_TIMESTAMP for it.  The function
    returns its [error] ([None] is [nil]) and the table as the call leaves
    it. *)
Definition insertNewsItem (db : sqlite.DB) (fault : option error) (now : nat)
    (item : NewsItem) : option error * sqlite.DB :=
  let exec :=
    match fault with
    | Some err => Err err
    | None => sqlite.insert db (Link item) (Title item) now
    end in
  match exec with
  | Err err => (Some (InsertError (Link item) (Title item) err), db)
  | OK db' => (None, db')
  end.

Definition getNews (db : sqlite.DB) (fault : option error) (query : string)
  : result (slice NewsItem) :=
  let items : slice NewsItem := Some [] in
  let rows :=
    if negb (url.isEmpty query) then sqlite.selectInstr db query
    else sqlite.selectAll db in
  match fault with
  | Some err => Err err
  | None =>
      OK (fold_left (fun items row => append items (mkNewsItem (fst row) (snd row)))
                    rows items)
  end.

(** [json.MarshalIndent(items, ...)], as the value the text denotes:
    the strings are those the encoder's literals denote. *)
Definition marshalItems (items : slice NewsItem) : json.value :=
  match items with
  | None => json.Null
  | Some l =>
      json.Array
        (map (fun it => json.Object [("link", json.Str (json.encoded (Link it)));
                                     ("title", json.Str (json.encoded (Title it)))]) l)
  end.

(** A request, as far as the handler looks at it: the outcome of
    [r.ParseForm()], which is the form when it succeeds. *)
Definition Values : Type := list (string * list string).

Fixpoint Values_Get (form : Values) (key : string) : string :=
  match form with
  | [] => ""
  | (k, vs) :: rest =>
      if String.eqb k key then match vs with v :: _ => v | [] => "" end
      else Values_Get rest key
  end.

Inductive Response : Type :=
| http_Error (err : error) (code : nat)       (* http.Error(w, err.Error(), code) *)
| http_OK (contentType : string) (body : json.value).

Definition StatusInternalServerError : nat := 500.

(** The handler's reply, and what it logs. *)
Definition searchHandler (db : sqlite.DB) (fault : option error)
    (ParseForm : result Values) : Response * list LogEntry :=
  match ParseForm with
  | Err err => (http_Error err StatusInternalServerError, [LogPrintln err])
  | OK form =>
      let query := Values_Get form "q" in
      match getNews db fault query with
      | Err err => (http_Error err StatusInternalServerError, [])
      | OK items => (http_OK "application/json" (marshalItems items), [])
      end
  end.

(** ** Rule loading: [readParsingRules]

    [json.Unmarshal(data, &app.parsingRules)] at the type
    [[]*ParsingRule]: a field is set from the member whose key matches its
    name, [null] leaves a field as it is, other members are skipped, and
    nothing else is checked. *)

Definition decodeString (v : json.value) (old : string) : result string :=
  match v with
  | json.Null => OK old
  | json.Str s => OK s
  | _ => Err (UnmarshalTypeError (json.kind v) "string")
  end.

Fixpoint decimal (digits : string) (acc : N) : N :=
  match digits with
  | "" => acc
  | String c r => decimal r (acc * 10 + (N_of_ascii c - 48))%N
  end.

(** [strconv.ParseUint(s, 10, 64)] *)
Definition ParseUint (s : string) : option N :=
  if negb (url.isEmpty s) && url.allDigits s && (decimal s 0 <? 2 ^ 64)%N
  then Some (decimal s 0) else None.

Definition decodeUint (v : json.value) (old : N) : result N :=
  match v with
  | json.Null => OK old
  | json.Number lit =>
      match ParseUint lit with
      | Some n => OK n
      | None => Err (UnmarshalTypeError ("number " +++ lit) "uint")
      end
  | _ => Err (UnmarshalTypeError (json.kind v) "uint")
  end.

Fixpoint decodeExtractRuleMembers (ms : list (string * json.value)) (r : ExtractRule)
  : result ExtractRule :=
  match ms with
  | [] => OK r
  | (key, v) :: rest =>
      if json.matches "expr" key then
        do s <- decodeString v (XPathExpr r);
        decodeExtractRuleMembers rest (mkExtractRule s (Attribute r))
      else if json.matches "attr" key then
        do s <- decodeString v (Attribute r);
        decodeExtractRuleMembers rest (mkExtractRule (XPathExpr r) s)
      else decodeExtractRuleMembers rest r
  end.

Definition decodeExtractRule (v : json.value) (old : ExtractRule) : result ExtractRule :=
  match v with
  | json.Null => OK old
  | json.Object ms => decodeExtractRuleMembers ms old
  | _ => Err (UnmarshalTypeError (json.kind v) "main.ExtractRule")
  end.

Fixpoint decodeParsingRuleMembers (ms : list (string * json.value)) (r : ParsingRule)
  : result ParsingRule :=
  match ms with
  | [] => OK r
  | (key, v) :: rest =>
      if json.matches "intervalMinutes" key then
        do n <- decodeUint v (Interval r);
        decodeParsingRuleMembers rest
          (mkParsingRule n (URL r) (NewsNodesXPathExpr r) (LinkRule r) (TitleRule r))
      else if json.matches "url" key then
        do s <- decodeString v (URL r);
        decodeParsingRuleMembers rest
          (mkParsingRule (Interval r) s (NewsNodesXPathExpr r) (LinkRule r) (TitleRule r))
      else if json.matches "newsNodesExpr" key then
        do s <- decodeString v (NewsNodesXPathExpr r);
        decodeParsingRuleMembers rest
          (mkParsingRule (Interval r) (URL r) s (LinkRule r) (TitleRule r))
      else if json.matches "linkRule" key then
        do e <- decodeExtractRule v (LinkRule r);
        decodeParsingRuleMembers rest
          (mkParsingRule (Interval r) (URL r) (NewsNodesXPathExpr r) e (TitleRule r))
      else if json.matches "titleRule" key then
        do e <- decodeExtractRule v (TitleRule r);
        decodeParsingRuleMembers rest
          (mkParsingRule (Interval r) (URL r) (NewsNodesXPathExpr r) (LinkRule r) e)
      else decodeParsingRuleMembers rest r
  end.

(** The zero value of [ParsingRule], which [new] allocates. *)
Definition zeroRule : ParsingRule :=
  mkParsingRule 0 "" "" (mkExtractRule "" "") (mkExtractRule "" "").

(** An element of the array, at type [*ParsingRule]: [None] is [nil]. *)
Definition decodeRulePointer (v : json.value) : result (option ParsingRule) :=
  match v with
  | json.Null => OK None
  | json.Object ms => do r <- decodeParsingRuleMembers ms zeroRule; OK (Some r)
  | _ => Err (UnmarshalTypeError (json.kind v) "main.ParsingRule")
  end.

Fixpoint decodeRulePointers (vs : list json.value) : result (list (option ParsingRule)) :=
  match vs with
  | [] => OK []
  | v :: rest =>
      do r <- decodeRulePointer v;
      do rs <- decodeRulePointers rest;
      OK (r :: rs)
  end.

Definition Unmarshal (data : string) : result (slice (option ParsingRule)) :=
  do v <- json.parse data;
  match v with
  | json.Null => OK None
  | json.Array vs => do rs <- decodeRulePointers vs; OK (Some rs)
  | _ => Err (UnmarshalTypeError (json.kind v) "[]*main.ParsingRule")
  end.

(** [file] is the outcome of [ioutil.ReadFile(parsingRulesFile)]. *)
Definition readParsingRules (file : result string)
  : result (slice (option ParsingRule)) :=
  match file with
  | Err err => Err err
  | OK data =>
      match Unmarshal data with
      | Err err => Err (RulesError err)
      | OK rules => OK rules
      end
  end.

(** ** The updaters: [updateNews], [updateNewsPeriodically], [Start]

    The process is its table, its log and whether it still runs.
    [log.Fatal] ends the process with status 1; a panic in any goroutine
    ends it too. *)

Inductive Status : Type :=
| Running
| Exited (code : nat)
| Panicked (reason : string).

Record State : Type := mkState {
  db : sqlite.DB;
  log : list LogEntry;
  status : Status
}.

Definition running (st : State) : bool :=
  match status st with Running => true | _ => false end.

(** What one cycle meets outside the process: the network and, for the
    cycle's [i]-th INSERT, the second the engine reads as CURRENT_TIMESTAMP
    and its failure, when there is one. *)
Record World : Type := mkWorld {
  LoadURL : string -> result html.Node;
  now : nat -> nat;
  faults : nat -> option error
}.

Section Updaters.
Context {engine : htmlquery.XPath}.

(** The [for] loop of [updateNews], from the [i]-th item on. *)
Fixpoint updateNews_loop (w : World) (i : nat) (items : list NewsItem) (st : State)
  : State :=
  match items with
  | [] => st
  | item :: rest =>
      let (err, db') := insertNewsItem (db st) (faults w i) (now w i) item in
      updateNews_loop w (S i) rest
        (mkState db'
                 (log st ++ match err with Some e => [LogPrintln e] | None => [] end)
                 (status st))
  end.

Definition updateNews (w : World) (rule : ParsingRule) (st : State) : State :=
  match loadNewsList (LoadURL w) rule with
  | (Err err, lg) => mkState (db st) (log st ++ lg ++ [LogFatal err]) (Exited 1)
  | (OK items, lg) =>
      updateNews_loop w 0 (elems items) (mkState (db st) (log st ++ lg) (status st))
  end.

(** [time.Duration(rule.Interval) * time.Minute] in 64-bit integers. *)
Definition wrap64 (z : Z) : Z := ((z + 2 ^ 63) mod 2 ^ 64 - 2 ^ 63)%Z.

Definition Minute : Z := 60000000000%Z.

Definition tickerPeriod (rule : ParsingRule) : Z :=
  wrap64 (wrap64 (Z.of_N (Interval rule)) * Minute).

(** [updateNewsPeriodically] up to its loop: the first cycle, then
    [time.NewTicker], which panics on a period that is not positive.  A
    [nil] rule panics at its first use. *)
Definition updateNewsPeriodically_enter (w : World) (rule : option ParsingRule)
    (st : State) : State :=
  match rule with
  | None => mkState (db st) (log st) (Panicked "nil pointer dereference")
  | Some r =>
      let st1 := updateNews w r st in
      if running st1 && (tickerPeriod r <=? 0)%Z
      then mkState (db st1) (log st1) (Panicked "non-positive interval for NewTicker")
      else st1
  end.

(** The [for] loop of [updateNewsPeriodically] over the ticks that
    reach it while the process lives.  The loop has no exit: a run of the
    task is a prefix of it. *)
Fixpoint tickerLoop (rule : ParsingRule) (ticks : list World) (st : State) : State :=
  match ticks with
  | [] => st
  | w :: rest =>
      if running st then tickerLoop rule rest (updateNews w rule st) else st
  end.

Definition updateNewsPeriodically (rule : option ParsingRule) (first : World)
    (ticks : list World) (st : State) : State :=
  let st1 := updateNewsPeriodically_enter first rule st in
  match rule with
  | Some r => tickerLoop r ticks st1
  | None => st1
  end.

(** One goroutine per rule ([startUpdaters]).  [Spawned]: the goroutine
    has not run yet; [Ticking]: it waits on its ticker. *)
Inductive Task : Type := Spawned | Ticking.

Record System : Type := mkSystem {
  rules : list (option ParsingRule);
  tasks : list Task;
  state : State
}.

(** What happens to the process: task [i] runs up to its loop, or the
    ticker of task [i] fires and the loop body runs.  Cycles are taken one
    at a time. *)
Inductive Event : Type :=
| Enter (i : nat) (w : World)
| Tick (i : nat) (w : World).

Fixpoint setTask (i : nat) (t : Task) (l : list Task) : list Task :=
  match l, i with
  | [], _ => []
  | _ :: l', 0 => t :: l'
  | x :: l', S i' => x :: setTask i' t l'
  end.

Definition step (sys : System) (e : Event) : System :=
  if negb (running (state sys)) then sys
  else
    match e with
    | Enter i w =>
        match nth_error (tasks sys) i, nth_error (rules sys) i with
        | Some Spawned, Some rule =>
            mkSystem (rules sys) (setTask i Ticking (tasks sys))
                     (updateNewsPeriodically_enter w rule (state sys))
        | _, _ => sys
        end
    | Tick i w =>
        match nth_error (tasks sys) i, nth_error (rules sys) i with
        | Some Ticking, Some (Some rule) =>
            mkSystem (rules sys) (tasks sys) (updateNews w rule (state sys))
        | _, _ => sys
        end
    end.

Definition run (sys : System) (events : list Event) : System :=
  fold_left step events sys.

(** What [Start] meets: [rules.json], [news.db], and the failures of the
    database and of the listener, when there are any. *)
Record Env : Type := mkEnv {
  rulesFile : result string;
  disk : option sqlite.DB;
  dbFault : option error;
  listenFault : option error
}.

(** [Start] up to [http.ListenAndServe]: the system that serves, or the
    error [main] then dies of. *)
Definition Start (env : Env) : result System :=
  do parsingRules <- readParsingRules (rulesFile env);
  do database <- openDatabase (disk env) (dbFault env);
  let sys :=
    mkSystem (elems parsingRules) (map (fun _ => Spawned) (elems parsingRules))
             (mkState database [LogParsingRules parsingRules] Running) in
  match listenFault env with
  | Some err => Err err
  | None => OK sys
  end.

End Updaters.

(** ** Sample data

    A small XPath engine for the two shapes of expression the samples use
    ([//tag] and [.//tag]: the descendant elements called [tag], in
    document order), a page of two items, and rule files. *)

Module Sample.
Import html.

Fixpoint descendants (n : Node) : list Node :=
  match n with
  | mkNode _ _ _ _ cs =>
      (fix walk (l : list Node) : list Node :=
         match l with
         | [] => []
         | c :: l' => c :: descendants c ++ walk l'
         end) cs
  end.

Definition isElement (tag : string) (n : Node) : bool :=
  match Type_ n with ElementNode => String.eqb (Data n) tag | _ => false end.

Definition select (top : Node) (expr : string) : list Node :=
  if strings.HasPrefix expr ".//" then filter (isElement (strings.drop 3 expr)) (descendants top)
  else if strings.HasPrefix expr "//" then filter (isElement (strings.drop 2 expr)) (descendants top)
  else [].

Definition engine : htmlquery.XPath :=
  {| htmlquery.Find := select;
     htmlquery.FindOne := fun top expr => hd_error (select top expr) |}.

Definition text (s : string) : Node := mkNode TextNode s [] false [].

Definition element (tag : string) (attrs : list Attribute) (cs : list Node) : Node :=
  mkNode ElementNode tag attrs false cs.

Definition anchor (href title : string) : Node :=
  element "a" [mkAttribute "" "href" href] [text title].

Definition item (cs : list Node) : Node :=
  element "div" [mkAttribute "" "class" "item"] cs.

Definition document (items : list Node) : Node :=
  mkNode DocumentNode "" [] true
         [element "html" [] [element "head" [] []; element "body" [] items]].

Definition pageURL : string := "http://example.com/news/index.html".

Definition ruleEvery (minutes : N) : ParsingRule :=
  mkParsingRule minutes pageURL "//div"
                (mkExtractRule ".//a" "href") (mkExtractRule ".//a" "").

Definition rule : ParsingRule := ruleEvery 10.

(** Two well-formed items. *)
Definition page : Node :=
  document [item [anchor "article/1" "First"];
            item [anchor "http://other.com/x" "Second"]].

(** The first link has a percent sign that starts no escape. *)
Definition badItem : Node := item [anchor "/sale-50%-off" "Sale"].

Definition goodItem : Node := item [anchor "article/2" "Other"].

Definition pageBadLink : Node := document [badItem; goodItem].

(** An item with no anchor at all, and one whose anchor has no text. *)
Definition bareItem : Node := item [text "no anchor here"].

Definition pageEmptyFields : Node := document [bareItem; item [anchor "article/3" ""]].

(** Two items without an anchor, their titles in a [span], and a rule
    that reads the title there. *)
Definition headline (title : string) : Node := item [element "span" [] [text title]].

Definition pageLinkless : Node := document [headline "Alpha"; headline "Beta"].

Definition spanRule : ParsingRule :=
  mkParsingRule 10 pageURL "//div"
                (mkExtractRule ".//a" "href") (mkExtractRule ".//span" "").

(** A second source, and a network on which only the first is down. *)
Definition otherRule : ParsingRule :=
  mkParsingRule 5 "http://other.org/feed.html" "//div"
                (mkExtractRule ".//a" "href") (mkExtractRule ".//a" "").

Definition firstSourceDown : string -> result Node :=
  fun u => if String.eqb u pageURL
           then Err (DriverError "dial tcp: connection refused")
           else OK page.

(** A table of three rows. *)
Definition store : sqlite.DB :=
  sqlite.mkDB [sqlite.mkRow 1 "http://example.com/news/go113" "Go 1.13 is released" 10;
               sqlite.mkRow 2 "http://example.com/news/rust" "Rust in the kernel" 30;
               sqlite.mkRow 3 "http://example.com/news/gophers" "Gophers meet in Go land" 20]
              3.

(** A title with a character of two bytes, U+00E9 as 0xC3 0xA9, and the
    second of the two bytes as a search term. *)
Definition cafe : string :=
  "caf" +++ String (ascii_of_nat 195) (String (ascii_of_nat 169) "").

Definition secondByte : string := String (ascii_of_nat 169) "".

Definition menu : sqlite.DB :=
  sqlite.mkDB [sqlite.mkRow 1 "http://example.com/news/cafe" cafe 10] 1.

Definition fresh : State := mkState sqlite.empty [] Running.

Definition serve (doc : Node) : string -> result Node := fun _ => OK doc.

Definition unreachable : string -> result Node :=
  fun _ => Err (DriverError "dial tcp: connection refused").

Definition world (load : string -> result Node) (t : nat) : World :=
  mkWorld load (fun _ => t) (fun _ => None).

Definition q : string := String json.dquote "".

Definition quoted (s : string) : string := q +++ s +++ q.

(** [[{"intervalMinutes": n, "url": ..., "newsNodesExpr": "//div",
    "linkRule": {"expr": ".//a", "attr": "href"},
    "titleRule": {"expr": ".//a"}}]] *)
Definition rulesText (interval : string) : string :=
  "[{" +++ quoted "intervalMinutes" +++ ": " +++ interval +++ ", "
  +++ quoted "url" +++ ": " +++ quoted pageURL +++ ", "
  +++ quoted "newsNodesExpr" +++ ": " +++ quoted "//div" +++ ", "
  +++ quoted "linkRule" +++ ": {" +++ quoted "expr" +++ ": " +++ quoted ".//a" +++ ", "
  +++ quoted "attr" +++ ": " +++ quoted "href" +++ "}, "
  +++ quoted "titleRule" +++ ": {" +++ quoted "expr" +++ ": " +++ quoted ".//a" +++ "}}]".

End Sample.

(** ** Vocabulary of the statements *)

(** [y] occurs in [x]. *)
Definition occursIn (y x : string) : Prop :=
  exists pre post, x = pre +++ y +++ post.

(** [s] does not start in the middle of a UTF-8 character: it is empty
    or its first byte is not a continuation byte.  Every well-formed text
    is such. *)
Definition startsCharacter (s : string) : bool :=
  match s with
  | "" => true
  | String c _ => negb (sqlite.isContinuation c)
  end.

(** [y] occurs in [x] at the first byte of [x] or at a byte that starts a
    character. *)
Definition occursAtCharacter (y x : string) : Prop :=
  exists pre post,
    x = pre +++ y +++ post /\ (pre = "" \/ startsCharacter (y +++ post) = true).

(** [a] is at least as recent as [b]. *)
Definition newerEq (a b : sqlite.Row) : Prop := sqlite.timestamp b <= sqlite.timestamp a.

(** The item a row is read into by [rows.Scan]. *)
Definition itemOf (r : sqlite.Row) : NewsItem := mkNewsItem (sqlite.link r) (sqlite.title r).

Section NodeVocabulary.
Context {engine : htmlquery.XPath}.

(** What one iteration of [loadNewsList] reads from an item node. *)
Definition linkOf (rule : ParsingRule) (node : html.Node) : string :=
  fst (extractEntity node (LinkRule rule)).

Definition titleOf (rule : ParsingRule) (node : html.Node) : string :=
  fst (extractEntity node (TitleRule rule)).

Definition logsOf (rule : ParsingRule) (node : html.Node) : list LogEntry :=
  snd (extractEntity node (LinkRule rule)) ++ snd (extractEntity node (TitleRule rule)).

(** The node's raw link can be made absolute. *)
Definition normalizes (rule : ParsingRule) (node : html.Node) : bool :=
  is_ok (convertToAbsURL (URL rule) (linkOf rule node)).

Definition absLink (rule : ParsingRule) (node : html.Node) : string :=
  match convertToAbsURL (URL rule) (linkOf rule node) with
  | OK l => l
  | Err _ => ""
  end.

Definition itemOfNode (rule : ParsingRule) (node : html.Node) : NewsItem :=
  mkNewsItem (absLink rule node) (titleOf rule node).

End NodeVocabulary.

(** All but the last segment of a path: what stands up to its last
    slash, the slash included. *)
Definition allButLastSegment (p : string) : string :=
  match strings.LastIndexByte p "/" with
  | Some i => strings.take (S i) p
  | None => ""
  end.

(** RFC 3986 as the specification cites it: reference resolution of
    section 5.2, written after the RFC's own text, and the examples of its
    section 5.4. *)
Module RFC3986.












(** 5.4: a reference and the target it has against [base], normal and
    abnormal examples. *)
Definition base : string := "http://a/b/c/d;p?q".


End RFC3986.

(** Page addresses written plainly: [scheme://host/path] with the scheme
    [http] or [https], a host of letters, digits and [-_.~], and a path of
    such segments, none of them [.] or [..]. *)
Definition plainByte (c : ascii) : bool :=
  strings.between "a" "z" c || strings.between "A" "Z" c
  || strings.between "0" "9" c || url.oneOf c "-_.~".

Definition pathByte (c : ascii) : bool := plainByte c || Ascii.eqb c "/".

Fixpoint allBytes (p : ascii -> bool) (s : string) : bool :=
  match s with
  | "" => true
  | String c s' => p c && allBytes p s'
  end.

Definition notDotSegment (seg : string) : bool :=
  negb (String.eqb seg "." || String.eqb seg "..").

Definition plainHost (h : string) : bool :=
  negb (url.isEmpty h) && allBytes plainByte h.

Definition plainPath (p : string) : bool :=
  (url.isEmpty p || strings.HasPrefix p "/") && allBytes pathByte p
  && forallb notDotSegment (strings.Split p "/").

Definition pageAddress (scheme host path : string) : string :=
  scheme +++ "://" +++ host +++ path.

(** A reference written plainly: a path of such segments that is not
    empty and does not start with two slashes (relative or rooted). *)
Definition plainReference (ref : string) : bool :=
  negb (url.isEmpty ref) && negb (strings.HasPrefix ref "//")
  && allBytes pathByte ref && forallb notDotSegment (strings.Split ref "/").

(** RFC 3986, 5.2.3 (merge) for a base with an authority: the
    reference's path appended to all but the last segment of the base
    path, or to a slash when the base path is empty. *)
Definition rfcMerge (basePath ref : string) : string :=
  if url.isEmpty basePath then "/" +++ ref else allButLastSegment basePath +++ ref.

(** RFC 3986, 5.2.2, for a reference that is only a path without dot
    segments: a rooted path replaces the base path, any other is merged. *)
Definition targetPath (basePath ref : string) : string :=
  if strings.HasPrefix ref "/" then ref else rfcMerge basePath ref.

(** The URL a plain page address parses to. *)
Definition plainURL (scheme host path : string) : url.URL :=
  url.mkURL scheme "" None host path "" false "" "".

(** The world an event brings, and the rule whose cycle it starts in a
    system: the first cycle of a task that has not run yet, or a tick of
    a task that waits on its ticker. *)
Definition worldOf (ev : Event) : World :=
  match ev with Enter _ w => w | Tick _ w => w end.

Definition fires (sys : System) (ev : Event) (rule : ParsingRule) : Prop :=
  match ev with
  | Enter i _ =>
      nth_error (tasks sys) i = Some Spawned /\ nth_error (rules sys) i = Some (Some rule)
  | Tick i _ =>
      nth_error (tasks sys) i = Some Ticking /\ nth_error (rules sys) i = Some (Some rule)
  end.

(** The shape [rules.json] is expected to have: an array of rule
    objects in which every member that names a field holds a value of the
    field's type, [null] standing for any.  The shape says nothing of the
    values themselves. *)
Definition isText (v : json.value) : bool :=
  match v with json.Null | json.Str _ => true | _ => false end.

Definition isUint (v : json.value) : bool :=
  match v with
  | json.Null => true
  | json.Number lit => url.isSome (ParseUint lit)
  | _ => false
  end.

Definition extractMemberFits (m : string * json.value) : bool :=
  if json.matches "expr" (fst m) then isText (snd m)
  else if json.matches "attr" (fst m) then isText (snd m)
  else true.

Definition isExtractRule (v : json.value) : bool :=
  match v with
  | json.Null => true
  | json.Object ms => forallb extractMemberFits ms
  | _ => false
  end.

Definition ruleMemberFits (m : string * json.value) : bool :=
  if json.matches "intervalMinutes" (fst m) then isUint (snd m)
  else if json.matches "url" (fst m) then isText (snd m)
  else if json.matches "newsNodesExpr" (fst m) then isText (snd m)
  else if json.matches "linkRule" (fst m) then isExtractRule (snd m)
  else if json.matches "titleRule" (fst m) then isExtractRule (snd m)
  else true.

Definition isRule (v : json.value) : bool :=
  match v with
  | json.Null => true
  | json.Object ms => forallb ruleMemberFits ms
  | _ => false
  end.

Definition isRuleSet (v : json.value) : bool :=
  match v with
  | json.Null => true
  | json.Array vs => forallb isRule vs
  | _ => false
  end.

(** The error is one of the decoder's type errors. *)
Definition isTypeError (e : error) : Prop :=
  exists value type, e = UnmarshalTypeError value type.

(** The names the decoder of a [ParsingRule] object looks for. *)
Definition ruleMember (key : string) : bool :=
  json.matches "intervalMinutes" key || json.matches "url" key
  || json.matches "newsNodesExpr" key || json.matches "linkRule" key
  || json.matches "titleRule" key.

(** * Properties *)

(** ** Byte strings *)

Lemma append_empty_r (s : string) : s +++ "" = s.
Proof. induction s as [|c s IH]; simpl; [reflexivity | now rewrite IH]. Qed.

Lemma append_assoc (a b c : string) : (a +++ b) +++ c = a +++ b +++ c.
Proof. induction a as [|x a IH]; simpl; [reflexivity | now rewrite IH]. Qed.

Lemma HasPrefix_iff (s p : string) :
  strings.HasPrefix s p = true <-> exists t, s = p +++ t.
Proof.
  revert s. induction p as [|a p IH]; intros s; simpl.
  - split; [intros _; now exists s | reflexivity].
  - destruct s as [|b s].
    + split; [discriminate | intros [t H]; discriminate].
    + rewrite andb_true_iff, Ascii.eqb_eq, IH. split.
      * intros [-> [t ->]]. now exists t.
      * intros [t H]. injection H as -> ->. split; [reflexivity | now exists t].
Qed.

Lemma instr_loop_nonzero (needle : string) :
  needle <> "" ->
  forall (hay : string) (try : bool) (n : nat),
    n <> 0 ->
    (sqlite.instr_loop hay needle try n <> 0
     <-> exists pre post,
           hay = pre +++ needle +++ post
           /\ (try = true /\ pre = "" \/ startsCharacter needle = true)).
Proof.
  intros Hne. induction hay as [|c rest IH]; intros try n Hn; cbn [sqlite.instr_loop].
  - split; [congruence|]. intros (pre & post & H & _).
    destruct pre; [|discriminate]. destruct needle; [congruence | discriminate].
  - assert (Hlater : (exists pre post, rest = pre +++ needle +++ post
                                       /\ (false = true /\ pre = ""
                                           \/ startsCharacter needle = true))
                     -> exists pre post,
                          String c rest = pre +++ needle +++ post
                          /\ (try = true /\ pre = "" \/ startsCharacter needle = true)).
    { intros (pre & post & -> & [[H _]|H]); [discriminate|].
      exists (String c pre), post. split; [reflexivity | now right]. }
    destruct (try || negb (sqlite.isContinuation c)) eqn:Etry.
    + destruct (strings.HasPrefix (String c rest) needle) eqn:Ep.
      * split; [intros _ | intros _; exact Hn].
        apply HasPrefix_iff in Ep as [post Ep]. exists "", post. split; [exact Ep|].
        destruct try; [now left | right]. cbn [orb] in Etry.
        destruct needle as [|d needle]; [congruence|]. injection Ep as <- _. exact Etry.
      * rewrite (IH false (S n)) by discriminate. split; [exact Hlater|].
        intros (pre & post & H & Hat). destruct pre as [|d pre].
        -- assert (strings.HasPrefix (String c rest) needle = true)
             by (apply HasPrefix_iff; now exists post).
           congruence.
        -- injection H as _ ->. exists pre, post. split; [reflexivity|].
           destruct Hat as [[_ H]|H]; [discriminate | now right].
    + apply orb_false_iff in Etry as [-> Ec]. apply negb_false_iff in Ec.
      rewrite (IH false n) by exact Hn. split; [exact Hlater|].
      intros (pre & post & H & Hat). destruct pre as [|d pre].
      * destruct Hat as [[H' _]|Hat]; [discriminate|].
        destruct needle as [|d needle]; [congruence|]. injection H as -> _.
        cbn [startsCharacter] in Hat. rewrite Ec in Hat. discriminate.
      * injection H as _ ->. exists pre, post. split; [reflexivity|].
        destruct Hat as [[H _]|H]; [discriminate | now right].
Qed.

Lemma occursAtCharacter_empty (s : string) : occursAtCharacter "" s.
Proof. exists "", s. split; [reflexivity | now left]. Qed.

Lemma instr_nonzero_iff (x y : string) :
  negb (sqlite.instr x y =? 0) = true <-> occursAtCharacter y x.
Proof.
  rewrite negb_true_iff, Nat.eqb_neq. unfold sqlite.instr.
  destruct y as [|c y]; cbn [url.isEmpty].
  - split; [intros _; apply occursAtCharacter_empty | discriminate].
  - rewrite instr_loop_nonzero by discriminate. unfold occursAtCharacter.
    split; intros (pre & post & H & Hat); exists pre, post; (split; [exact H|]).
    + destruct Hat as [[_ ->]|Hat]; [now left | now right].
    + destruct Hat as [->|Hat]; [left; now split | now right].
Qed.

(** For a term that starts a character, to occur at a character is to
    occur. *)
Lemma occursAtCharacter_iff (y x : string) :
  startsCharacter y = true -> (occursAtCharacter y x <-> occursIn y x).
Proof.
  intros Hy. split.
  - intros (pre & post & H & _). now exists pre, post.
  - intros Hoc. destruct y as [|c y]; [apply occursAtCharacter_empty|].
    destruct Hoc as (pre & post & H). exists pre, post. split; [exact H | right; exact Hy].
Qed.

(** ** The store *)

Import sqlite.

Lemma insertDesc_perm (r : Row) (l : list Row) : Permutation (insertDesc r l) (r :: l).
Proof.
  induction l as [|x l IH]; simpl; [apply Permutation_refl|].
  destruct (timestamp x <=? timestamp r); [apply Permutation_refl|].
  eapply perm_trans; [apply perm_skip, IH | apply perm_swap].
Qed.

Lemma insertDesc_HdRel (r a : Row) (l : list Row) :
  newerEq a r -> HdRel newerEq a l -> HdRel newerEq a (insertDesc r l).
Proof.
  intros Har H. destruct l as [|x l]; simpl; [now constructor|].
  inversion H; subst. destruct (timestamp x <=? timestamp r); now constructor.
Qed.

Lemma insertDesc_sorted (r : Row) (l : list Row) :
  Sorted newerEq l -> Sorted newerEq (insertDesc r l).
Proof.
  induction 1 as [|x l Hs IH Hd]; simpl; [repeat constructor|].
  destruct (timestamp x <=? timestamp r) eqn:E.
  - apply Nat.leb_le in E. constructor; [now constructor | now constructor].
  - apply Nat.leb_gt in E. constructor; [exact IH|].
    apply insertDesc_HdRel; [unfold newerEq; lia | exact Hd].
Qed.

Lemma orderBy_perm (l : list Row) : Permutation (orderByTimestampDesc l) l.
Proof.
  induction l as [|x l IH]; simpl; [constructor|].
  eapply perm_trans; [apply insertDesc_perm | now apply perm_skip].
Qed.

Lemma orderBy_sorted (l : list Row) : Sorted newerEq (orderByTimestampDesc l).
Proof.
  induction l as [|x l IH]; simpl; [constructor | now apply insertDesc_sorted].
Qed.

Lemma scan_rows (rs : list (string * string)) (acc : list NewsItem) :
  fold_left (fun items row => append items (mkNewsItem (fst row) (snd row))) rs (Some acc)
  = Some (acc ++ map (fun row => mkNewsItem (fst row) (snd row)) rs).
Proof.
  revert acc. induction rs as [|r rs IH]; intros acc; simpl.
  - now rewrite app_nil_r.
  - rewrite IH, <- app_assoc. reflexivity.
Qed.

Lemma getNews_rows (d : DB) (query : string) :
  getNews d None query
  = OK (Some (map itemOf
                (orderByTimestampDesc
                   (if negb (url.isEmpty query)
                    then filter (fun r => negb (instr (title r) query =? 0)) (rows d)
                    else rows d)))).
Proof.
  unfold getNews. rewrite scan_rows. simpl. f_equal. f_equal.
  destruct (url.isEmpty query); simpl;
    unfold selectAll, selectInstr; rewrite map_map; reflexivity.
Qed.

Lemma filter_link_absent (k : string) (l : list Row) :
  existsb (fun r => String.eqb (link r) k) l = false ->
  filter (fun r => String.eqb (link r) k) l = [].
Proof.
  induction l as [|r l IH]; simpl; [reflexivity|].
  destruct (String.eqb (link r) k); simpl; [discriminate | exact IH].
Qed.

Lemma filter_link_unique (k : string) (l : list Row) :
  NoDup (map link l) ->
  existsb (fun r => String.eqb (link r) k) l = true ->
  length (filter (fun r => String.eqb (link r) k) l) = 1.
Proof.
  induction l as [|r l IH]; simpl; [discriminate|].
  intros Hnd Hex. inversion Hnd as [|? ? Hnotin Hnd']; subst.
  destruct (String.eqb (link r) k) eqn:E; simpl.
  - apply String.eqb_eq in E. subst k. f_equal.
    rewrite filter_link_absent; [reflexivity|].
    destruct (existsb (fun r0 => String.eqb (link r0) (link r)) l) eqn:Ex; [|reflexivity].
    apply existsb_exists in Ex as (r' & Hin & Heq). apply String.eqb_eq in Heq.
    exfalso. apply Hnotin. rewrite <- Heq. now apply in_map.
  - now apply IH.
Qed.

Lemma insert_fresh (d : DB) (l t : string) (t0 : nat) :
  hasLink l d = false ->
  insert d l t t0 = OK (mkDB (rows d ++ [mkRow (S (seq d)) l t t0]) (S (seq d))).
Proof. unfold insert. now intros ->. Qed.

Lemma insert_duplicate (d : DB) (l t : string) (t0 : nat) :
  hasLink l d = true -> insert d l t t0 = Err (UniqueConstraint "news.link").
Proof. unfold insert. now intros ->. Qed.

Lemma hasLink_after_insert (d : DB) (l t : string) (t0 : nat) :
  hasLink l (mkDB (rows d ++ [mkRow (S (seq d)) l t t0]) (S (seq d))) = true.
Proof.
  unfold hasLink. simpl. rewrite existsb_app. simpl.
  rewrite String.eqb_refl. now rewrite orb_true_r.
Qed.

Lemma insert_keeps_unique (d d' : DB) (l t : string) (t0 : nat) :
  NoDup (map link (rows d)) -> insert d l t t0 = OK d' -> NoDup (map link (rows d')).
Proof.
  unfold insert. destruct (hasLink l d) eqn:E; [discriminate|].
  intros Hnd H. injection H as <-. simpl. rewrite map_app. simpl.
  apply NoDup_rev in Hnd. rewrite <- (rev_involutive (map link (rows d) ++ [l])).
  apply NoDup_rev. rewrite rev_app_distr. simpl. constructor; [|exact Hnd].
  rewrite <- in_rev. intros Hin. apply in_map_iff in Hin as (r & Hr & Hin).
  unfold hasLink in E. assert (existsb (fun r0 => String.eqb (link r0) l) (rows d) = true).
  { apply existsb_exists. exists r. split; [exact Hin | now apply String.eqb_eq]. }
  congruence.
Qed.

(** ** C3, C4, C9: the search *)

(** C3. With an empty or absent search term the store returns every
    stored row, most recent first; a request without [q] and a request
    with an empty [q] get the same reply. *)
Theorem getNews_empty_term_lists_all (d : DB) (form : Values) :
  Values_Get form "q" = "" ->
  exists sorted : list Row,
    Permutation sorted (rows d)
    /\ Sorted newerEq sorted
    /\ getNews d None "" = OK (Some (map itemOf sorted))
    /\ fst (searchHandler d None (OK form))
       = http_OK "application/json" (marshalItems (Some (map itemOf sorted)))
    /\ searchHandler d None (OK []) = searchHandler d None (OK [("q", [""])]).
Proof.
  intros Hq. exists (orderByTimestampDesc (rows d)).
  split; [apply orderBy_perm|]. split; [apply orderBy_sorted|].
  split; [now rewrite getNews_rows|]. split; [|reflexivity].
  unfold searchHandler. rewrite Hq, getNews_rows. reflexivity.
Qed.

(** C4 (as the code has it). With a non-empty term the store returns
    exactly the rows whose title contains the term at its first byte or at
    a byte that starts a UTF-8 character, most recent first: [instr] on
    TEXT compares at no other byte.  For a term that does not start with a
    continuation byte, as every well-formed text, these are exactly the
    rows whose title contains the term. *)
Theorem getNews_term_filters (d : DB) (term : string) :
  term <> "" ->
  exists sorted : list Row,
    getNews d None term = OK (Some (map itemOf sorted))
    /\ Sorted newerEq sorted
    /\ Permutation sorted
         (filter (fun r => negb (instr (title r) term =? 0)) (rows d))
    /\ (forall r, In r sorted <-> In r (rows d) /\ occursAtCharacter term (title r))
    /\ (startsCharacter term = true ->
        forall r, In r sorted <-> In r (rows d) /\ occursIn term (title r)).
Proof.
  intros Hne.
  exists (orderByTimestampDesc
            (filter (fun r => negb (instr (title r) term =? 0)) (rows d))).
  assert (Hrows : forall r,
             In r (orderByTimestampDesc
                     (filter (fun r => negb (instr (title r) term =? 0)) (rows d)))
             <-> In r (rows d) /\ occursAtCharacter term (title r)).
  { intros r. split.
    - intros Hin. apply (Permutation_in _ (orderBy_perm _)) in Hin.
      apply filter_In in Hin as [Hin Hm]. split; [exact Hin | now apply instr_nonzero_iff].
    - intros [Hin Hoc]. apply (Permutation_in _ (Permutation_sym (orderBy_perm _))).
      apply filter_In. split; [exact Hin | now apply instr_nonzero_iff]. }
  split.
  - rewrite getNews_rows. destruct term; [congruence | reflexivity].
  - split; [apply orderBy_sorted|]. split; [apply orderBy_perm|].
    split; [exact Hrows|]. intros Hstart r.
    rewrite Hrows, (occursAtCharacter_iff _ _ Hstart). reflexivity.
Qed.

(** C9. A search that succeeds returns a slice that is not [nil]; the
    reply is a JSON array, empty when nothing matches, and never [null]. *)
Theorem getNews_never_nil (d : DB) (fault : option error) (query : string)
    (items : slice NewsItem) :
  getNews d fault query = OK items ->
  (exists l, items = Some l
             /\ marshalItems items
                = json.Array
                    (map (fun it => json.Object
                                      [("link", json.Str (json.encoded (Link it)));
                                       ("title", json.Str (json.encoded (Title it)))]) l)
             /\ (l = [] -> marshalItems items = json.Array []))
  /\ marshalItems items <> json.Null
  /\ (forall form, Values_Get form "q" = query ->
        fst (searchHandler d fault (OK form))
        = http_OK "application/json" (marshalItems items)).
Proof.
  intros H. assert (Hs : exists l, items = Some l).
  { unfold getNews in H. destruct fault; [discriminate|].
    rewrite scan_rows in H. injection H as <-. eauto. }
  destruct Hs as [l ->]. split; [|split].
  - exists l. split; [reflexivity|]. split; [reflexivity | now intros ->].
  - discriminate.
  - intros form Hq. unfold searchHandler. rewrite Hq, H. reflexivity.
Qed.

(** ** C5: inserting twice *)

(** C5 (as the code has it). Inserting the same item twice leaves exactly
    one row for its link, with the timestamp of the first insert when the
    link was new; the second insert changes nothing and returns the
    engine's UNIQUE-constraint error wrapped by [insertNewsItem]. *)
Theorem insert_twice_one_row (d : DB) (x : NewsItem) (t1 t2 : nat) :
  NoDup (map link (rows d)) ->
  let r1 := insertNewsItem d None t1 x in
  let r2 := insertNewsItem (snd r1) None t2 x in
  snd r2 = snd r1
  /\ fst r2 = Some (InsertError (Link x) (Title x) (UniqueConstraint "news.link"))
  /\ length (filter (fun r => String.eqb (link r) (Link x)) (rows (snd r2))) = 1
  /\ NoDup (map link (rows (snd r2)))
  /\ (hasLink (Link x) d = false ->
      fst r1 = None
      /\ rows (snd r2) = rows d ++ [mkRow (S (seq d)) (Link x) (Title x) t1])
  /\ (hasLink (Link x) d = true -> snd r2 = d).
Proof.
  intros Hnd. unfold insertNewsItem. destruct (hasLink (Link x) d) eqn:E.
  - rewrite (insert_duplicate _ _ _ _ E). simpl. rewrite (insert_duplicate _ _ _ _ E).
    simpl. repeat split; try discriminate; auto.
    now apply filter_link_unique.
  - rewrite (insert_fresh _ _ _ _ E). simpl.
    rewrite (insert_duplicate _ _ _ _ (hasLink_after_insert d (Link x) (Title x) t1)).
    simpl. repeat split; try discriminate; auto.
    + rewrite filter_app, filter_link_absent by exact E. simpl.
      now rewrite String.eqb_refl.
    + apply (insert_keeps_unique d _ (Link x) (Title x) t1 Hnd (insert_fresh _ _ _ _ E)).
Qed.

(** ** Extraction and the updaters *)

Section ExtractionProperties.
Import htmlquery.
Context {engine : XPath}.

Lemma extractEntity_no_match (node : html.Node) (field : ExtractRule) :
  FindOne node (XPathExpr field) = None ->
  extractEntity node field = ("", [LogEmptyResult field]).
Proof. unfold extractEntity. now intros ->. Qed.

Lemma extractEntity_log (node : html.Node) (field : ExtractRule) :
  fst (extractEntity node field) = "" ->
  snd (extractEntity node field) = [LogEmptyResult field].
Proof. unfold extractEntity. simpl. now intros ->. Qed.

Lemma loop_all_normalized (rule : ParsingRule) (nodes : list html.Node) :
  Forall (fun n => normalizes rule n = true) nodes ->
  forall items lg,
  exists items',
    loadNewsList_loop rule nodes items lg
    = (OK items', lg ++ flat_map (logsOf rule) nodes)
    /\ elems items' = elems items ++ map (itemOfNode rule) nodes
    /\ (nodes <> [] -> items' <> None).
Proof.
  induction 1 as [|n nodes Hn Hall IH]; intros items lg;
    cbn [loadNewsList_loop flat_map map].
  - exists items. rewrite !app_nil_r. repeat split. congruence.
  - unfold normalizes, linkOf in Hn. unfold logsOf, itemOfNode, absLink, linkOf, titleOf.
    destruct (extractEntity n (LinkRule rule)) as [l lg1].
    destruct (extractEntity n (TitleRule rule)) as [t lg2]. cbn [fst snd] in *.
    destruct (convertToAbsURL (URL rule) l) as [l'|e]; [|discriminate].
    destruct (IH (append items (mkNewsItem l' t)) (lg ++ lg1 ++ lg2))
      as (items' & Heq & Hel & Hnn).
    exists items'. rewrite Heq, Hel. split; [|split].
    + f_equal. now rewrite <- !app_assoc.
    + destruct items; simpl; [now rewrite <- app_assoc | reflexivity].
    + intros _ ->. destruct items; simpl in Hel;
        [destruct l0 | idtac]; discriminate.
Qed.

Lemma loop_bad_link (rule : ParsingRule) (nodes : list html.Node) :
  Exists (fun n => normalizes rule n = false) nodes ->
  forall items lg,
  exists e lg', loadNewsList_loop rule nodes items lg
                = (Err (ConvertError "" (URL rule) e), lg').
Proof.
  induction nodes as [|n nodes IH]; intros Hex items lg; [inversion Hex|].
  cbn [loadNewsList_loop].
  destruct (extractEntity n (LinkRule rule)) as [l lg1] eqn:El.
  destruct (extractEntity n (TitleRule rule)) as [t lg2].
  destruct (convertToAbsURL (URL rule) l) as [l'|e] eqn:E; [|eauto].
  apply IH. inversion Hex as [? ? H|]; subst; [|assumption].
  unfold normalizes, linkOf in H. rewrite El in H. cbn [fst] in H.
  rewrite E in H. discriminate.
Qed.

Lemma updateNews_loop_status (w : World) (items : list NewsItem) :
  forall i st, status (updateNews_loop w i items st) = status st.
Proof.
  induction items as [|x items IH]; intros i st; simpl; [reflexivity|].
  destruct (insertNewsItem (db st) (faults w i) (now w i) x). now rewrite IH.
Qed.

Lemma insertNewsItem_keeps (d : DB) (t : nat) (x : NewsItem) (k : string) :
  hasLink k d = true -> hasLink k (snd (insertNewsItem d None t x)) = true.
Proof.
  intros H. unfold insertNewsItem, insert. destruct (hasLink (Link x) d); simpl;
    [exact H|]. unfold hasLink in *. simpl. rewrite existsb_app, H. reflexivity.
Qed.

Lemma insertNewsItem_stores (d : DB) (t : nat) (x : NewsItem) :
  hasLink (Link x) (snd (insertNewsItem d None t x)) = true.
Proof.
  unfold insertNewsItem, insert. destruct (hasLink (Link x) d) eqn:E; simpl;
    [exact E | apply hasLink_after_insert].
Qed.

Lemma updateNews_loop_keeps (w : World) (items : list NewsItem) (k : string) :
  (forall i, faults w i = None) ->
  forall i st, hasLink k (db st) = true ->
               hasLink k (db (updateNews_loop w i items st)) = true.
Proof.
  intros Hf. induction items as [|x items IH]; intros i st H; simpl; [exact H|].
  rewrite Hf. pose proof (insertNewsItem_keeps (db st) (now w i) x k H) as Hk.
  destruct (insertNewsItem (db st) None (now w i) x) as [err d']. now apply IH.
Qed.

Lemma updateNews_loop_stores (w : World) (items : list NewsItem) (x : NewsItem) :
  (forall i, faults w i = None) -> In x items ->
  forall i st, hasLink (Link x) (db (updateNews_loop w i items st)) = true.
Proof.
  intros Hf. induction items as [|y items IH]; intros Hin i st; [inversion Hin|].
  simpl. rewrite Hf. destruct Hin as [->|Hin].
  - pose proof (insertNewsItem_stores (db st) (now w i) x) as Hs.
    destruct (insertNewsItem (db st) None (now w i) x) as [err d'].
    now apply updateNews_loop_keeps.
  - destruct (insertNewsItem (db st) None (now w i) y) as [err d']. now apply IH.
Qed.

Lemma insertNewsItem_appends (d : DB) (fault : option error) (t : nat) (x : NewsItem) :
  snd (insertNewsItem d fault t x) = d
  \/ (fst (insertNewsItem d fault t x) = None
      /\ hasLink (Link x) d = false
      /\ snd (insertNewsItem d fault t x)
         = mkDB (rows d ++ [mkRow (S (seq d)) (Link x) (Title x) t]) (S (seq d))).
Proof.
  unfold insertNewsItem, insert. destruct fault; [now left|].
  destruct (hasLink (Link x) d) eqn:E; [now left | now right].
Qed.

Lemma insertNewsItem_unique (d : DB) (fault : option error) (t : nat) (x : NewsItem) :
  NoDup (map link (rows d)) ->
  NoDup (map link (rows (snd (insertNewsItem d fault t x)))).
Proof.
  intros Hnd. destruct (insertNewsItem_appends d fault t x) as [->|(_ & Hfresh & ->)];
    [exact Hnd|].
  apply (insert_keeps_unique d _ (Link x) (Title x) t Hnd (insert_fresh _ _ _ _ Hfresh)).
Qed.

Lemma insertNewsItem_keeps_any (d : DB) (fault : option error) (t : nat)
    (x : NewsItem) (k : string) :
  hasLink k d = true -> hasLink k (snd (insertNewsItem d fault t x)) = true.
Proof.
  intros H. destruct (insertNewsItem_appends d fault t x) as [->|(_ & _ & ->)];
    [exact H|]. unfold hasLink in *. cbn [rows]. now rewrite existsb_app, H.
Qed.

Lemma updateNews_loop_unique (w : World) (items : list NewsItem) :
  forall i st, NoDup (map link (rows (db st))) ->
               NoDup (map link (rows (db (updateNews_loop w i items st)))).
Proof.
  induction items as [|x items IH]; intros i st H; cbn [updateNews_loop]; [exact H|].
  pose proof (insertNewsItem_unique (db st) (faults w i) (now w i) x H) as Hx.
  destruct (insertNewsItem (db st) (faults w i) (now w i) x) as [err d']. now apply IH.
Qed.

Lemma updateNews_unique (w : World) (rule : ParsingRule) (st : State) :
  NoDup (map link (rows (db st))) ->
  NoDup (map link (rows (db (updateNews w rule st)))).
Proof.
  intros H. unfold updateNews. destruct (loadNewsList (LoadURL w) rule) as [[items|e] lg];
    [now apply updateNews_loop_unique | exact H].
Qed.

Lemma updateNews_loop_appends (w : World) (items : list NewsItem) :
  forall i st, exists added,
    rows (db (updateNews_loop w i items st)) = rows (db st) ++ added
    /\ Forall (fun r => exists k x,
                  nth_error items k = Some x /\ link r = Link x /\ title r = Title x
                  /\ timestamp r = now w (i + k)) added.
Proof.
  induction items as [|x items IH]; intros i st; cbn [updateNews_loop].
  - exists []. now rewrite app_nil_r.
  - pose proof (insertNewsItem_appends (db st) (faults w i) (now w i) x) as Hx.
    destruct (insertNewsItem (db st) (faults w i) (now w i) x) as [err d']. cbn [fst snd] in Hx.
    match goal with |- context [updateNews_loop w (S i) items ?s] =>
      destruct (IH (S i) s) as (added & Hrows & Hall) end.
    assert (Hall' : Forall (fun r => exists k y,
                              nth_error (x :: items) k = Some y /\ link r = Link y
                              /\ title r = Title y /\ timestamp r = now w (i + k)) added).
    { eapply Forall_impl; [|exact Hall]. intros r (k & y & Hk & Hl & Ht & Hts).
      exists (S k), y. rewrite Nat.add_succ_r. now repeat split. }
    cbn [db] in Hrows. destruct Hx as [->|(_ & _ & ->)].
    + now exists added.
    + cbn [rows] in Hrows. rewrite <- app_assoc in Hrows. eexists. split; [exact Hrows|].
      constructor; [|exact Hall'].
      exists 0, x. rewrite Nat.add_0_r. now repeat split.
Qed.

End ExtractionProperties.

Section CycleProperties.
Import htmlquery.
Context {engine : XPath}.

Lemma step_dead (sys : System) (ev : Event) :
  running (state sys) = false -> step sys ev = sys.
Proof. unfold step. now intros ->. Qed.

Lemma run_dead (events : list Event) (sys : System) :
  running (state sys) = false -> run sys events = sys.
Proof.
  unfold run. induction events as [|ev events IH]; intros H; simpl; [reflexivity|].
  rewrite (step_dead _ _ H). now apply IH.
Qed.

Lemma updateNews_failed (w : World) (rule : ParsingRule) (st : State)
    (e : error) (lg : list LogEntry) :
  loadNewsList (LoadURL w) rule = (Err e, lg) ->
  updateNews w rule st = mkState (db st) (log st ++ lg ++ [LogFatal e]) (Exited 1).
Proof. unfold updateNews. now intros ->. Qed.

(** A process with one task is that task's [updateNewsPeriodically]. *)
Lemma tickerLoop_run (rule : ParsingRule) (ticks : list World) (st : State) :
  state (run (mkSystem [Some rule] [Ticking] st) (map (Tick 0) ticks))
  = tickerLoop rule ticks st.
Proof.
  revert st. induction ticks as [|w ticks IH]; intros st; [reflexivity|].
  cbn [map tickerLoop]. unfold run in *. cbn [fold_left]. unfold step at 2.
  cbn [state]. destruct (running st) eqn:E; cbn [negb].
  - cbn [tasks rules nth_error]. apply IH.
  - fold (run (mkSystem [Some rule] [Ticking] st) (map (Tick 0) ticks)).
    now rewrite run_dead.
Qed.

Lemma updateNewsPeriodically_run (rule : ParsingRule) (first : World)
    (ticks : list World) (st : State) :
  running st = true ->
  state (run (mkSystem [Some rule] [Spawned] st) (Enter 0 first :: map (Tick 0) ticks))
  = updateNewsPeriodically (Some rule) first ticks st.
Proof.
  intros Hrun. unfold run. cbn [fold_left]. unfold step at 2. cbn [state].
  rewrite Hrun. cbn [negb tasks rules nth_error setTask].
  apply tickerLoop_run.
Qed.

(** C1 (as the code has it). A cycle whose fetch or extraction fails logs
    the error with [log.Fatal]: the process exits with status 1, the table
    is left as it was, and no later event of any task changes anything. *)
Theorem failed_cycle_exits_process (sys : System) (ev : Event) (rule : ParsingRule)
    (e : error) (lg : list LogEntry) :
  running (state sys) = true ->
  fires sys ev rule ->
  loadNewsList (LoadURL (worldOf ev)) rule = (Err e, lg) ->
  state (step sys ev)
  = mkState (db (state sys)) (log (state sys) ++ lg ++ [LogFatal e]) (Exited 1)
  /\ forall events, run (step sys ev) events = step sys ev.
Proof.
  intros Hrun Hf Hload.
  assert (Hst : state (step sys ev)
                = mkState (db (state sys)) (log (state sys) ++ lg ++ [LogFatal e]) (Exited 1)).
  { unfold step. rewrite Hrun. simpl. destruct ev as [i w|i w]; simpl in *;
      destruct Hf as [-> ->]; simpl.
    - unfold updateNewsPeriodically_enter.
      rewrite (updateNews_failed _ _ _ _ _ Hload). reflexivity.
    - apply updateNews_failed, Hload. }
  split; [exact Hst|]. intros events. apply run_dead. now rewrite Hst.
Qed.

(** C2 (as the code has it). When the raw link of one item node cannot be
    made absolute, [loadNewsList] returns the conversion error and no item
    at all, and the cycle stores nothing. *)
Theorem bad_link_aborts_the_batch (w : World) (rule : ParsingRule) (st : State)
    (doc node : html.Node) :
  LoadURL w (URL rule) = OK doc ->
  In node (Find doc (NewsNodesXPathExpr rule)) ->
  normalizes rule node = false ->
  (exists e lg, loadNewsList (LoadURL w) rule = (Err (ConvertError "" (URL rule) e), lg))
  /\ db (updateNews w rule st) = db st.
Proof.
  intros Hdoc Hin Hbad.
  assert (H : exists e lg, loadNewsList (LoadURL w) rule
                           = (Err (ConvertError "" (URL rule) e), lg)).
  { unfold loadNewsList. rewrite Hdoc. apply loop_bad_link.
    apply Exists_exists. eauto. }
  split; [exact H|]. destruct H as (e & lg & H).
  now rewrite (updateNews_failed _ _ _ _ _ H).
Qed.

(** C8. A field whose rule matches no node is the empty string and is
    logged with its rule; the item is produced all the same, with the
    empty title, or with the link the empty string resolves to. *)
Theorem empty_field_is_advisory (load : string -> result html.Node)
    (rule : ParsingRule) (doc node : html.Node) :
  load (URL rule) = OK doc ->
  In node (Find doc (NewsNodesXPathExpr rule)) ->
  Forall (fun n => normalizes rule n = true) (Find doc (NewsNodesXPathExpr rule)) ->
  (forall field, FindOne node (XPathExpr field) = None ->
                 extractEntity node field = ("", [LogEmptyResult field]))
  /\ exists items lg,
       loadNewsList load rule = (OK (Some items), lg)
       /\ In (itemOfNode rule node) items
       /\ (FindOne node (XPathExpr (TitleRule rule)) = None ->
           Title (itemOfNode rule node) = "" /\ In (LogEmptyResult (TitleRule rule)) lg)
       /\ (FindOne node (XPathExpr (LinkRule rule)) = None ->
           convertToAbsURL (URL rule) "" = OK (Link (itemOfNode rule node))
           /\ In (LogEmptyResult (LinkRule rule)) lg).
Proof.
  intros Hdoc Hin Hall. split; [intros field; apply extractEntity_no_match|].
  destruct (loop_all_normalized rule _ Hall None []) as (items' & Heq & Hel & Hnn).
  destruct items' as [items|].
  2:{ exfalso. apply Hnn; [|reflexivity]. intros E. rewrite E in Hin. inversion Hin. }
  simpl in Hel. subst items. eexists. eexists.
  split; [unfold loadNewsList; rewrite Hdoc; exact Heq|].
  split; [now apply in_map|]. split.
  - intros Hnone. unfold itemOfNode, titleOf. cbn [Title].
    rewrite (extractEntity_no_match _ _ Hnone). split; [reflexivity|].
    apply in_flat_map. exists node. split; [exact Hin|].
    unfold logsOf. rewrite (extractEntity_no_match _ _ Hnone).
    apply in_or_app. right. now left.
  - intros Hnone. split.
    + rewrite Forall_forall in Hall. specialize (Hall node Hin).
      unfold normalizes, itemOfNode, absLink, linkOf in *. cbn [Link].
      rewrite (extractEntity_no_match _ _ Hnone) in *. cbn [fst] in *.
      destruct (convertToAbsURL (URL rule) ""); [reflexivity | discriminate].
    + apply in_flat_map. exists node. split; [exact Hin|].
      unfold logsOf. rewrite (extractEntity_no_match _ _ Hnone).
      apply in_or_app. left. now left.
Qed.

End CycleProperties.

(** ** Plain page addresses through [net/url] *)

Section PlainAddresses.
Import strings url.

Ltac by_cases_on_byte c :=
  destruct c as [[] [] [] [] [] [] [] []]; vm_compute; intros H;
  try discriminate H; repeat split.

Lemma plainByte_host (c : ascii) :
  plainByte c = true ->
  Ascii.eqb c "%" = false /\ Ascii.eqb c "+" = false
  /\ shouldEscape c encodeHost = false /\ shouldEscape c encodePath = false
  /\ Ascii.eqb c " " = false.
Proof. by_cases_on_byte c. Qed.

Lemma pathByte_path (c : ascii) :
  pathByte c = true ->
  Ascii.eqb c "%" = false /\ Ascii.eqb c "+" = false
  /\ shouldEscape c encodePath = false /\ Ascii.eqb c " " = false.
Proof. by_cases_on_byte c. Qed.

Lemma pathByte_not_special (c : ascii) :
  pathByte c = true ->
  Ascii.eqb c "#" = false /\ Ascii.eqb c "?" = false /\ Ascii.eqb c "@" = false
  /\ Ascii.eqb c ":" = false /\ Ascii.eqb c "[" = false
  /\ ((byte c <? 32) || (byte c =? 127)) = false.
Proof. by_cases_on_byte c. Qed.

Lemma plainByte_not_slash (c : ascii) : plainByte c = true -> Ascii.eqb c "/" = false.
Proof. by_cases_on_byte c. Qed.

Lemma plainByte_pathByte (c : ascii) : plainByte c = true -> pathByte c = true.
Proof. unfold pathByte. now intros ->. Qed.

Lemma allBytes_app (p : ascii -> bool) (a b : string) :
  allBytes p (a +++ b) = allBytes p a && allBytes p b.
Proof. induction a as [|c a IH]; simpl; [reflexivity | now rewrite IH, andb_assoc]. Qed.

Lemma allBytes_weaken (p q : ascii -> bool) (s : string) :
  (forall c, p c = true -> q c = true) -> allBytes p s = true -> allBytes q s = true.
Proof.
  intros Hpq. induction s as [|c s IH]; simpl; [reflexivity|].
  rewrite !andb_true_iff. intros [Hc Hs]. split; [now apply Hpq | now apply IH].
Qed.

Lemma IndexByte_absent (p : ascii -> bool) (x : ascii) (s : string) :
  (forall c, p c = true -> Ascii.eqb c x = false) ->
  allBytes p s = true -> IndexByte s x = None.
Proof.
  intros Hp. induction s as [|c s IH]; simpl; [reflexivity|].
  rewrite andb_true_iff. intros [Hc Hs]. now rewrite (Hp c Hc), (IH Hs).
Qed.

Lemma LastIndexByte_absent (p : ascii -> bool) (x : ascii) (s : string) :
  (forall c, p c = true -> Ascii.eqb c x = false) ->
  allBytes p s = true -> LastIndexByte s x = None.
Proof.
  intros Hp. induction s as [|c s IH]; simpl; [reflexivity|].
  rewrite andb_true_iff. intros [Hc Hs]. now rewrite (Hp c Hc), (IH Hs).
Qed.

Lemma CountByte_absent (p : ascii -> bool) (x : ascii) (s : string) :
  (forall c, p c = true -> Ascii.eqb c x = false) ->
  allBytes p s = true -> CountByte s x = 0.
Proof.
  intros Hp. induction s as [|c s IH]; simpl; [reflexivity|].
  rewrite andb_true_iff. intros [Hc Hs]. now rewrite (Hp c Hc), (IH Hs).
Qed.

Lemma noCTL_path (s : string) :
  allBytes pathByte s = true -> stringContainsCTLByte s = false.
Proof.
  induction s as [|c s IH]; simpl; [reflexivity|].
  rewrite andb_true_iff. intros [Hc Hs].
  destruct (pathByte_not_special c Hc) as (_ & _ & _ & _ & _ & Hctl).
  rewrite <- orb_assoc in *. now rewrite orb_assoc, Hctl, (IH Hs).
Qed.

Lemma unescape_path (s : string) :
  allBytes pathByte s = true -> unescape s encodePath = OK s.
Proof.
  intros H. unfold unescape.
  assert (Hc : unescape_check encodePath s = None /\ unescape_decode encodePath s = s).
  { induction s as [|c s IH]; simpl; [now split|].
    simpl in H. apply andb_true_iff in H as [Hc Hs].
    destruct (pathByte_path c Hc) as (Hpct & Hplus & _).
    rewrite Hpct, Hplus. simpl. destruct (IH Hs) as [-> ->]. now split. }
  destruct Hc as [-> ->]. reflexivity.
Qed.

Lemma unescape_host (s : string) :
  allBytes plainByte s = true -> unescape s encodeHost = OK s.
Proof.
  intros H. unfold unescape.
  assert (Hc : unescape_check encodeHost s = None /\ unescape_decode encodeHost s = s).
  { induction s as [|c s IH]; simpl; [now split|].
    simpl in H. apply andb_true_iff in H as [Hc Hs].
    destruct (plainByte_host c Hc) as (Hpct & Hplus & Hesc & _).
    rewrite Hpct, Hplus, Hesc, andb_false_r. destruct (IH Hs) as [-> ->]. now split. }
  destruct Hc as [-> ->]. reflexivity.
Qed.

Lemma escape_path (s : string) :
  allBytes pathByte s = true -> escape s encodePath = s.
Proof.
  induction s as [|c s IH]; simpl; [reflexivity|].
  rewrite andb_true_iff. intros [Hc Hs].
  destruct (pathByte_path c Hc) as (_ & _ & Hesc & Hsp).
  now rewrite Hsp, Hesc, (IH Hs).
Qed.

Lemma escape_host (s : string) :
  allBytes plainByte s = true -> escape s encodeHost = s.
Proof.
  induction s as [|c s IH]; simpl; [reflexivity|].
  rewrite andb_true_iff. intros [Hc Hs].
  destruct (plainByte_host c Hc) as (_ & _ & Hesc & _ & Hsp).
  now rewrite Hsp, Hesc, (IH Hs).
Qed.

Lemma take_app (a b : string) : take (len a) (a +++ b) = a.
Proof. induction a as [|c a IH]; simpl; [now destruct b | now rewrite IH]. Qed.

Lemma drop_app (a b : string) : drop (len a) (a +++ b) = b.
Proof. induction a as [|c a IH]; simpl; [now destruct b | exact IH]. Qed.

Lemma IndexByte_app (a b : string) (x : ascii) :
  IndexByte a x = None ->
  IndexByte (a +++ b) x = option_map (fun i => len a + i) (IndexByte b x).
Proof.
  induction a as [|c a IH]; simpl.
  - intros _. now destruct (IndexByte b x).
  - destruct (Ascii.eqb c x); [discriminate|].
    destruct (IndexByte a x); [discriminate|]. intros _.
    rewrite (IH eq_refl). now destruct (IndexByte b x).
Qed.

Lemma rooted_or_empty (p : string) :
  (isEmpty p || HasPrefix p "/") = true -> p = "" \/ exists p', p = String "/" p'.
Proof.
  destruct p as [|c p]; [now left|]. cbn [isEmpty orb HasPrefix].
  destruct (Ascii.eqb_spec "/" c) as [<-|]; [|discriminate]. right. now exists p.
Qed.

(** Cutting [host ++ path] at the first slash gives the two back. *)
Lemma split_host_path (host path : string) :
  allBytes plainByte host = true ->
  (isEmpty path || HasPrefix path "/") = true ->
  split (host +++ path) "/" false = (host, path).
Proof.
  intros Hh Hp. unfold split.
  rewrite IndexByte_app
    by (apply (IndexByte_absent plainByte); [apply plainByte_not_slash | exact Hh]).
  destruct (rooted_or_empty _ Hp) as [->|[p' ->]]; simpl.
  - now rewrite append_empty_r.
  - rewrite Nat.add_0_r, take_app, drop_app. reflexivity.
Qed.

Lemma Split_nonempty (s : string) (c : ascii) : Split s c <> [].
Proof.
  induction s as [|a s IH]; simpl; [discriminate|].
  destruct (Ascii.eqb a c); [discriminate|]. now destruct (Split s c).
Qed.

Lemma Join_cons (x : string) (l : list string) (sep : string) :
  l <> [] -> Join (x :: l) sep = x +++ sep +++ Join l sep.
Proof. destruct l; [congruence | reflexivity]. Qed.

Lemma Join_Split (s : string) (c : ascii) : Join (Split s c) (String c "") = s.
Proof.
  induction s as [|a s IH]; [reflexivity|]. cbn [Split].
  pose proof (Split_nonempty s c) as Hne.
  destruct (Ascii.eqb_spec a c) as [->|].
  - rewrite Join_cons, IH by exact Hne. reflexivity.
  - destruct (Split s c) as [|x xs]; [congruence|].
    destruct xs as [|y ys].
    + cbn [Join] in *. now rewrite IH.
    + rewrite Join_cons by discriminate. rewrite Join_cons in IH by discriminate.
      rewrite <- IH. reflexivity.
Qed.

Lemma fold_resolveStep_plain (l acc : list string) :
  forallb notDotSegment l = true -> fold_left resolveStep l acc = acc ++ l.
Proof.
  revert acc. induction l as [|x l IH]; intros acc; simpl.
  - now rewrite app_nil_r.
  - rewrite andb_true_iff. intros [Hx Hl]. rewrite (IH _ Hl).
    unfold resolveStep, notDotSegment in *.
    destruct (String.eqb x "."); [discriminate|].
    destruct (String.eqb x ".."); [discriminate|]. now rewrite <- app_assoc.
Qed.

Lemma last_notDot (l : list string) :
  l <> [] -> forallb notDotSegment l = true -> notDotSegment (last l "") = true.
Proof.
  induction l as [|x l IH]; [congruence|]. intros _. simpl.
  rewrite andb_true_iff. intros [Hx Hl]. destruct l as [|y l]; [exact Hx|].
  apply IH; [discriminate | exact Hl].
Qed.

Lemma resolvePath_plain (path : string) :
  plainPath path = true -> resolvePath path "" = path.
Proof.
  unfold plainPath. rewrite !andb_true_iff. intros [[Hhead _] Hseg].
  unfold resolvePath. destruct (rooted_or_empty _ Hhead) as [->|[p' ->]]; [reflexivity|].
  cbn [isEmpty]. rewrite (fold_resolveStep_plain _ [] Hseg). cbn [app].
  pose proof (last_notDot _ (Split_nonempty _ _) Hseg) as Hlast.
  unfold notDotSegment in Hlast. apply negb_true_iff in Hlast. rewrite Hlast.
  rewrite Join_Split. reflexivity.
Qed.


Lemma plainHost_parts (host : string) :
  plainHost host = true -> host <> "" /\ allBytes plainByte host = true.
Proof.
  unfold plainHost. rewrite andb_true_iff. intros [Hne H]. split; [|exact H].
  now destruct host.
Qed.

Lemma parseAuthority_plain (host : string) :
  allBytes plainByte host = true -> parseAuthority host = OK (None, host).
Proof.
  intros H. pose proof (allBytes_weaken _ _ _ plainByte_pathByte H) as Hp.
  unfold parseAuthority, parseHost.
  rewrite (LastIndexByte_absent pathByte "@" host)
    by (exact Hp || (intros c Hc; now destruct (pathByte_not_special c Hc) as (_ & _ & ? & _))).
  rewrite (LastIndexByte_absent pathByte ":" host)
    by (exact Hp || (intros c Hc; now destruct (pathByte_not_special c Hc) as (_ & _ & _ & ? & _))).
  rewrite (unescape_host _ H).
  assert (Hb : HasPrefix host "[" = false).
  { destruct host as [|c host]; [reflexivity|]. cbn [HasPrefix].
    simpl in Hp. apply andb_true_iff in Hp as [Hc _].
    destruct (pathByte_not_special c Hc) as (_ & _ & _ & _ & Hbr & _).
    now rewrite Ascii.eqb_sym, Hbr. }
  now rewrite Hb.
Qed.

Lemma setPath_plain (u : URL) (path : string) :
  allBytes pathByte path = true ->
  setPath u path
  = OK (mkURL (Scheme u) (Opaque u) (User u) (Host u) path "" (ForceQuery u)
              (RawQuery u) (Fragment u)).
Proof.
  intros H. unfold setPath. now rewrite (unescape_path _ H), (escape_path _ H), String.eqb_refl.
Qed.

(** [parse] once the scheme is cut off, on [//host/path]. *)
Lemma parse_after_scheme (rawurl scheme host path : string) :
  stringContainsCTLByte rawurl = false ->
  String.eqb rawurl "*" = false ->
  getscheme rawurl = OK (scheme, "//" +++ host +++ path) ->
  ToLower scheme = scheme -> isEmpty scheme = false ->
  plainHost host = true -> plainPath path = true ->
  parse rawurl = OK (mkURL scheme "" None host path "" false "" "").
Proof.
  intros Hctl Hstar Hgs Hlow Hsch Hh Hp. apply plainHost_parts in Hh as [Hne Hh].
  pose proof Hp as Hp'. unfold plainPath in Hp'. rewrite !andb_true_iff in Hp'.
  destruct Hp' as [[Hroot Hpb] Hseg].
  assert (Hr0 : allBytes pathByte (host +++ path) = true).
  { rewrite allBytes_app, Hpb, (allBytes_weaken _ _ _ plainByte_pathByte Hh). reflexivity. }
  assert (Hr : allBytes pathByte ("//" +++ host +++ path) = true).
  { change (pathByte "/" && (pathByte "/" && allBytes pathByte (host +++ path)) = true).
    now rewrite Hr0. }
  assert (Hq : IndexByte ("//" +++ host +++ path) "?" = None).
  { apply (IndexByte_absent pathByte); [|exact Hr].
    intros c Hc. now destruct (pathByte_not_special c Hc) as (_ & ? & _). }
  assert (Hcnt : CountByte ("//" +++ host +++ path) "?" = 0).
  { apply (CountByte_absent pathByte); [|exact Hr].
    intros c Hc. now destruct (pathByte_not_special c Hc) as (_ & ? & _). }
  unfold parse. rewrite Hctl, Hstar, Hgs. cbn [fst snd]. rewrite Hlow, Hcnt.
  assert (Hsplit : split ("//" +++ host +++ path) "?" true = ("//" +++ host +++ path, "")).
  { unfold split. now rewrite Hq. }
  cbn [Nat.eqb]. rewrite andb_false_r, Hsplit. cbn [fst snd].
  change (HasPrefix ("//" +++ host +++ path) "/") with true.
  change (HasPrefix ("//" +++ host +++ path) "//") with true.
  change (drop 2 ("//" +++ host +++ path)) with (host +++ path).
  rewrite Hsch. cbn [negb andb orb].
  rewrite (split_host_path host path Hh Hroot), (parseAuthority_plain _ Hh). cbn [fst snd].
  now rewrite (setPath_plain _ _ Hpb).
Qed.

Lemma parse_plain (scheme host path : string) :
  scheme = "http" \/ scheme = "https" ->
  plainHost host = true -> plainPath path = true ->
  parse (pageAddress scheme host path) = OK (mkURL scheme "" None host path "" false "" "").
Proof.
  intros Hs Hh Hp.
  assert (Hr : stringContainsCTLByte (host +++ path) = false).
  { apply noCTL_path. apply plainHost_parts in Hh as [_ Hh].
    unfold plainPath in Hp. rewrite !andb_true_iff in Hp. destruct Hp as [[_ Hpb] _].
    rewrite allBytes_app, Hpb, (allBytes_weaken _ _ _ plainByte_pathByte Hh). reflexivity. }
  destruct Hs as [-> | ->]; apply parse_after_scheme; try reflexivity; try assumption.
Qed.

Lemma isEmpty_app (a b : string) : isEmpty (a +++ b) = isEmpty a && isEmpty b.
Proof. now destruct a. Qed.

Lemma plainPath_parts (path : string) :
  plainPath path = true ->
  allBytes pathByte path = true /\ String.eqb path "*" = false
  /\ (negb (isEmpty path) && negb (HasPrefix path "/")) = false.
Proof.
  intros Hp. pose proof Hp as Hp'. unfold plainPath in Hp'. rewrite !andb_true_iff in Hp'.
  destruct Hp' as [[Hroot Hpb] _]. split; [exact Hpb|].
  destruct (rooted_or_empty _ Hroot) as [->|[p' ->]]; split; reflexivity.
Qed.

Lemma Parse_plain (scheme host path : string) :
  scheme = "http" \/ scheme = "https" ->
  plainHost host = true -> plainPath path = true ->
  Parse (pageAddress scheme host path) = OK (plainURL scheme host path).
Proof.
  intros Hs Hh Hp. unfold Parse.
  assert (Hfrag : split (pageAddress scheme host path) "#" true
                  = (pageAddress scheme host path, "")).
  { unfold split. rewrite (IndexByte_absent (fun c => pathByte c || Ascii.eqb c ":") "#");
      [reflexivity | |].
    - intros c Hc. apply orb_true_iff in Hc as [Hc|Hc].
      + now destruct (pathByte_not_special c Hc) as (? & _).
      + apply Ascii.eqb_eq in Hc. now subst c.
    - apply plainHost_parts in Hh as [_ Hh]. apply plainPath_parts in Hp as (Hpb & _).
      unfold pageAddress. rewrite !allBytes_app.
      rewrite (allBytes_weaken pathByte _ path), (allBytes_weaken plainByte _ host);
        try assumption.
      + destruct Hs as [-> | ->]; reflexivity.
      + intros c Hc. now rewrite (plainByte_pathByte c Hc).
      + intros c Hc. now rewrite Hc. }
  rewrite Hfrag, (parse_plain _ _ _ Hs Hh Hp). reflexivity.
Qed.

Lemma EscapedPath_plain (scheme host path : string) :
  plainPath path = true -> EscapedPath (plainURL scheme host path) = path.
Proof.
  intros Hp. apply plainPath_parts in Hp as (Hpb & Hstar & _).
  unfold EscapedPath, plainURL. cbn [RawPath Path isEmpty negb andb].
  now rewrite Hstar, (escape_path _ Hpb).
Qed.

Lemma normalize_plain (scheme host path : string) :
  plainPath path = true ->
  setPath_ (plainURL scheme host path) (resolvePath path "") = plainURL scheme host path
  /\ setPath_ (mkURL scheme "" None host "" "" false "" "") (resolvePath path "")
     = plainURL scheme host path.
Proof.
  intros Hp. rewrite (resolvePath_plain _ Hp). apply plainPath_parts in Hp as (Hpb & _).
  unfold setPath_. rewrite !(setPath_plain _ _ Hpb). split; reflexivity.
Qed.

Lemma String_plain (scheme host path : string) :
  scheme = "http" \/ scheme = "https" ->
  plainHost host = true -> plainPath path = true ->
  String_ (plainURL scheme host path) = pageAddress scheme host path.
Proof.
  intros Hs Hh Hp. rewrite <- (EscapedPath_plain scheme host path Hp) at 2.
  apply plainHost_parts in Hh as [Hne Hh]. pose proof (EscapedPath_plain scheme host path Hp) as He.
  apply plainPath_parts in Hp as (Hpb & _ & Hrel).
  unfold String_. rewrite He. unfold plainURL.
  cbn [Scheme Opaque User Host Path ForceQuery RawQuery Fragment negb orb andb isSome].
  rewrite (escape_host _ Hh).
  assert (Hhost : isEmpty host = false) by now destruct host.
  rewrite Hhost. change (isEmpty "") with true. cbn [negb orb andb].
  rewrite andb_true_r, Hrel.
  destruct Hs as [-> | ->]; cbn [isEmpty append negb orb andb];
    unfold pageAddress; cbn [append]; reflexivity.
Qed.

(** The empty link against a plain page address is the address itself. *)
Lemma convertToAbsURL_empty_plain (scheme host path : string) :
  scheme = "http" \/ scheme = "https" ->
  plainHost host = true -> plainPath path = true ->
  convertToAbsURL (pageAddress scheme host path) "" = OK (pageAddress scheme host path).
Proof.
  intros Hs Hh Hp. unfold convertToAbsURL, URL_Parse.
  change (Parse "") with (OK zeroURL). rewrite (Parse_plain _ _ _ Hs Hh Hp).
  change (IsAbs zeroURL) with false. cbn [negb]. f_equal.
  assert (Hsch : isEmpty scheme = false) by (destruct Hs as [-> | ->]; reflexivity).
  destruct (normalize_plain scheme host path Hp) as [Hn1 Hn2].
  assert (H1 : ResolveReference zeroURL (plainURL scheme host path) = plainURL scheme host path).
  { unfold ResolveReference. rewrite (EscapedPath_plain _ _ _ Hp).
    unfold plainURL in *.
    cbn [Scheme Opaque User Host Path RawPath ForceQuery RawQuery Fragment].
    rewrite Hsch. cbn [negb orb]. exact Hn1. }
  rewrite H1. 
  assert (H2 : ResolveReference (plainURL scheme host path) zeroURL = plainURL scheme host path).
  { unfold ResolveReference. rewrite (EscapedPath_plain _ _ _ Hp).
    change (EscapedPath zeroURL) with "". unfold plainURL, zeroURL in *.
    cbn [Scheme Opaque User Host Path RawPath ForceQuery RawQuery Fragment
         isEmpty isSome negb orb andb]. exact Hn2. }
  rewrite H2. now apply String_plain.
Qed.

(** *** References that are plain paths *)

Lemma getscheme_loop_none (rawurl : string) (rest : string) :
  allBytes pathByte rest = true ->
  forall i, getscheme_loop rawurl i rest = OK ("", rawurl).
Proof.
  induction rest as [|c rest IH]; intros H i; [reflexivity|].
  cbn [allBytes] in H. apply andb_true_iff in H as [Hc Hr].
  destruct (pathByte_not_special c Hc) as (_ & _ & _ & Hcolon & _).
  cbn [getscheme_loop]. rewrite Hcolon.
  destruct (between "a" "z" c || between "A" "Z" c); [now apply IH|].
  destruct (between "0" "9" c || oneOf c "+-."); [|reflexivity].
  destruct (i =? 0); [reflexivity | now apply IH].
Qed.

Lemma plainReference_parts (ref : string) :
  plainReference ref = true ->
  isEmpty ref = false /\ HasPrefix ref "//" = false
  /\ allBytes pathByte ref = true /\ forallb notDotSegment (Split ref "/") = true.
Proof.
  unfold plainReference. rewrite !andb_true_iff, !negb_true_iff. tauto.
Qed.

Lemma pathBytes_not_star (s : string) :
  allBytes pathByte s = true -> String.eqb s "*" = false.
Proof.
  destruct s as [|c s]; [reflexivity|]. cbn [allBytes]. rewrite andb_true_iff.
  intros [Hc _]. cbn [String.eqb].
  assert (Hstar : Ascii.eqb c "*" = false) by (revert Hc; by_cases_on_byte c).
  now rewrite Hstar.
Qed.

(** The URL a plain reference parses to. *)
Lemma Parse_reference (ref : string) :
  plainReference ref = true ->
  Parse ref = OK (mkURL "" "" None "" ref "" false "" "").
Proof.
  intros H. apply plainReference_parts in H as (Hne & Hnet & Hb & Hseg).
  assert (Hnone : forall x, (forall c, pathByte c = true -> Ascii.eqb c x = false) ->
                            IndexByte ref x = None).
  { intros x Hx. now apply (IndexByte_absent pathByte). }
  assert (Hhash : IndexByte ref "#" = None).
  { apply Hnone. intros c Hc. now destruct (pathByte_not_special c Hc) as (? & _). }
  assert (Hq : IndexByte ref "?" = None).
  { apply Hnone. intros c Hc. now destruct (pathByte_not_special c Hc) as (_ & ? & _). }
  assert (Hcolon : IndexByte ref ":" = None).
  { apply Hnone. intros c Hc. now destruct (pathByte_not_special c Hc) as (_ & _ & _ & ? & _). }
  assert (Hcnt : CountByte ref "?" = 0).
  { apply (CountByte_absent pathByte); [|exact Hb].
    intros c Hc. now destruct (pathByte_not_special c Hc) as (_ & ? & _). }
  unfold Parse, split. rewrite Hhash. unfold parse.
  rewrite (noCTL_path _ Hb), (pathBytes_not_star _ Hb).
  unfold getscheme. rewrite (getscheme_loop_none ref ref Hb 0). cbn [fst snd ToLower].
  rewrite Hcnt. cbn [Nat.eqb]. rewrite andb_false_r. unfold split. rewrite Hq.
  cbn [fst snd isEmpty negb]. rewrite Hcolon, !andb_false_r, Hnet, andb_false_r.
  rewrite (setPath_plain _ _ Hb). reflexivity.
Qed.

Lemma HasPrefix_slash (s : string) :
  HasPrefix s "/" = true -> exists s', s = String "/" s'.
Proof.
  destruct s as [|c s]; [discriminate|]. cbn [HasPrefix].
  destruct (Ascii.eqb_spec "/" c) as [<-|]; [|discriminate]. intros _. now exists s.
Qed.

Lemma Split_app_sep (d b : string) (c : ascii) :
  Split (d +++ String c b) c = Split d c ++ Split b c.
Proof.
  induction d as [|x d IH]; cbn [String.append Split].
  - now rewrite Ascii.eqb_refl.
  - rewrite IH. destruct (Ascii.eqb x c); [reflexivity|].
    pose proof (Split_nonempty d c) as Hne.
    destruct (Split d c); [congruence | reflexivity].
Qed.

Lemma LastIndexByte_Some (p : string) (c : ascii) (i : nat) :
  LastIndexByte p c = Some i ->
  exists d f, p = d +++ String c f /\ take (S i) p = d +++ String c "".
Proof.
  revert i. induction p as [|x p IH]; intros i; cbn [LastIndexByte]; [discriminate|].
  destruct (LastIndexByte p c) as [j|] eqn:E.
  - intros H. injection H as <-. destruct (IH j eq_refl) as (d & f & -> & Ht).
    exists (String x d), f. split; [reflexivity|].
    cbn [String.append]. rewrite <- Ht. reflexivity.
  - destruct (Ascii.eqb_spec x c) as [->|]; [|discriminate]. intros H. injection H as <-.
    exists "", p. split; reflexivity.
Qed.

Lemma LastIndexByte_rooted (p : string) :
  exists i, LastIndexByte (String "/" p) "/" = Some i.
Proof. simpl. destruct (LastIndexByte p "/"); eauto. Qed.

Lemma plainPath_intro (p : string) :
  HasPrefix p "/" = true -> allBytes pathByte p = true ->
  forallb notDotSegment (Split p "/") = true -> plainPath p = true.
Proof. unfold plainPath. intros -> -> ->. now rewrite orb_true_r. Qed.

(** The merged path is again plain, and [resolvePath] computes it. *)
Lemma targetPath_plain (path ref : string) :
  plainPath path = true -> plainReference ref = true ->
  plainPath (targetPath path ref) = true.
Proof.
  intros Hp Hr. pose proof Hp as Hp'. unfold plainPath in Hp'. rewrite !andb_true_iff in Hp'.
  destruct Hp' as [[Hroot Hpb] Hseg].
  apply plainReference_parts in Hr as (Hne & Hnet & Hb & Hrseg).
  unfold targetPath. destruct (HasPrefix ref "/") eqn:Hslash.
  - now apply plainPath_intro.
  - unfold rfcMerge. destruct (rooted_or_empty _ Hroot) as [->|[p' ->]].
    + apply plainPath_intro; [reflexivity | exact Hb | exact Hrseg].
    + cbn [isEmpty]. unfold allButLastSegment.
      destruct (LastIndexByte_rooted p') as [i Hi]. rewrite Hi.
      destruct (LastIndexByte_Some _ _ _ Hi) as (d & f & Hdf & Ht). rewrite Ht.
      rewrite Hdf in Hpb, Hseg. rewrite append_assoc. cbn [String.append].
      rewrite allBytes_app in Hpb. apply andb_true_iff in Hpb as [Hd _].
      rewrite Split_app_sep, forallb_app in Hseg. apply andb_true_iff in Hseg as [Hds _].
      apply plainPath_intro.
      * destruct d as [|x d]; [reflexivity|]. cbn [String.append] in *.
        injection Hdf as <- _. reflexivity.
      * rewrite allBytes_app, Hd. cbn [allBytes]. now rewrite Hb.
      * now rewrite Split_app_sep, forallb_app, Hds, Hrseg.
Qed.

Lemma resolvePath_via_merge (base ref : string) :
  isEmpty ref = false ->
  resolvePath base ref
  = resolvePath (if HasPrefix ref "/" then ref
                 else match LastIndexByte base "/" with
                      | Some i => take (i + 1) base +++ ref
                      | None => ref
                      end) "".
Proof.
  destruct ref as [|c ref]; [discriminate|]. intros _. unfold resolvePath at 1.
  cbn [HasPrefix]. rewrite Ascii.eqb_sym, andb_true_r.
  destruct (Ascii.eqb "/" c); [reflexivity|].
  destruct (LastIndexByte base "/"); reflexivity.
Qed.

Lemma resolvePath_reference (path ref : string) :
  plainPath path = true -> plainReference ref = true ->
  resolvePath path ref = targetPath path ref.
Proof.
  intros Hp Hr. pose proof (targetPath_plain _ _ Hp Hr) as Ht.
  pose proof Hp as Hp'. unfold plainPath in Hp'. rewrite !andb_true_iff in Hp'.
  destruct Hp' as [[Hroot _] _].
  pose proof Hr as Hr'. apply plainReference_parts in Hr' as (Hne & _ & _ & Hrseg).
  rewrite (resolvePath_via_merge _ _ Hne). unfold targetPath in *.
  destruct (HasPrefix ref "/") eqn:Hslash; [now apply resolvePath_plain|].
  unfold rfcMerge in *. destruct (rooted_or_empty _ Hroot) as [->|[p' ->]].
  - cbn [LastIndexByte isEmpty] in *. 
    unfold resolvePath. rewrite Hne. cbn [isEmpty].
    destruct ref as [|c ref]; [discriminate|].
    rewrite (fold_resolveStep_plain _ [] Hrseg). cbn [app].
    pose proof (last_notDot _ (Split_nonempty _ _) Hrseg) as Hlast.
    unfold notDotSegment in Hlast. apply negb_true_iff in Hlast. rewrite Hlast.
    rewrite Join_Split. unfold TrimPrefix. now rewrite Hslash.
  - cbn [isEmpty] in *. unfold allButLastSegment in *.
    destruct (LastIndexByte_rooted p') as [i Hi]. rewrite Hi in *.
    rewrite Nat.add_1_r. now apply resolvePath_plain.
Qed.

Lemma EscapedPath_reference (ref : string) :
  allBytes pathByte ref = true ->
  EscapedPath (mkURL "" "" None "" ref "" false "" "") = ref.
Proof.
  intros Hb. unfold EscapedPath. cbn [RawPath Path isEmpty negb andb].
  now rewrite (pathBytes_not_star _ Hb), (escape_path _ Hb).
Qed.

(** A plain reference against a plain page address: the address with
    the target path of RFC 3986. *)
Lemma convertToAbsURL_plain_reference (scheme host path ref : string) :
  scheme = "http" \/ scheme = "https" ->
  plainHost host = true -> plainPath path = true -> plainReference ref = true ->
  convertToAbsURL (pageAddress scheme host path) ref
  = OK (pageAddress scheme host (targetPath path ref)).
Proof.
  intros Hs Hh Hp Hr. unfold convertToAbsURL, URL_Parse.
  rewrite (Parse_reference _ Hr), (Parse_plain _ _ _ Hs Hh Hp).
  change (IsAbs (mkURL "" "" None "" ref "" false "" "")) with false. cbn [negb]. f_equal.
  assert (Hsch : isEmpty scheme = false) by (destruct Hs as [-> | ->]; reflexivity).
  destruct (normalize_plain scheme host path Hp) as [Hn1 _].
  pose proof (targetPath_plain _ _ Hp Hr) as Ht.
  pose proof Hr as Hr'. apply plainReference_parts in Hr' as (Hne & _ & Hb & _).
  assert (H1 : ResolveReference (mkURL "" "" None "" ref "" false "" "")
                                (plainURL scheme host path)
               = plainURL scheme host path).
  { unfold ResolveReference. rewrite (EscapedPath_plain _ _ _ Hp).
    unfold plainURL in *.
    cbn [Scheme Opaque User Host Path RawPath ForceQuery RawQuery Fragment].
    rewrite Hsch. cbn [negb orb]. exact Hn1. }
  rewrite H1.
  assert (H2 : ResolveReference (plainURL scheme host path)
                                (mkURL "" "" None "" ref "" false "" "")
               = plainURL scheme host (targetPath path ref)).
  { unfold ResolveReference.
    rewrite (EscapedPath_plain _ _ _ Hp), (EscapedPath_reference _ Hb).
    rewrite (resolvePath_reference _ _ Hp Hr). unfold plainURL.
    cbn [Scheme Opaque User Host Path RawPath ForceQuery RawQuery Fragment
         isEmpty isSome negb orb andb].
    rewrite Hne. cbn [andb]. unfold setPath_.
    apply plainPath_parts in Ht as (Htb & _). now rewrite (setPath_plain _ _ Htb). }
  rewrite H2. now apply String_plain.
Qed.
(** *** Plain addresses and references through RFC 3986 *)














End PlainAddresses.

(** ** C6: link normalization *)


(** ** C10: the empty link *)

Section EmptyLink.
Import htmlquery.
Context {engine : XPath}.

Lemma convertToAbsURL_empty (baseURL : string) (b : url.URL) :
  url.Parse baseURL = OK b ->
  convertToAbsURL baseURL ""
  = OK (url.String_ (url.ResolveReference (url.ResolveReference url.zeroURL b)
                                          url.zeroURL)).
Proof.
  intros Hb. unfold convertToAbsURL, url.URL_Parse.
  change (url.Parse "") with (OK url.zeroURL). now rewrite Hb.
Qed.

Lemma updateNews_loop_app (w : World) (l1 l2 : list NewsItem) :
  forall i st,
    updateNews_loop w i (l1 ++ l2) st
    = updateNews_loop w (i + length l1) l2 (updateNews_loop w i l1 st).
Proof.
  induction l1 as [|x l1 IH]; intros i st; cbn [app updateNews_loop length].
  - now rewrite Nat.add_0_r.
  - destruct (insertNewsItem (db st) (faults w i) (now w i) x) as [err d'].
    rewrite IH. f_equal. lia.
Qed.

Lemma updateNews_loop_links (w : World) (items : list NewsItem) (l : string) :
  forall i st,
    hasLink l (db (updateNews_loop w i items st)) = true ->
    hasLink l (db st) = true \/ exists x, In x items /\ Link x = l.
Proof.
  induction items as [|x items IH]; intros i st; cbn [updateNews_loop]; [now left|].
  pose proof (insertNewsItem_appends (db st) (faults w i) (now w i) x) as Hx.
  destruct (insertNewsItem (db st) (faults w i) (now w i) x) as [err d']. cbn [fst snd] in Hx.
  intros H. apply IH in H. cbn [db] in H.
  destruct H as [H|(y & Hy & Hl)]; [|right; exists y; split; [now right | exact Hl]].
  destruct Hx as [->|(_ & _ & ->)]; [now left|].
  unfold hasLink in H. cbn [rows] in H. rewrite existsb_app in H.
  apply orb_true_iff in H as [H|H]; [now left|].
  cbn [existsb link] in H. rewrite orb_false_r in H. apply String.eqb_eq in H.
  right. exists x. split; [now left | exact H].
Qed.

Lemma updateNews_loop_log (w : World) (items : list NewsItem) :
  forall i st, exists more, log (updateNews_loop w i items st) = log st ++ more.
Proof.
  induction items as [|x items IH]; intros i st; cbn [updateNews_loop].
  - exists []. now rewrite app_nil_r.
  - destruct (insertNewsItem (db st) (faults w i) (now w i) x) as [err d'].
    match goal with |- context [updateNews_loop w (S i) items ?s] =>
      destruct (IH (S i) s) as (more & ->) end.
    cbn [log]. rewrite <- app_assoc. now eexists.
Qed.

(** The [k]-th insert of a cycle.  It meets the table as the items before
    it left it: when no row has the item's link it adds the item's row,
    which stays; when one has, it is refused and logged. *)
Lemma updateNews_loop_nth (w : World) (items : list NewsItem) (k : nat) (x : NewsItem)
    (st : State) :
  nth_error items k = Some x ->
  faults w k = None ->
  let before := updateNews_loop w 0 (firstn k items) st in
  (hasLink (Link x) (db before) = false ->
   In (mkRow (S (seq (db before))) (Link x) (Title x) (now w k))
      (rows (db (updateNews_loop w 0 items st))))
  /\ (hasLink (Link x) (db before) = true ->
      In (LogPrintln (InsertError (Link x) (Title x) (UniqueConstraint "news.link")))
         (log (updateNews_loop w 0 items st))).
Proof.
  intros Hk Hf before.
  destruct (nth_error_split items k Hk) as (l1 & l2 & Hitems & Hlen).
  assert (Hfirst : firstn k items = l1).
  { rewrite Hitems, <- Hlen, firstn_app, firstn_all, Nat.sub_diag. cbn [firstn].
    now rewrite app_nil_r. }
  assert (Hrun : updateNews_loop w 0 items st = updateNews_loop w k (x :: l2) before).
  { unfold before. rewrite Hfirst. rewrite Hitems at 1.
    rewrite updateNews_loop_app. now rewrite Hlen. }
  rewrite Hrun. cbn [updateNews_loop]. rewrite Hf. unfold insertNewsItem, insert.
  split; intros Hhas; rewrite Hhas.
  - match goal with |- context [updateNews_loop w (S k) l2 ?s] =>
      destruct (updateNews_loop_appends w l2 (S k) s) as (added & -> & _) end.
    cbn [db rows]. apply in_or_app. left. apply in_or_app. right. now left.
  - match goal with |- context [updateNews_loop w (S k) l2 ?s] =>
      destruct (updateNews_loop_log w l2 (S k) s) as (more & ->) end.
    cbn [log]. apply in_or_app. left. apply in_or_app. right. now left.
Qed.

(** C10 (as the code has it). An item node whose raw link is empty does
    not fail: whenever the source URL parses, the empty link resolves
    against it to the source URL as [net/url] writes it back, the source
    URL itself when it is a page address written plainly, and the item is
    produced with that link.  It is stored under the link only when no row
    has the link at its INSERT: the first such item of a page whose link
    is new to the table gets its row, and an item that follows another
    with an empty link on the page is refused by the UNIQUE constraint and
    logged, the table holding one row for the link. *)
Theorem empty_link_is_the_page (w : World) (rule : ParsingRule) (st : State)
    (doc node : html.Node) (b : url.URL) (k : nat) :
  url.Parse (URL rule) = OK b ->
  LoadURL w (URL rule) = OK doc ->
  nth_error (Find doc (NewsNodesXPathExpr rule)) k = Some node ->
  linkOf rule node = "" ->
  (forall n, In n (Find doc (NewsNodesXPathExpr rule)) ->
             linkOf rule n <> "" -> normalizes rule n = true) ->
  (forall i, faults w i = None) ->
  exists page : string,
    convertToAbsURL (URL rule) "" = OK page
    /\ (exists items lg,
          loadNewsList (LoadURL w) rule = (OK (Some items), lg)
          /\ nth_error items k = Some (mkNewsItem page (titleOf rule node)))
    /\ hasLink page (db (updateNews w rule st)) = true
    /\ (hasLink page (db st) = false ->
        (forall j n, j < k -> nth_error (Find doc (NewsNodesXPathExpr rule)) j = Some n ->
                     absLink rule n <> page) ->
        exists id, In (mkRow id page (titleOf rule node) (now w k))
                      (rows (db (updateNews w rule st))))
    /\ (forall j n, j < k -> nth_error (Find doc (NewsNodesXPathExpr rule)) j = Some n ->
                    linkOf rule n = "" ->
                    In (LogPrintln (InsertError page (titleOf rule node)
                                      (UniqueConstraint "news.link")))
                       (log (updateNews w rule st))
                    /\ (NoDup (map link (rows (db st))) ->
                        length (filter (fun r => String.eqb (link r) page)
                                       (rows (db (updateNews w rule st)))) = 1))
    /\ (forall scheme host path : string,
          URL rule = pageAddress scheme host path ->
          scheme = "http" \/ scheme = "https" ->
          plainHost host = true -> plainPath path = true ->
          page = URL rule).
Proof.
  intros Hb Hdoc Hk Hlink Hothers Hfaults.
  pose proof (convertToAbsURL_empty _ _ Hb) as Hconv.
  match type of Hconv with _ = OK ?p => set (page := p) in * end.
  exists page. split; [exact Hconv|].
  set (nodes := Find doc (NewsNodesXPathExpr rule)) in *.
  assert (Hin : In node nodes) by (eapply nth_error_In; exact Hk).
  assert (Hall : Forall (fun n => normalizes rule n = true) nodes).
  { apply Forall_forall. intros n Hn.
    destruct (string_dec (linkOf rule n) "") as [E|E]; [|now apply Hothers].
    unfold normalizes. now rewrite E, Hconv. }
  destruct (loop_all_normalized rule _ Hall None []) as (items' & Heq & Hel & Hnn).
  destruct items' as [items|].
  2:{ exfalso. apply Hnn; [|reflexivity]. intros E. rewrite E in Hin. inversion Hin. }
  cbn [elems app] in Hel. subst items.
  assert (Hempty : forall n, linkOf rule n = "" -> Link (itemOfNode rule n) = page).
  { intros n E. unfold itemOfNode, absLink. cbn [Link]. now rewrite E, Hconv. }
  assert (Hitem : itemOfNode rule node = mkNewsItem page (titleOf rule node)).
  { unfold itemOfNode, absLink. now rewrite Hlink, Hconv. }
  assert (Hnth : nth_error (map (itemOfNode rule) nodes) k
                 = Some (mkNewsItem page (titleOf rule node))).
  { rewrite nth_error_map, Hk. cbn [option_map]. now rewrite Hitem. }
  assert (Hload : loadNewsList (LoadURL w) rule
                  = (OK (Some (map (itemOfNode rule) nodes)),
                     [] ++ flat_map (logsOf rule) nodes)).
  { unfold loadNewsList. rewrite Hdoc. exact Heq. }
  split; [eexists; eexists; split; [exact Hload | exact Hnth]|].
  unfold updateNews. rewrite Hload. cbn [elems].
  set (st0 := mkState (db st) (log st ++ [] ++ flat_map (logsOf rule) nodes) (status st)).
  destruct (updateNews_loop_nth w _ k _ st0 Hnth (Hfaults k)) as [Hfresh Hdup].
  cbn [Link Title] in Hfresh, Hdup.
  split; [|split; [|split]].
  - apply (updateNews_loop_stores w _ (mkNewsItem page (titleOf rule node)) Hfaults).
    eapply nth_error_In. exact Hnth.
  - intros Hnew Hfirst. eexists. apply Hfresh.
    destruct (hasLink page (db (updateNews_loop w 0 (firstn k (map (itemOfNode rule) nodes))
                                  st0))) eqn:E; [|reflexivity].
    exfalso. apply updateNews_loop_links in E. cbn [db st0] in E.
    destruct E as [E|(x & Hx & Hl)]; [congruence|].
    apply In_nth_error in Hx as [j Hj].
    assert (Hjk : j < k).
    { assert (Hlt : j < length (firstn k (map (itemOfNode rule) nodes)))
        by (apply nth_error_Some; congruence).
      rewrite length_firstn in Hlt. lia. }
    rewrite nth_error_firstn in Hj. apply Nat.ltb_lt in Hjk as Hjb. rewrite Hjb in Hj.
    rewrite nth_error_map in Hj. destruct (nth_error nodes j) as [n|] eqn:En; [|discriminate].
    injection Hj as <-. apply (Hfirst j n Hjk En). exact Hl.
  - intros j n Hjk Hj Hn.
    assert (Hhas : hasLink page (db (updateNews_loop w 0
                                       (firstn k (map (itemOfNode rule) nodes)) st0)) = true).
    { rewrite <- (Hempty n Hn).
      apply (updateNews_loop_stores w _ (itemOfNode rule n) Hfaults).
      apply (nth_error_In _ j). rewrite nth_error_firstn.
      apply Nat.ltb_lt in Hjk as ->. now rewrite nth_error_map, Hj. }
    split; [exact (Hdup Hhas)|]. intros Hnd.
    apply filter_link_unique; [now apply updateNews_loop_unique|].
    apply (updateNews_loop_stores w _ (mkNewsItem page (titleOf rule node)) Hfaults).
    eapply nth_error_In. exact Hnth.
  - intros scheme host path Haddr Hs Hh Hp.
    pose proof (convertToAbsURL_empty_plain scheme host path Hs Hh Hp) as Hplain.
    rewrite <- Haddr in Hplain. rewrite Hconv in Hplain. now injection Hplain.
Qed.

End EmptyLink.

(** ** C7: rule loading *)

Lemma decodeParsingRuleMembers_unknown (ms : list (string * json.value)) (r : ParsingRule) :
  Forall (fun m => ruleMember (fst m) = false) ms ->
  decodeParsingRuleMembers ms r = OK r.
Proof.
  induction 1 as [|[key v] ms Hk _ IH]; [reflexivity|].
  cbn [decodeParsingRuleMembers]. unfold ruleMember in Hk. cbn [fst] in Hk.
  rewrite !orb_false_iff in Hk. destruct Hk as [[[[-> ->] ->] ->] ->]. exact IH.
Qed.

Lemma decodeParsingRuleMembers_app (ms ms' : list (string * json.value)) :
  forall r,
    decodeParsingRuleMembers (ms ++ ms') r
    = match decodeParsingRuleMembers ms r with
      | OK r' => decodeParsingRuleMembers ms' r'
      | Err e => Err e
      end.
Proof.
  induction ms as [|[key v] ms IH]; intros r; [reflexivity|].
  cbn [app decodeParsingRuleMembers].
  repeat match goal with
         | |- context [if ?c then _ else _] => destruct c
         | |- context [decodeUint ?a ?b] => destruct (decodeUint a b); cbn
         | |- context [decodeString ?a ?b] => destruct (decodeString a b); cbn
         | |- context [decodeExtractRule ?a ?b] => destruct (decodeExtractRule a b); cbn
         end; try reflexivity; apply IH.
Qed.

Lemma decodeString_fits (v : json.value) (old : string) :
  match decodeString v old with
  | OK _ => isText v = true
  | Err e => isText v = false /\ isTypeError e
  end.
Proof. destruct v; cbn; try (split; [reflexivity | now eexists; eexists]); reflexivity. Qed.

Lemma decodeUint_fits (v : json.value) (old : N) :
  match decodeUint v old with
  | OK _ => isUint v = true
  | Err e => isUint v = false /\ isTypeError e
  end.
Proof.
  destruct v; cbn; try (split; [reflexivity | now eexists; eexists]); try reflexivity.
  destruct (ParseUint literal); cbn; [reflexivity | split; [reflexivity | now eexists; eexists]].
Qed.

Lemma decodeExtractRuleMembers_fits (ms : list (string * json.value)) :
  forall r,
    match decodeExtractRuleMembers ms r with
    | OK _ => forallb extractMemberFits ms = true
    | Err e => forallb extractMemberFits ms = false /\ isTypeError e
    end.
Proof.
  induction ms as [|[key v] ms IH]; intros r; [reflexivity|].
  cbn [decodeExtractRuleMembers forallb]. unfold extractMemberFits at 1 3. cbn [fst snd].
  destruct (json.matches "expr" key).
  { pose proof (decodeString_fits v (XPathExpr r)) as Hv.
    destruct (decodeString v (XPathExpr r)) as [s|e].
    - rewrite Hv. apply IH.
    - destruct Hv as [-> He]. now split. }
  destruct (json.matches "attr" key).
  { pose proof (decodeString_fits v (Attribute r)) as Hv.
    destruct (decodeString v (Attribute r)) as [s|e].
    - rewrite Hv. apply IH.
    - destruct Hv as [-> He]. now split. }
  apply IH.
Qed.

Lemma decodeExtractRule_fits (v : json.value) (old : ExtractRule) :
  match decodeExtractRule v old with
  | OK _ => isExtractRule v = true
  | Err e => isExtractRule v = false /\ isTypeError e
  end.
Proof.
  destruct v; cbn [decodeExtractRule isExtractRule];
    try (split; [reflexivity | now eexists; eexists]); try reflexivity.
  apply decodeExtractRuleMembers_fits.
Qed.

Lemma decodeParsingRuleMembers_fits (ms : list (string * json.value)) :
  forall r,
    match decodeParsingRuleMembers ms r with
    | OK _ => forallb ruleMemberFits ms = true
    | Err e => forallb ruleMemberFits ms = false /\ isTypeError e
    end.
Proof.
  induction ms as [|[key v] ms IH]; intros r; [reflexivity|].
  cbn [decodeParsingRuleMembers forallb]. unfold ruleMemberFits at 1 3. cbn [fst snd].
  destruct (json.matches "intervalMinutes" key).
  { pose proof (decodeUint_fits v (Interval r)) as Hv.
    destruct (decodeUint v (Interval r)) as [n|e];
      [rewrite Hv; apply IH | destruct Hv as [-> He]; now split]. }
  destruct (json.matches "url" key).
  { pose proof (decodeString_fits v (URL r)) as Hv.
    destruct (decodeString v (URL r)) as [n|e];
      [rewrite Hv; apply IH | destruct Hv as [-> He]; now split]. }
  destruct (json.matches "newsNodesExpr" key).
  { pose proof (decodeString_fits v (NewsNodesXPathExpr r)) as Hv.
    destruct (decodeString v (NewsNodesXPathExpr r)) as [n|e];
      [rewrite Hv; apply IH | destruct Hv as [-> He]; now split]. }
  destruct (json.matches "linkRule" key).
  { pose proof (decodeExtractRule_fits v (LinkRule r)) as Hv.
    destruct (decodeExtractRule v (LinkRule r)) as [n|e];
      [rewrite Hv; apply IH | destruct Hv as [-> He]; now split]. }
  destruct (json.matches "titleRule" key).
  { pose proof (decodeExtractRule_fits v (TitleRule r)) as Hv.
    destruct (decodeExtractRule v (TitleRule r)) as [n|e];
      [rewrite Hv; apply IH | destruct Hv as [-> He]; now split]. }
  apply IH.
Qed.

Lemma decodeRulePointer_fits (v : json.value) :
  match decodeRulePointer v with
  | OK _ => isRule v = true
  | Err e => isRule v = false /\ isTypeError e
  end.
Proof.
  destruct v; cbn [decodeRulePointer isRule];
    try (split; [reflexivity | now eexists; eexists]); try reflexivity.
  pose proof (decodeParsingRuleMembers_fits members zeroRule) as H.
  now destruct (decodeParsingRuleMembers members zeroRule).
Qed.

Lemma decodeRulePointers_fits (vs : list json.value) :
  match decodeRulePointers vs with
  | OK rs =>
      forallb isRule vs = true
      /\ forall v, In v vs -> exists r, decodeRulePointer v = OK r /\ In r rs
  | Err e => forallb isRule vs = false /\ isTypeError e
  end.
Proof.
  induction vs as [|v vs IH]; [split; [reflexivity | intros v []]|].
  cbn [decodeRulePointers forallb].
  pose proof (decodeRulePointer_fits v) as Hv.
  destruct (decodeRulePointer v) as [r|e] eqn:Ev; [|destruct Hv as [-> He]; now split].
  rewrite Hv. destruct (decodeRulePointers vs) as [rs|e]; [|exact IH].
  destruct IH as [-> Hin]. split; [reflexivity|].
  intros v' [<-|Hv']; [exists r; split; [exact Ev | now left]|].
  destruct (Hin v' Hv') as (r' & Hr' & Hin'). exists r'. split; [exact Hr' | now right].
Qed.

Lemma Unmarshal_fits (data : string) (v : json.value) :
  json.parse data = OK v ->
  match Unmarshal data with
  | OK rs =>
      isRuleSet v = true
      /\ forall vs x, v = json.Array vs -> In x vs ->
                      exists r, decodeRulePointer x = OK r /\ In r (elems rs)
  | Err e => isRuleSet v = false /\ isTypeError e
  end.
Proof.
  intros Hp. unfold Unmarshal. rewrite Hp.
  destruct v; cbn [isRuleSet];
    try (split; [reflexivity | eexists; eexists; reflexivity]).
  - split; [reflexivity|]. intros vs x H. discriminate H.
  - pose proof (decodeRulePointers_fits elements) as H.
    destruct (decodeRulePointers elements) as [rs|e]; [|exact H].
    destruct H as [-> Hin]. split; [reflexivity|].
    intros vs x Hv. injection Hv as <-. cbn [elems]. apply Hin.
Qed.

Lemma parse_error (data : string) (e : error) : json.parse data = Err e -> e = SyntaxError.
Proof.
  unfold json.parse. destruct (json.scanValue _ data) as [[v rest]|].
  - destruct (url.isEmpty (json.skipSpace rest)); [discriminate | now intros [= <-]].
  - now intros [= <-].
Qed.

Lemma forallb_false_In {A} (f : A -> bool) (l : list A) (x : A) :
  In x l -> f x = false -> forallb f l = false.
Proof.
  intros Hin Hx. destruct (forallb f l) eqn:E; [|reflexivity].
  rewrite forallb_forall in E. rewrite (E x Hin) in Hx. discriminate.
Qed.

(** C7 (as the code has it). [Start] fails with the read error when
    [rules.json] cannot be read, with the syntax error when its content is
    not JSON, and with a type error when the JSON is not of the expected
    shape, as when a rule's [url] or [newsNodesExpr] is not a string or
    its [intervalMinutes] not an unsigned integer; every text of that
    shape is loaded as it is and the process starts with it, a rule with a
    zero [intervalMinutes] included. *)
Theorem rule_loading_outcomes (env : Env) :
  (forall e, rulesFile env = Err e -> Start env = Err e)
  /\ (forall data,
        rulesFile env = OK data -> is_ok (json.parse data) = false ->
        Start env = Err (RulesError SyntaxError))
  /\ (forall data v,
        rulesFile env = OK data -> json.parse data = OK v -> isRuleSet v = false ->
        exists value type,
          Start env = Err (RulesError (UnmarshalTypeError value type)))
  /\ (forall data vs ms field v,
        rulesFile env = OK data -> json.parse data = OK (json.Array vs) ->
        In (json.Object ms) vs -> In (field, v) ms ->
        (field = "url" \/ field = "newsNodesExpr") /\ isText v = false
        \/ field = "intervalMinutes" /\ isUint v = false ->
        exists value type,
          Start env = Err (RulesError (UnmarshalTypeError value type)))
  /\ (forall data v,
        rulesFile env = OK data -> json.parse data = OK v -> isRuleSet v = true ->
        exists parsingRules,
          readParsingRules (rulesFile env) = OK parsingRules
          /\ (dbFault env = None -> listenFault env = None ->
              exists sys,
                Start env = OK sys /\ rules sys = elems parsingRules
                /\ status (state sys) = Running
                /\ forall vs ms,
                     v = json.Array vs ->
                     In (json.Object (ms ++ [("intervalMinutes", json.Number "0")])) vs ->
                     exists rule, In (Some rule) (rules sys) /\ Interval rule = 0%N))
  /\ Unmarshal "[{" = Err SyntaxError
  /\ Unmarshal "{}" = Err (UnmarshalTypeError "object" "[]*main.ParsingRule")
  /\ Unmarshal (Sample.rulesText "1.5") = Err (UnmarshalTypeError "number 1.5" "uint")
  /\ Unmarshal (Sample.rulesText (Sample.quoted "10"))
     = Err (UnmarshalTypeError "string" "uint")
  /\ Unmarshal (Sample.rulesText "0") = OK (Some [Some (Sample.ruleEvery 0%N)]).
Proof.
  assert (Hrefused : forall data v,
             rulesFile env = OK data -> json.parse data = OK v -> isRuleSet v = false ->
             exists value type,
               Start env = Err (RulesError (UnmarshalTypeError value type))).
  { intros data v Hf Hp Hshape. pose proof (Unmarshal_fits data v Hp) as H.
    unfold Start, readParsingRules. rewrite Hf.
    destruct (Unmarshal data) as [rs|e]; [destruct H as [H _]; congruence|].
    destruct H as [_ (value & type & ->)]. now exists value, type. }
  split; [|split; [|split; [|split; [|split]]]].
  - intros e He. unfold Start, readParsingRules. now rewrite He.
  - intros data Hf Hp. unfold Start, readParsingRules, Unmarshal. rewrite Hf.
    destruct (json.parse data) as [v|e] eqn:E; [discriminate|].
    now rewrite (parse_error _ _ E).
  - exact Hrefused.
  - intros data vs ms field v Hf Hp Hobj Hmem Hbad.
    apply (Hrefused data (json.Array vs) Hf Hp). cbn [isRuleSet].
    apply (forallb_false_In _ _ _ Hobj). cbn [isRule].
    apply (forallb_false_In _ _ _ Hmem).
    destruct Hbad as [[[-> | ->] Hv] | [-> Hv]]; exact Hv.
  - intros data v Hf Hp Hshape. pose proof (Unmarshal_fits data v Hp) as H.
    unfold Start, readParsingRules. rewrite Hf.
    destruct (Unmarshal data) as [rs|e]; [|destruct H as [H _]; congruence].
    destruct H as [_ Hin]. exists rs. split; [reflexivity|].
    intros -> ->. cbn [openDatabase]. eexists. split; [reflexivity|].
    cbn [rules state status]. split; [reflexivity|]. split; [reflexivity|].
    intros vs ms Hv Hzero. destruct (Hin vs _ Hv Hzero) as (r & Hr & Hrs).
    cbn [decodeRulePointer] in Hr. rewrite decodeParsingRuleMembers_app in Hr.
    destruct (decodeParsingRuleMembers ms zeroRule) as [r0|]; [|discriminate].
    cbn in Hr. injection Hr as <-. eexists. split; [exact Hrs | reflexivity].
  - repeat split; vm_compute; reflexivity.
Qed.

(** * Further properties of the code *)

(** ** The cycle and the table *)

Section CycleAndTable.
Import htmlquery.
Context {engine : XPath}.

Lemma step_unique (sys : System) (ev : Event) :
  NoDup (map link (rows (db (state sys)))) ->
  NoDup (map link (rows (db (state (step sys ev))))).
Proof.
  intros H. unfold step. destruct (running (state sys)); cbn [negb]; [|exact H].
  destruct ev as [i w|i w].
  - destruct (nth_error (tasks sys) i) as [[|]|]; try exact H.
    destruct (nth_error (rules sys) i) as [rule|]; [|exact H]. cbn [state].
    unfold updateNewsPeriodically_enter. destruct rule as [r|]; [|exact H].
    pose proof (updateNews_unique w r (state sys) H) as Hu.
    now destruct (running (updateNews w r (state sys)) && (tickerPeriod r <=? 0)%Z).
  - destruct (nth_error (tasks sys) i) as [[|]|]; try exact H.
    destruct (nth_error (rules sys) i) as [[r|]|]; try exact H.
    now apply updateNews_unique.
Qed.

(** X1. No two rows of the table ever share a link: every event of every
    task keeps the links unique, whatever the network serves and whichever
    statements the engine fails. *)
Theorem run_keeps_links_unique (events : list Event) (sys : System) :
  NoDup (map link (rows (db (state sys)))) ->
  NoDup (map link (rows (db (state (run sys events))))).
Proof.
  unfold run. revert sys. induction events as [|ev events IH]; intros sys H; [exact H|].
  cbn [fold_left]. apply IH. now apply step_unique.
Qed.

Lemma updateNews_status (w : World) (rule : ParsingRule) (st : State) :
  status (updateNews w rule st)
  = match fst (loadNewsList (LoadURL w) rule) with
    | OK _ => status st
    | Err _ => Exited 1
    end.
Proof.
  unfold updateNews. destruct (loadNewsList (LoadURL w) rule) as [[items|e] lg]; cbn [fst];
    [now rewrite updateNews_loop_status | reflexivity].
Qed.

(** X2. A cycle only appends to the table: the rows that were there stay
    as they are, in place, and every row it adds is one of the items the
    cycle loaded, with the second the engine read at that item's INSERT.
    After a fetch that succeeded the process runs on as before, whatever
    the inserts did; after one that failed it has exited. *)
Theorem updateNews_only_appends (w : World) (rule : ParsingRule) (st : State) :
  (exists added,
      rows (db (updateNews w rule st)) = rows (db st) ++ added
      /\ Forall (fun r => exists k x items,
                    fst (loadNewsList (LoadURL w) rule) = OK items
                    /\ nth_error (elems items) k = Some x
                    /\ link r = Link x /\ title r = Title x
                    /\ timestamp r = now w k) added)
  /\ status (updateNews w rule st)
     = match fst (loadNewsList (LoadURL w) rule) with
       | OK _ => status st
       | Err _ => Exited 1
       end.
Proof.
  split; [|apply updateNews_status].
  unfold updateNews. destruct (loadNewsList (LoadURL w) rule) as [[items|e] lg].
  - match goal with |- context [updateNews_loop w 0 ?l ?s] =>
      destruct (updateNews_loop_appends w l 0 s) as (added & H1 & H2) end.
    exists added. split; [exact H1|]. eapply Forall_impl; [|exact H2].
    intros r (k & x & Hk & Hrest). exists k, x, items. now split.
  - exists []. cbn [db]. split; [now rewrite app_nil_r | constructor].
Qed.

Lemma updateNews_loop_keeps_any (w : World) (items : list NewsItem) (k : string) :
  forall i st, hasLink k (db st) = true ->
               hasLink k (db (updateNews_loop w i items st)) = true.
Proof.
  induction items as [|x items IH]; intros i st H; cbn [updateNews_loop]; [exact H|].
  pose proof (insertNewsItem_keeps_any (db st) (faults w i) (now w i) x k H) as Hk.
  destruct (insertNewsItem (db st) (faults w i) (now w i) x) as [err d']. now apply IH.
Qed.

Lemma updateNews_loop_stores_nth (w : World) (items : list NewsItem) (x : NewsItem) :
  forall k i st, nth_error items k = Some x -> faults w (i + k) = None ->
                 hasLink (Link x) (db (updateNews_loop w i items st)) = true.
Proof.
  induction items as [|y items IH]; intros k i st Hk Hf; [now destruct k|].
  cbn [updateNews_loop]. destruct k as [|k]; cbn [nth_error] in Hk.
  - injection Hk as ->. rewrite Nat.add_0_r in Hf. rewrite Hf.
    pose proof (insertNewsItem_stores (db st) (now w i) x) as Hs.
    destruct (insertNewsItem (db st) None (now w i) x) as [err d'].
    now apply updateNews_loop_keeps_any.
  - destruct (insertNewsItem (db st) (faults w i) (now w i) y) as [err d'].
    apply (IH k (S i)); [exact Hk|]. now rewrite Nat.add_succ_l, <- Nat.add_succ_r.
Qed.

Lemma updateNews_stores_each_item_aux (w : World) (rule : ParsingRule) (st : State)
    (items : slice NewsItem) (lg : list LogEntry) (k : nat) (x : NewsItem) :
  loadNewsList (LoadURL w) rule = (OK items, lg) ->
  nth_error (elems items) k = Some x ->
  faults w k = None ->
  hasLink (Link x) (db (updateNews w rule st)) = true.
Proof.
  intros Hload Hk Hf. unfold updateNews. rewrite Hload.
  now apply (updateNews_loop_stores_nth w _ x k 0).
Qed.

(** X3. No insert stops the loop of a cycle: when the fetch succeeded,
    the link of every item whose own INSERT the engine did not fail is in
    the table after the cycle, also when inserts before it failed. *)
Theorem updateNews_stores_each_item (w : World) (rule : ParsingRule) (st : State)
    (items : slice NewsItem) (lg : list LogEntry) (k : nat) (x : NewsItem) :
  loadNewsList (LoadURL w) rule = (OK items, lg) ->
  nth_error (elems items) k = Some x ->
  faults w k = None ->
  hasLink (Link x) (db (updateNews w rule st)) = true.
Proof.
  exact (updateNews_stores_each_item_aux w rule st items lg k x).
Qed.

Lemma updateNews_loop_known (w : World) (items : list NewsItem) :
  forall i st, Forall (fun x => hasLink (Link x) (db st) = true) items ->
               db (updateNews_loop w i items st) = db st.
Proof.
  induction items as [|x items IH]; intros i st H; cbn [updateNews_loop]; [reflexivity|].
  inversion H as [|? ? Hx Hrest]; subst.
  destruct (insertNewsItem_appends (db st) (faults w i) (now w i) x) as [E|(_ & Hfresh & _)];
    [|congruence].
  destruct (insertNewsItem (db st) (faults w i) (now w i) x) as [err d']. cbn [snd] in E.
  subst d'. now rewrite IH.
Qed.

Lemma updateNews_loop_known_log (w : World) (items : list NewsItem) :
  (forall i, faults w i = None) ->
  forall i st, Forall (fun x => hasLink (Link x) (db st) = true) items ->
               log (updateNews_loop w i items st)
               = log st ++ map (fun x => LogPrintln (InsertError (Link x) (Title x)
                                                      (UniqueConstraint "news.link")))
                               items.
Proof.
  intros Hf. induction items as [|x items IH]; intros i st H; cbn [updateNews_loop map].
  - now rewrite app_nil_r.
  - inversion H as [|? ? Hx Hrest]; subst. rewrite Hf.
    unfold insertNewsItem. rewrite (insert_duplicate _ _ _ _ Hx).
    rewrite IH by exact Hrest. cbn [log]. now rewrite <- app_assoc.
Qed.

(** X4. Scraping the same page again stores nothing: when a cycle with a
    working engine is followed by a cycle that extracts the same items,
    the second leaves the table exactly as the first left it, and logs one
    failed insert (the UNIQUE constraint) for every item. *)
Theorem second_cycle_changes_nothing (w1 w2 : World) (rule : ParsingRule) (st : State)
    (items : slice NewsItem) (lg1 lg2 : list LogEntry) :
  loadNewsList (LoadURL w1) rule = (OK items, lg1) ->
  loadNewsList (LoadURL w2) rule = (OK items, lg2) ->
  (forall i, faults w1 i = None) ->
  (forall i, faults w2 i = None) ->
  db (updateNews w2 rule (updateNews w1 rule st)) = db (updateNews w1 rule st)
  /\ log (updateNews w2 rule (updateNews w1 rule st))
     = log (updateNews w1 rule st) ++ lg2
       ++ map (fun x => LogPrintln (InsertError (Link x) (Title x)
                                      (UniqueConstraint "news.link")))
              (elems items).
Proof.
  intros H1 H2 Hf1 Hf2.
  assert (Hall : Forall (fun x => hasLink (Link x) (db (updateNews w1 rule st)) = true)
                        (elems items)).
  { apply Forall_forall. intros x Hx. apply In_nth_error in Hx as [k Hk].
    apply (updateNews_stores_each_item_aux w1 rule st items lg1 k x H1 Hk (Hf1 k)). }
  remember (updateNews w1 rule st) as st1 eqn:E. clear E.
  unfold updateNews. rewrite H2. split.
  - now rewrite updateNews_loop_known.
  - rewrite updateNews_loop_known_log; [|exact Hf2|exact Hall]. cbn [log].
    now rewrite <- app_assoc.
Qed.

(** X5. What [loadNewsList] returns for a page that was fetched: when
    every raw link can be made absolute, one item per item node, in
    document order, with the diagnostics of the nodes ([nil], not an empty
    slice, when the page has no item node); otherwise the conversion error,
    and some node has a link that cannot be made absolute. *)
Theorem loadNewsList_outcome (load : string -> result html.Node) (rule : ParsingRule)
    (doc : html.Node) :
  load (URL rule) = OK doc ->
  match loadNewsList load rule with
  | (OK items, lg) =>
      Forall (fun n => normalizes rule n = true) (Find doc (NewsNodesXPathExpr rule))
      /\ elems items = map (itemOfNode rule) (Find doc (NewsNodesXPathExpr rule))
      /\ (items = None <-> Find doc (NewsNodesXPathExpr rule) = [])
      /\ lg = flat_map (logsOf rule) (Find doc (NewsNodesXPathExpr rule))
  | (Err e, _) =>
      Exists (fun n => normalizes rule n = false) (Find doc (NewsNodesXPathExpr rule))
      /\ exists cause, e = ConvertError "" (URL rule) cause
  end.
Proof.
  intros Hdoc. unfold loadNewsList. rewrite Hdoc.
  set (nodes := Find doc (NewsNodesXPathExpr rule)).
  destruct (Forall_Exists_dec (fun n => normalizes rule n = true)
              (fun n => bool_dec (normalizes rule n) true) nodes) as [Hall|Hex].
  - destruct (loop_all_normalized rule nodes Hall None []) as (items' & Heq & Hel & Hnn).
    rewrite Heq. cbn [app]. repeat split; try assumption.
    + intros ->. destruct nodes as [|n nodes']; [reflexivity|].
      exfalso. now apply Hnn.
    + intros E. rewrite E in Heq. cbn in Heq. congruence.
  - assert (Hbad : Exists (fun n => normalizes rule n = false) nodes).
    { apply Exists_exists. apply Exists_exists in Hex as (n & Hin & Hn).
      exists n. split; [exact Hin|]. now destruct (normalizes rule n). }
    destruct (loop_bad_link rule nodes Hbad None []) as (e & lg' & Heq).
    rewrite Heq. split; [exact Hbad | now exists e].
Qed.

Lemma lookupAttr_absent (attrs : list html.Attribute) (name : string) :
  Forall (fun a => html.Key a <> name) attrs -> lookupAttr attrs name = "".
Proof.
  induction 1 as [|a attrs Ha Hall IH]; cbn [lookupAttr]; [reflexivity|].
  destruct (String.eqb_spec (html.Key a) name); [contradiction | exact IH].
Qed.

(** X6. A matched node that does not carry the attribute the rule names
    gives the empty string and the diagnostic, exactly as when nothing
    matches; and the diagnostic is logged if and only if the extracted
    string is empty. *)
Theorem extractEntity_missing_attribute (parentNode node : html.Node) (rule : ExtractRule) :
  FindOne parentNode (XPathExpr rule) = Some node ->
  Attribute rule <> "" ->
  html.orphan node = false ->
  Forall (fun a => html.Key a <> Attribute rule) (html.Attr node) ->
  extractEntity parentNode rule = ("", [LogEmptyResult rule])
  /\ forall (p : html.Node) (r : ExtractRule),
       snd (extractEntity p r) = [LogEmptyResult r] /\ fst (extractEntity p r) = ""
       \/ snd (extractEntity p r) = [] /\ fst (extractEntity p r) <> "".
Proof.
  intros Hfind Hattr Horphan Hkeys. split.
  - unfold extractEntity. rewrite Hfind.
    assert (E : url.isEmpty (Attribute rule) = false) by now destruct (Attribute rule).
    rewrite E. cbn [negb]. unfold SelectAttr. rewrite Horphan, andb_false_r. cbn [andb].
    now rewrite (lookupAttr_absent _ _ Hkeys).
  - intros p r. unfold extractEntity. cbn [fst snd].
    match goal with |- context [url.isEmpty ?s] => destruct s eqn:E end; cbn [url.isEmpty].
    + now left.
    + right. split; [reflexivity | discriminate].
Qed.

End CycleAndTable.

(** ** The ticker *)

Section Ticker.
Import htmlquery.
Context {engine : XPath}.

Lemma wrap64_small (z : Z) : (- 2 ^ 63 <= z < 2 ^ 63)%Z -> wrap64 z = z.
Proof. intros H. unfold wrap64. rewrite Z.mod_small; lia. Qed.

Lemma wrap64_high (z : Z) : (2 ^ 63 <= z < 2 ^ 64)%Z -> wrap64 z = (z - 2 ^ 64)%Z.
Proof.
  intros H. unfold wrap64.
  replace (z + 2 ^ 63)%Z with ((z - 2 ^ 63) + 1 * 2 ^ 64)%Z by lia.
  rewrite Z.mod_add by lia. rewrite Z.mod_small; lia.
Qed.

Lemma tickerPeriod_cases (rule : ParsingRule) :
  ((1 <= Interval rule <= 153722867)%N ->
   tickerPeriod rule = (Z.of_N (Interval rule) * 60000000000)%Z)
  /\ (Interval rule = 0%N -> tickerPeriod rule = 0%Z)
  /\ ((153722868 <= Interval rule <= 307445734)%N ->
      tickerPeriod rule = (Z.of_N (Interval rule) * 60000000000 - 2 ^ 64)%Z).
Proof.
  unfold tickerPeriod, Minute. repeat split.
  - intros H. rewrite (wrap64_small (Z.of_N (Interval rule))) by lia.
    apply wrap64_small. lia.
  - intros ->. reflexivity.
  - intros H. rewrite (wrap64_small (Z.of_N (Interval rule))) by lia.
    apply wrap64_high. lia.
Qed.

(** X7. The ticker of a task: for an interval of 1 to 153722867 minutes
    the period is that many minutes in nanoseconds and the task goes on to
    wait for ticks after a first cycle that fetched its page; for an
    interval of zero, and for 153722868 to 307445734 minutes, whose
    nanoseconds overflow to a negative period, [time.NewTicker] panics
    after that first cycle and the process is gone. *)
Theorem ticker_creation_bounds (w : World) (rule : ParsingRule) (st : State) :
  running st = true ->
  is_ok (fst (loadNewsList (LoadURL w) rule)) = true ->
  ((1 <= Interval rule <= 153722867)%N ->
   (tickerPeriod rule = Z.of_N (Interval rule) * 60000000000)%Z
   /\ updateNewsPeriodically_enter w (Some rule) st = updateNews w rule st
   /\ status (updateNewsPeriodically_enter w (Some rule) st) = Running)
  /\ ((Interval rule = 0 \/ 153722868 <= Interval rule <= 307445734)%N ->
      (tickerPeriod rule <= 0)%Z
      /\ status (updateNewsPeriodically_enter w (Some rule) st)
         = Panicked "non-positive interval for NewTicker"
      /\ db (updateNewsPeriodically_enter w (Some rule) st) = db (updateNews w rule st)).
Proof.
  intros Hrun Hok.
  assert (Hst : running (updateNews w rule st) = true).
  { unfold running in *. rewrite updateNews_status.
    destruct (fst (loadNewsList (LoadURL w) rule)); [exact Hrun | discriminate]. }
  destruct (tickerPeriod_cases rule) as (Hin & Hzero & Hover).
  unfold updateNewsPeriodically_enter. rewrite Hst. cbn [andb]. split.
  - intros H. specialize (Hin H).
    assert (E : (tickerPeriod rule <=? 0)%Z = false) by (apply Z.leb_gt; lia).
    rewrite E. repeat split; [exact Hin|].
    unfold running in Hst. now destruct (status (updateNews w rule st)).
  - intros H.
    assert (Hle : (tickerPeriod rule <= 0)%Z).
    { destruct H as [H|H]; [rewrite (Hzero H); lia | rewrite (Hover H); lia]. }
    assert (E : (tickerPeriod rule <=? 0)%Z = true) by now apply Z.leb_le.
    rewrite E. repeat split. exact Hle.
Qed.

Lemma tickerLoop_running (rule : ParsingRule) (ticks : list World) :
  Forall (fun w => is_ok (fst (loadNewsList (LoadURL w) rule)) = true) ticks ->
  forall st, running st = true -> running (tickerLoop rule ticks st) = true.
Proof.
  induction 1 as [|w ticks Hw Hall IH]; intros st Hrun; cbn [tickerLoop]; [exact Hrun|].
  rewrite Hrun. apply IH. unfold running in *. rewrite updateNews_status.
  destruct (fst (loadNewsList (LoadURL w) rule)); [exact Hrun | discriminate].
Qed.

(** X8. A task never stops by itself: with an interval of 1 to 153722867
    minutes, as long as every cycle fetches its page and can make its
    links absolute, the process is still running after the first cycle and
    any number of ticks, whatever the inserts return. *)
Theorem task_runs_while_cycles_load (rule : ParsingRule) (first : World)
    (ticks : list World) (st : State) :
  running st = true ->
  (1 <= Interval rule <= 153722867)%N ->
  Forall (fun w => is_ok (fst (loadNewsList (LoadURL w) rule)) = true) (first :: ticks) ->
  status (updateNewsPeriodically (Some rule) first ticks st) = Running.
Proof.
  intros Hrun Hint Hall. inversion Hall as [|? ? Hfirst Hticks]; subst.
  assert (Hst : running (updateNews first rule st) = true).
  { unfold running in *. rewrite updateNews_status.
    destruct (fst (loadNewsList (LoadURL first) rule)); [exact Hrun | discriminate]. }
  assert (Henter : updateNewsPeriodically_enter first (Some rule) st = updateNews first rule st).
  { destruct (tickerPeriod_cases rule) as (Hin & _). specialize (Hin Hint).
    unfold updateNewsPeriodically_enter.
    assert (E : (tickerPeriod rule <=? 0)%Z = false) by (apply Z.leb_gt; lia).
    now rewrite E, andb_false_r. }
  unfold updateNewsPeriodically. rewrite Henter.
  pose proof (tickerLoop_running rule ticks Hticks _ Hst) as H.
  unfold running in H. now destruct (status (tickerLoop rule ticks (updateNews first rule st))).
Qed.

End Ticker.

(** ** Inserting and searching *)

Lemma occursIn_trans (a b c : string) : occursIn a b -> occursIn b c -> occursIn a c.
Proof.
  intros (p1 & q1 & ->) (p2 & q2 & ->). exists (p2 +++ p1), (q1 +++ q2).
  now rewrite !append_assoc.
Qed.

(** The rows a search for [term] selects, before they are ordered. *)
Lemma getNews_items (d : DB) (term : string) (x : NewsItem) :
  (exists items, getNews d None term = OK (Some items) /\ In x items)
  <-> exists r, In r (rows d) /\ occursAtCharacter term (title r) /\ itemOf r = x.
Proof.
  rewrite getNews_rows. split.
  - intros (items & H & Hin). injection H as <-.
    apply in_map_iff in Hin as (r & Hr & Hin).
    apply (Permutation_in _ (orderBy_perm _)) in Hin. exists r.
    destruct term as [|c term]; cbn [url.isEmpty negb] in Hin.
    + split; [exact Hin|]. split; [apply occursAtCharacter_empty | exact Hr].
    + apply filter_In in Hin as [Hin Hm]. split; [exact Hin|].
      split; [now apply instr_nonzero_iff | exact Hr].
  - intros (r & Hin & Hoc & Hr). eexists. split; [reflexivity|].
    apply in_map_iff. exists r. split; [exact Hr|].
    apply (Permutation_in _ (Permutation_sym (orderBy_perm _))).
    destruct term as [|c term]; cbn [url.isEmpty negb]; [exact Hin|].
    apply filter_In. split; [exact Hin | now apply instr_nonzero_iff].
Qed.

Lemma filter_length_le {A} (f g : A -> bool) (l : list A) :
  (forall a, f a = true -> g a = true) ->
  length (filter f l) <= length (filter g l).
Proof.
  intros Hfg. induction l as [|a l IH]; cbn [filter]; [constructor|].
  destruct (f a) eqn:Ef.
  - rewrite (Hfg a Ef). cbn [length]. lia.
  - destruct (g a); cbn [length]; lia.
Qed.

Lemma getNews_length (d : DB) (term : string) :
  exists items,
    getNews d None term = OK (Some items)
    /\ length items
       = length (filter (fun r => url.isEmpty term || negb (instr (title r) term =? 0))
                        (rows d)).
Proof.
  rewrite getNews_rows. eexists. split; [reflexivity|].
  rewrite length_map, (Permutation_length (orderBy_perm _)).
  destruct term as [|c term]; cbn [url.isEmpty negb orb]; [|reflexivity].
  induction (rows d) as [|r l IH]; cbn [filter length]; [reflexivity | now rewrite <- IH].
Qed.

(** X10. Narrowing the term narrows the result: when a term that does not
    start with a continuation byte occurs in a longer one, every item the
    longer term finds is found by it too, and it finds at least as many;
    the empty term finds everything any term finds. *)
Theorem longer_term_finds_less (d : DB) (short long : string) :
  occursIn short long ->
  startsCharacter short = true ->
  exists found_short found_long,
    getNews d None short = OK (Some found_short)
    /\ getNews d None long = OK (Some found_long)
    /\ incl found_long found_short
    /\ length found_long <= length found_short.
Proof.
  intros Hoc Hstart.
  assert (Himp : forall t, occursAtCharacter long t -> occursAtCharacter short t).
  { intros t (pre & post & H & _). apply (occursAtCharacter_iff _ _ Hstart).
    apply (occursIn_trans short long); [exact Hoc | now exists pre, post]. }
  destruct (getNews_length d short) as (l1 & H1 & Hl1).
  destruct (getNews_length d long) as (l2 & H2 & Hl2).
  exists l1, l2. split; [exact H1|]. split; [exact H2|]. split.
  - intros x Hx.
    assert (Hlong : exists items, getNews d None long = OK (Some items) /\ In x items)
      by (exists l2; now split).
    apply getNews_items in Hlong as (r & Hin & Hocc & Hr).
    assert (Hshort : exists items, getNews d None short = OK (Some items) /\ In x items).
    { apply getNews_items. exists r. split; [exact Hin|].
      split; [now apply Himp | exact Hr]. }
    destruct Hshort as (items & Hs & Hi). rewrite H1 in Hs. now injection Hs as <-.
  - rewrite Hl1, Hl2. apply filter_length_le. intros r.
    rewrite !orb_true_iff. intros [He|Hm].
    + destruct long; [|discriminate]. destruct Hoc as (p & q & E).
      destruct p; [|discriminate]. destruct short; [now left | discriminate].
    + right. apply instr_nonzero_iff. apply instr_nonzero_iff in Hm.
      now apply Himp.
Qed.

Lemma orderBy_newest_last (l : list Row) (r : Row) :
  Forall (fun x => timestamp x < timestamp r) l ->
  orderByTimestampDesc (l ++ [r]) = r :: orderByTimestampDesc l.
Proof.
  unfold orderByTimestampDesc. induction 1 as [|x l Hx Hall IH]; [reflexivity|].
  cbn [app fold_right]. rewrite IH. cbn [insertDesc].
  assert (E : (timestamp r <=? timestamp x) = false) by (apply Nat.leb_gt; lia).
  now rewrite E.
Qed.

(** X11. The newest item comes first: after an item with a new link is
    inserted at a time later than every timestamp in the table, the full
    listing is that item followed by the listing as it was. *)
Theorem newest_item_is_listed_first (d : DB) (x : NewsItem) (t : nat) :
  hasLink (Link x) d = false ->
  Forall (fun r => timestamp r < t) (rows d) ->
  exists before,
    getNews d None "" = OK (Some before)
    /\ fst (insertNewsItem d None t x) = None
    /\ getNews (snd (insertNewsItem d None t x)) None "" = OK (Some (x :: before)).
Proof.
  intros Hfresh Hold. rewrite !getNews_rows. cbn [url.isEmpty negb].
  unfold insertNewsItem. rewrite (insert_fresh _ _ _ _ Hfresh). cbn [fst snd rows].
  eexists. split; [reflexivity|]. split; [reflexivity|].
  rewrite orderBy_newest_last by exact Hold. cbn [map itemOf link title].
  now destruct x.
Qed.

(** X12. What is inserted can be found, and not before: when an insert
    succeeds, no search of the table before it returns an item with that
    link, and every search of the table after it whose term occurs in the
    title and does not start with a continuation byte (the empty term
    among them) returns the item. *)
Theorem inserted_item_is_found (d : DB) (fault : option error) (t : nat)
    (x : NewsItem) (term : string) :
  fst (insertNewsItem d fault t x) = None ->
  occursIn term (Title x) ->
  startsCharacter term = true ->
  (exists items,
      getNews (snd (insertNewsItem d fault t x)) None term = OK (Some items)
      /\ In x items)
  /\ forall any items y,
       getNews d None any = OK (Some items) -> In y items -> Link y <> Link x.
Proof.
  intros Hok Hoc Hstart.
  assert (Hfresh : hasLink (Link x) d = false).
  { unfold insertNewsItem, insert in Hok. destruct fault; [discriminate Hok|].
    destruct (hasLink (Link x) d); [discriminate Hok | reflexivity]. }
  assert (E : snd (insertNewsItem d fault t x)
              = mkDB (rows d ++ [mkRow (S (seq d)) (Link x) (Title x) t]) (S (seq d))).
  { unfold insertNewsItem, insert in *. destruct fault; [discriminate Hok|].
    now rewrite Hfresh. }
  split.
  - apply getNews_items. rewrite E. cbn [rows].
    exists (mkRow (S (seq d)) (Link x) (Title x) t).
    split; [apply in_or_app; right; now left|].
    split; [now apply occursAtCharacter_iff | now destruct x].
  - intros any items y Hget Hy Heq.
    assert (H : exists items, getNews d None any = OK (Some items) /\ In y items)
      by (exists items; now split).
    apply getNews_items in H as (r & Hin & _ & Hr).
    assert (Hhas : hasLink (Link x) d = true).
    { unfold hasLink. apply existsb_exists. exists r. split; [exact Hin|].
      apply String.eqb_eq. rewrite <- Heq, <- Hr. reflexivity. }
    congruence.
Qed.

(** ** The form of a converted link *)

Section LinkForm.
Import strings url.

Lemma take_drop (i : nat) (s : string) : s = take i s +++ drop i s.
Proof.
  revert s. induction i as [|i IH]; intros [|c s]; cbn [take drop String.append];
    try reflexivity.
  now rewrite <- IH.
Qed.

Lemma split_prefix (s : string) (c : ascii) (cutc : bool) :
  exists t, s = fst (split s c cutc) +++ t.
Proof.
  unfold split. destruct (IndexByte s c) as [i|].
  - exists (drop i s). destruct cutc; cbn [fst]; apply take_drop.
  - exists "". cbn [fst]. now rewrite append_empty_r.
Qed.

Lemma getscheme_loop_prefix (rawurl pre rest s r : string) :
  rawurl = pre +++ rest ->
  getscheme_loop rawurl (len pre) rest = OK (s, r) ->
  s = "" \/ rawurl = s +++ ":" +++ r.
Proof.
  revert pre. induction rest as [|c rest IH]; intros pre Hraw; cbn [getscheme_loop].
  - intros H. injection H as <- _. now left.
  - assert (Hnext : rawurl = (pre +++ String c "") +++ rest)
      by (now rewrite append_assoc).
    assert (Hlen : len (pre +++ String c "") = S (len pre)).
    { clear. induction pre as [|x pre IHp]; [reflexivity|].
      simpl. simpl in IHp. now rewrite IHp. }
    specialize (IH _ Hnext). rewrite Hlen in IH.
    destruct (between "a" "z" c || between "A" "Z" c); [exact IH|].
    destruct (between "0" "9" c || oneOf c "+-.").
    { destruct (len pre =? 0); [|exact IH]. intros H. injection H as <- _. now left. }
    destruct (Ascii.eqb c ":") eqn:Ec.
    + destruct (len pre =? 0); [discriminate|]. intros H. injection H as <- <-.
      right. apply Ascii.eqb_eq in Ec as ->. rewrite Hraw at 1.
      now rewrite Hraw, take_app.
    + intros H. injection H as <- _. now left.
Qed.

Lemma ToLower_empty (s : string) : ToLower s = "" -> s = "".
Proof. destruct s; [reflexivity | discriminate]. Qed.

Lemma Scheme_setPath (u u' : URL) (p : string) :
  setPath u p = OK u' -> Scheme u' = Scheme u.
Proof.
  unfold setPath. destruct (unescape p encodePath); [|discriminate].
  intros H. now injection H as <-.
Qed.

Lemma Scheme_setPath_ (u : URL) (p : string) : Scheme (setPath_ u p) = Scheme u.
Proof.
  unfold setPath_. destruct (setPath u p) eqn:E; [|reflexivity].
  exact (Scheme_setPath _ _ _ E).
Qed.

Lemma Scheme_ResolveReference (u ref : URL) :
  Scheme (ResolveReference u ref)
  = if isEmpty (Scheme ref) then Scheme u else Scheme ref.
Proof.
  unfold ResolveReference.
  destruct (negb (isEmpty (Scheme ref)) || negb (isEmpty (Host ref)) || isSome (User ref));
    [now rewrite Scheme_setPath_|].
  destruct (negb (isEmpty (Opaque ref))); [reflexivity|].
  now rewrite Scheme_setPath_.
Qed.

(** A raw URL that parses with a scheme is written with it. *)
Lemma parse_scheme_prefix (rawurl : string) (u : URL) :
  parse rawurl = OK u -> isEmpty (Scheme u) = false ->
  exists s rest, s <> "" /\ rawurl = s +++ ":" +++ rest.
Proof.
  unfold parse. destruct (stringContainsCTLByte rawurl); [discriminate|].
  destruct (String.eqb rawurl "*").
  { intros H. injection H as <-. discriminate. }
  destruct (getscheme rawurl) as [[s r]|] eqn:Eg; [|discriminate].
  cbn [fst snd]. intros Hparse Hne.
  assert (Hs : Scheme u = ToLower s).
  { revert Hparse.
    destruct (if HasSuffix r "?" && (CountByte r "?" =? 1)
              then (take (len r - 1) r, true, "")
              else (fst (split r "?" true), false, snd (split r "?" true)))
      as [[rest force] query].
    destruct (negb (HasPrefix rest "/") && negb (isEmpty (ToLower s))).
    { intros H. now injection H as <-. }
    destruct (negb (HasPrefix rest "/")
              && match IndexByte rest ":", IndexByte rest "/" with
                 | Some colon, Some slash => colon <? slash
                 | Some _, None => true
                 | None, _ => false
                 end); [discriminate|].
    destruct ((negb (isEmpty (ToLower s)) || negb (HasPrefix rest "///"))
              && HasPrefix rest "//").
    - destruct (split (drop 2 rest) "/" false) as [authority rest'].
      destruct (parseAuthority authority) as [uh|]; [|discriminate].
      intros H. now apply Scheme_setPath in H.
    - intros H. now apply Scheme_setPath in H. }
  unfold getscheme in Eg.
  destruct (getscheme_loop_prefix rawurl "" rawurl s r eq_refl Eg) as [->|E].
  - rewrite Hs in Hne. discriminate.
  - exists s, r. split; [|exact E]. intros ->. rewrite Hs in Hne. discriminate.
Qed.

Lemma Parse_scheme_prefix (rawurl : string) (u : URL) :
  Parse rawurl = OK u -> IsAbs u = true ->
  exists s rest, s <> "" /\ rawurl = s +++ ":" +++ rest.
Proof.
  unfold Parse, IsAbs. intros H Habs. apply negb_true_iff in Habs.
  destruct (split_prefix rawurl "#" true) as (t & Ht).
  destruct (split rawurl "#" true) as [pre frag]. cbn [fst] in Ht.
  destruct (parse pre) as [url|] eqn:Ep; [|discriminate].
  assert (Hs : Scheme u = Scheme url).
  { destruct (isEmpty frag); [now injection H as <-|].
    destruct (unescape frag encodeFragment); [|discriminate]. now injection H as <-. }
  rewrite Hs in Habs.
  destruct (parse_scheme_prefix pre url Ep Habs) as (s & rest & Hne & E).
  exists s, (rest +++ t). split; [exact Hne|].
  rewrite Ht, E. cbn [String.append]. now rewrite !append_assoc.
Qed.

(** What [String] writes for a URL with a scheme starts with it. *)
Lemma String_scheme_prefix (u : URL) :
  isEmpty (Scheme u) = false -> exists rest, String_ u = Scheme u +++ ":" +++ rest.
Proof.
  intros Hne. unfold String_. rewrite Hne.
  repeat match goal with
         | |- context [if ?c then _ else _] => destruct c
         | |- context [match User u with _ => _ end] => destruct (User u)
         end;
    eexists; rewrite ?append_assoc; reflexivity.
Qed.

(** X13. With an absolute source address, a link that converts is written
    with a scheme: the result starts with a non-empty scheme and a colon,
    and for a link that had none it is the scheme of the source address. *)
Theorem converted_link_has_a_scheme (baseURL linkURL out : string) (b : URL) :
  Parse baseURL = OK b -> IsAbs b = true ->
  convertToAbsURL baseURL linkURL = OK out ->
  exists scheme rest,
    scheme <> "" /\ out = scheme +++ ":" +++ rest
    /\ forall u, Parse linkURL = OK u -> IsAbs u = false -> scheme = Scheme b.
Proof.
  intros Hb Habs. unfold convertToAbsURL, URL_Parse. rewrite Hb.
  destruct (Parse linkURL) as [u|] eqn:Hu; [|discriminate].
  cbn [negb]. destruct (IsAbs u) eqn:Hau; cbn [negb]; intros H; injection H as <-.
  - destruct (Parse_scheme_prefix _ _ Hu Hau) as (s & rest & Hne & E).
    exists s, rest. split; [exact Hne|]. split; [exact E|]. intros u' Hu' Hrel.
    injection Hu' as <-. congruence.
  - unfold IsAbs in Habs, Hau. apply negb_true_iff in Habs. apply negb_false_iff in Hau.
    assert (Hs : Scheme (ResolveReference (ResolveReference u b) u) = Scheme b)
      by (now rewrite !Scheme_ResolveReference, Hau, Habs).
    destruct (String_scheme_prefix (ResolveReference (ResolveReference u b) u)) as (rest & E).
    { now rewrite Hs. }
    exists (Scheme b), rest. split; [intros E'; rewrite E' in Habs; discriminate|].
    split; [now rewrite <- Hs | intros; reflexivity].
Qed.

(** A raw link with a control byte before its first [#] does not parse,
    whatever it is converted against. *)
Lemma convertToAbsURL_control_byte (baseURL linkURL : string) :
  stringContainsCTLByte (fst (split linkURL "#" true)) = true ->
  convertToAbsURL baseURL linkURL
  = Err (url_Error "parse" (fst (split linkURL "#" true))
           (errorString "net/url: invalid control character in URL")).
Proof.
  intros H. unfold convertToAbsURL, Parse.
  destruct (split linkURL "#" true) as [pre frag]. cbn [fst] in *.
  unfold parse. now rewrite H.
Qed.

(** X14. Conversion is idempotent on plain addresses: the result of
    converting a plain reference found on a plain page is itself kept as it
    is, whatever source address it is converted against later. *)
Theorem converting_twice_is_converting_once
    (scheme host path ref other : string) (b : URL) :
  scheme = "http" \/ scheme = "https" ->
  plainHost host = true -> plainPath path = true -> plainReference ref = true ->
  Parse other = OK b ->
  exists out,
    convertToAbsURL (pageAddress scheme host path) ref = OK out
    /\ convertToAbsURL other out = OK out.
Proof.
  intros Hs Hh Hp Hr Hb. exists (pageAddress scheme host (targetPath path ref)).
  split; [now apply convertToAbsURL_plain_reference|].
  unfold convertToAbsURL, URL_Parse.
  rewrite (Parse_plain _ _ _ Hs Hh (targetPath_plain _ _ Hp Hr)), Hb.
  cbn [negb]. unfold IsAbs, plainURL. cbn [Scheme].
  destruct Hs as [-> | ->]; reflexivity.
Qed.

End LinkForm.

(** ** From the cycle to the reply, and the life of the table *)

Section Served.
Import htmlquery.
Context {engine : XPath}.

Lemma updateNews_appends (w : World) (rule : ParsingRule) (st : State) :
  exists added, rows (db (updateNews w rule st)) = rows (db st) ++ added.
Proof.
  unfold updateNews. destruct (loadNewsList (LoadURL w) rule) as [[items|e] lg].
  - match goal with |- context [updateNews_loop w 0 ?l ?s] =>
      destruct (updateNews_loop_appends w l 0 s) as (added & H1 & _) end.
    now exists added.
  - exists []. cbn [db]. now rewrite app_nil_r.
Qed.

Lemma step_appends (sys : System) (ev : Event) :
  exists added, rows (db (state (step sys ev))) = rows (db (state sys)) ++ added.
Proof.
  assert (Hsame : exists added, rows (db (state sys)) = rows (db (state sys)) ++ added)
    by (exists []; now rewrite app_nil_r).
  unfold step. destruct (negb (running (state sys))); [exact Hsame|].
  destruct ev as [i w|i w].
  - destruct (nth_error (tasks sys) i) as [[|]|]; try exact Hsame.
    destruct (nth_error (rules sys) i) as [[r|]|]; try exact Hsame. cbn [state].
    unfold updateNewsPeriodically_enter.
    destruct (running (updateNews w r (state sys)) && (tickerPeriod r <=? 0)%Z);
      cbn [db]; apply updateNews_appends.
  - destruct (nth_error (tasks sys) i) as [[|]|]; try exact Hsame.
    destruct (nth_error (rules sys) i) as [[r|]|]; try exact Hsame. cbn [state].
    apply updateNews_appends.
Qed.

Lemma run_appends (events : list Event) (sys : System) :
  exists added, rows (db (state (run sys events))) = rows (db (state sys)) ++ added.
Proof.
  unfold run. revert sys. induction events as [|ev events IH]; intros sys; cbn [fold_left].
  - exists []. now rewrite app_nil_r.
  - destruct (IH (step sys ev)) as (a2 & H2). destruct (step_appends sys ev) as (a1 & H1).
    exists (a1 ++ a2). now rewrite H2, H1, app_assoc.
Qed.

(** X15. One link with a control byte ends the process: when the page
    has an item whose raw link holds a byte below 0x20 or 0x7f before its
    first [#] (a line break inside an [href], say), the link is refused by
    the URL parser whatever the source address, and the cycle stores
    nothing and exits the process with status 1. *)
Theorem control_byte_ends_the_process (w : World) (rule : ParsingRule) (st : State)
    (doc node : html.Node) :
  LoadURL w (URL rule) = OK doc ->
  In node (Find doc (NewsNodesXPathExpr rule)) ->
  url.stringContainsCTLByte (fst (url.split (linkOf rule node) "#" true)) = true ->
  (forall baseURL,
      convertToAbsURL baseURL (linkOf rule node)
      = Err (url_Error "parse" (fst (url.split (linkOf rule node) "#" true))
               (errorString "net/url: invalid control character in URL")))
  /\ status (updateNews w rule st) = Exited 1
  /\ db (updateNews w rule st) = db st.
Proof.
  intros Hdoc Hin Hctl.
  assert (Hconv : forall baseURL,
             convertToAbsURL baseURL (linkOf rule node)
             = Err (url_Error "parse" (fst (url.split (linkOf rule node) "#" true))
                      (errorString "net/url: invalid control character in URL")))
    by (intros baseURL; now apply convertToAbsURL_control_byte).
  split; [exact Hconv|].
  assert (H : exists e lg, loadNewsList (LoadURL w) rule
                           = (Err (ConvertError "" (URL rule) e), lg)).
  { unfold loadNewsList. rewrite Hdoc. apply loop_bad_link.
    apply Exists_exists. exists node. split; [exact Hin|].
    unfold normalizes. now rewrite Hconv. }
  destruct H as (e & lg & H). now rewrite (updateNews_failed _ _ _ _ _ H).
Qed.

(** X16. What a cycle loads is served: after a cycle whose fetch
    succeeded, the table has a row with the link of every loaded item whose
    insert the engine did not fail, and a request without a search term is
    answered with a JSON array that has, for every row of the table, the
    entry of its link and its title as the encoder writes them (a byte
    that starts no UTF-8 sequence becomes U+FFFD). *)
Theorem loaded_links_are_served (w : World) (rule : ParsingRule) (st : State)
    (items : slice NewsItem) (lg : list LogEntry) (k : nat) (x : NewsItem)
    (form : Values) :
  loadNewsList (LoadURL w) rule = (OK items, lg) ->
  nth_error (elems items) k = Some x ->
  faults w k = None ->
  Values_Get form "q" = "" ->
  exists entries,
    searchHandler (db (updateNews w rule st)) None (OK form)
    = (http_OK "application/json" (json.Array entries), [])
    /\ (exists r, In r (rows (db (updateNews w rule st))) /\ link r = Link x)
    /\ forall r,
         In r (rows (db (updateNews w rule st))) ->
         In (json.Object [("link", json.Str (json.encoded (link r)));
                          ("title", json.Str (json.encoded (title r)))]) entries.
Proof.
  intros Hload Hk Hf Hq.
  pose proof (updateNews_stores_each_item_aux w rule st items lg k x Hload Hk Hf) as Hhas.
  unfold hasLink in Hhas. apply existsb_exists in Hhas as (r & Hin & Hr).
  apply String.eqb_eq in Hr.
  unfold searchHandler. rewrite Hq, getNews_rows. cbn [url.isEmpty negb marshalItems].
  eexists. split; [reflexivity|]. split; [now exists r|].
  intros r' Hin'. apply in_map_iff. exists (itemOf r'). split; [reflexivity|].
  apply in_map. apply (Permutation_in _ (Permutation_sym (orderBy_perm _))). exact Hin'.
Qed.

(** X17. Nothing stored is lost: whatever the tasks do, the table after
    them is the table before with rows added at its end, so every item a
    search found before is found by the same search after. *)
Theorem stored_news_is_kept (sys : System) (events : list Event) :
  (exists added,
      rows (db (state (run sys events))) = rows (db (state sys)) ++ added)
  /\ forall term found x,
       getNews (db (state sys)) None term = OK (Some found) -> In x found ->
       exists found',
         getNews (db (state (run sys events))) None term = OK (Some found')
         /\ In x found'.
Proof.
  destruct (run_appends events sys) as (added & E). split; [now exists added|].
  intros term found x Hget Hin. apply getNews_items.
  assert (H : exists items, getNews (db (state sys)) None term = OK (Some items)
                            /\ In x items) by (exists found; now split).
  apply getNews_items in H as (r & Hr & Hrest). exists r.
  split; [|exact Hrest]. rewrite E. apply in_or_app. now left.
Qed.

End Served.

(** ** Rule objects *)

(** X19. Members a rule object does not declare are skipped, members it
    lacks stay zero, and of two members for one field the later wins: an
    object of unknown members decodes to the zero rule, and after any
    members that decode, a final ["url"] member sets the URL and nothing
    else. *)
Theorem rule_members_unknown_missing_repeated
    (unknown ms : list (string * json.value)) (r : ParsingRule) (address : string) :
  Forall (fun m => ruleMember (fst m) = false) unknown ->
  decodeParsingRuleMembers ms zeroRule = OK r ->
  decodeRulePointer (json.Object unknown) = OK (Some zeroRule)
  /\ decodeRulePointer (json.Object (ms ++ unknown)) = OK (Some r)
  /\ decodeRulePointer (json.Object (ms ++ [("url", json.Str address)]))
     = OK (Some (mkParsingRule (Interval r) address (NewsNodesXPathExpr r)
                               (LinkRule r) (TitleRule r))).
Proof.
  intros Hu Hms. cbn [decodeRulePointer].
  rewrite !decodeParsingRuleMembers_app, Hms, !(decodeParsingRuleMembers_unknown _ _ Hu).
  repeat split; reflexivity.
Qed.

(** * The theorems at work on the samples *)

Import Sample.
#[local] Existing Instance Sample.engine.

(** C1: both sources tick; the first is down.  The process exits, and
    the tick of the second source, which would have stored two rows,
    stores nothing. *)
Lemma failed_fetch_ends_every_task :
  let sys := mkSystem [Some rule; Some otherRule] [Ticking; Ticking] fresh in
  let down := Tick 0 (world firstSourceDown 60) in
  let next := Tick 1 (world firstSourceDown 61) in
  status (state (@step engine sys down)) = Exited 1
  /\ rows (db (state (@run engine sys [down; next]))) = []
  /\ length (rows (db (state (@run engine sys [next])))) = 2.
Proof. vm_compute. repeat split. Qed.

Lemma failed_cycle_exits_process_witness :
  let sys := mkSystem [Some rule; Some otherRule] [Ticking; Ticking] fresh in
  let down := Tick 0 (world firstSourceDown 60) in
  state (@step engine sys down)
  = mkState sqlite.empty [LogFatal (DriverError "dial tcp: connection refused")] (Exited 1)
  /\ forall events, @run engine (@step engine sys down) events = @step engine sys down.
Proof.
  exact (@failed_cycle_exits_process engine
           (mkSystem [Some rule; Some otherRule] [Ticking; Ticking] fresh)
           (Tick 0 (world firstSourceDown 60)) rule
           (DriverError "dial tcp: connection refused") []
           eq_refl (conj eq_refl eq_refl) eq_refl).
Defined.

(** C2: the second item of the page has a good link, and is lost with
    the first. *)
Lemma bad_link_loses_good_siblings :
  In goodItem (htmlquery.Find pageBadLink (NewsNodesXPathExpr rule))
  /\ convertToAbsURL (URL rule) (@linkOf engine rule goodItem)
     = OK "http://example.com/news/article/2"
  /\ fst (@loadNewsList engine (serve pageBadLink) rule)
     = Err (ConvertError "" pageURL
              (url_Error "parse" "/sale-50%-off" (EscapeError "%-o")))
  /\ db (@updateNews engine (world (serve pageBadLink) 60) rule fresh) = sqlite.empty.
Proof. vm_compute. repeat split. right. left. reflexivity. Qed.

Lemma bad_link_aborts_the_batch_witness :
  (exists e lg, @loadNewsList engine (serve pageBadLink) rule
                = (Err (ConvertError "" (URL rule) e), lg))
  /\ db (@updateNews engine (world (serve pageBadLink) 60) rule fresh) = db fresh.
Proof.
  apply (@bad_link_aborts_the_batch engine (world (serve pageBadLink) 60) rule fresh
           pageBadLink badItem).
  - reflexivity.
  - left. reflexivity.
  - vm_compute. reflexivity.
Defined.

Lemma getNews_empty_term_lists_all_witness :
  exists sorted : list Row,
    Permutation sorted (rows store)
    /\ Sorted newerEq sorted
    /\ getNews store None "" = OK (Some (map itemOf sorted))
    /\ fst (searchHandler store None (OK []))
       = http_OK "application/json" (marshalItems (Some (map itemOf sorted)))
    /\ searchHandler store None (OK []) = searchHandler store None (OK [("q", [""])]).
Proof. apply (getNews_empty_term_lists_all store []). reflexivity. Defined.

(** C4: the title contains the bytes of the term, and the search for it
    finds nothing: the term starts in the middle of a character. *)
Lemma continuation_byte_term_finds_nothing :
  secondByte <> ""
  /\ (forall r, In r (rows menu) -> occursIn secondByte (title r))
  /\ rows menu <> []
  /\ getNews menu None secondByte = OK (Some []).
Proof.
  split; [discriminate|]. split; [|split; [discriminate | reflexivity]].
  intros r [<-|[]]. exists ("caf" +++ String (ascii_of_nat 195) ""), "". reflexivity.
Qed.

Lemma getNews_term_filters_witness :
  exists sorted : list Row,
    getNews store None "Go" = OK (Some (map itemOf sorted))
    /\ Sorted newerEq sorted
    /\ Permutation sorted
         (filter (fun r => negb (instr (title r) "Go" =? 0)) (rows store))
    /\ (forall r, In r sorted <-> In r (rows store) /\ occursAtCharacter "Go" (title r))
    /\ (startsCharacter "Go" = true ->
        forall r, In r sorted <-> In r (rows store) /\ occursIn "Go" (title r)).
Proof. apply (getNews_term_filters store "Go"). discriminate. Defined.

Lemma getNews_never_nil_witness :
  (exists l, Some [] = Some l
             /\ marshalItems (Some [])
                = json.Array
                    (map (fun it => json.Object
                                      [("link", json.Str (json.encoded (Link it)));
                                       ("title", json.Str (json.encoded (Title it)))]) l)
             /\ (l = [] -> marshalItems (Some []) = json.Array []))
  /\ marshalItems (Some []) <> json.Null
  /\ (forall form, Values_Get form "q" = "Haskell" ->
        fst (searchHandler store None (OK form))
        = http_OK "application/json" (marshalItems (Some []))).
Proof. apply (getNews_never_nil store None "Haskell" (Some [])). reflexivity. Defined.

(** C5: the second insert of an item returns an error value. *)
Lemma duplicate_insert_is_an_error :
  let x := mkNewsItem "http://example.com/news/go113" "Go 1.13 is released" in
  let first := insertNewsItem sqlite.empty None 10 x in
  let second := insertNewsItem (snd first) None 99 x in
  fst first = None
  /\ fst second
     = Some (InsertError "http://example.com/news/go113" "Go 1.13 is released"
               (UniqueConstraint "news.link"))
  /\ fst second <> None.
Proof. vm_compute. repeat split. discriminate. Qed.

Lemma insert_twice_one_row_witness :
  let x := mkNewsItem "http://example.com/news/new" "Something new" in
  let r1 := insertNewsItem store None 40 x in
  let r2 := insertNewsItem (snd r1) None 99 x in
  snd r2 = snd r1
  /\ fst r2 = Some (InsertError (Link x) (Title x) (UniqueConstraint "news.link"))
  /\ length (filter (fun r => String.eqb (link r) (Link x)) (rows (snd r2))) = 1
  /\ NoDup (map link (rows (snd r2)))
  /\ (hasLink (Link x) store = false ->
      fst r1 = None
      /\ rows (snd r2) = rows store ++ [mkRow (S (seq store)) (Link x) (Title x) 40])
  /\ (hasLink (Link x) store = true -> snd r2 = store).
Proof.
  apply (insert_twice_one_row store
           (mkNewsItem "http://example.com/news/new" "Something new") 40 99).
  repeat constructor; simpl; intuition discriminate.
Defined.



Lemma rule_normalizes_on_pageEmptyFields :
  Forall (fun n => @normalizes engine rule n = true)
         (htmlquery.Find pageEmptyFields (NewsNodesXPathExpr rule)).
Proof. repeat constructor. Qed.

Lemma empty_field_is_advisory_witness :
  (forall field, htmlquery.FindOne bareItem (XPathExpr field) = None ->
                 @extractEntity engine bareItem field = ("", [LogEmptyResult field]))
  /\ exists items lg,
       @loadNewsList engine (serve pageEmptyFields) rule = (OK (Some items), lg)
       /\ In (@itemOfNode engine rule bareItem) items
       /\ (htmlquery.FindOne bareItem (XPathExpr (TitleRule rule)) = None ->
           Title (@itemOfNode engine rule bareItem) = ""
           /\ In (LogEmptyResult (TitleRule rule)) lg)
       /\ (htmlquery.FindOne bareItem (XPathExpr (LinkRule rule)) = None ->
           convertToAbsURL (URL rule) "" = OK (Link (@itemOfNode engine rule bareItem))
           /\ In (LogEmptyResult (LinkRule rule)) lg).
Proof.
  apply (@empty_field_is_advisory engine (serve pageEmptyFields) rule pageEmptyFields
           bareItem).
  - reflexivity.
  - left. reflexivity.
  - exact rule_normalizes_on_pageEmptyFields.
Defined.

(** C10: two items without a link on one page.  Both are produced with
    the page's address as their link; the first is stored, the second is
    refused and logged.  And an address that is not written plainly does
    not come back as it was. *)
Lemma later_linkless_item_is_refused :
  let w := world (serve pageLinkless) 60 in
  @linkOf engine spanRule (headline "Beta") = ""
  /\ fst (@loadNewsList engine (serve pageLinkless) spanRule)
     = OK (Some [mkNewsItem pageURL "Alpha"; mkNewsItem pageURL "Beta"])
  /\ rows (db (@updateNews engine w spanRule fresh)) = [mkRow 1 pageURL "Alpha" 60]
  /\ In (LogPrintln (InsertError pageURL "Beta" (UniqueConstraint "news.link")))
        (log (@updateNews engine w spanRule fresh))
  /\ convertToAbsURL "HTTP://Example.COM/a/../News/" "" = OK "http://Example.COM/News/".
Proof.
  vm_compute. repeat split. right. right. left. reflexivity.
Qed.

Lemma empty_link_is_the_page_witness :
  let w := world (serve pageLinkless) 60 in
  exists page : string,
    convertToAbsURL (URL spanRule) "" = OK page
    /\ page = URL spanRule
    /\ hasLink page (db (@updateNews engine w spanRule fresh)) = true
    /\ In (LogPrintln (InsertError page "Beta" (UniqueConstraint "news.link")))
          (log (@updateNews engine w spanRule fresh)).
Proof.
  destruct (@empty_link_is_the_page engine (world (serve pageLinkless) 60) spanRule fresh
              pageLinkless (headline "Beta")
              (plainURL "http" "example.com" "/news/index.html") 1
              eq_refl eq_refl eq_refl eq_refl)
    as (page & Hconv & _ & Hhas & _ & Hlater & Hplain).
  - intros n [<-|[<-|[]]] Hne; exfalso; apply Hne; reflexivity.
  - reflexivity.
  - exists page. split; [exact Hconv|]. split.
    + exact (Hplain "http" "example.com" "/news/index.html" eq_refl (or_introl eq_refl)
               eq_refl eq_refl).
    + split; [exact Hhas|].
      exact (proj1 (Hlater 0 (headline "Alpha") (Nat.lt_0_succ 0) eq_refl eq_refl)).
Defined.

(** C7: a rule file with a zero interval loads, the process starts, and
    the rule's task panics when it creates its ticker after a first
    cycle. *)
Lemma zero_interval_is_loaded :
  readParsingRules (OK (rulesText "0")) = OK (Some [Some (ruleEvery 0%N)])
  /\ Interval (ruleEvery 0%N) = 0%N
  /\ exists sys,
       Start (mkEnv (OK (rulesText "0")) None None None) = OK sys
       /\ rules sys = [Some (ruleEvery 0%N)]
       /\ status (state (@step engine sys (Enter 0 (world (serve page) 60))))
          = Panicked "non-positive interval for NewTicker".
Proof.
  split; [vm_compute; reflexivity|]. split; [reflexivity|].
  eexists. split; [vm_compute; reflexivity|]. split; vm_compute; reflexivity.
Qed.

(** ** Further properties on the samples *)

Lemma run_keeps_links_unique_witness :
  let sys := mkSystem [Some rule; Some otherRule] [Spawned; Spawned]
                      (mkState store [] Running) in
  let events := [Enter 0 (world (serve page) 60); Enter 1 (world (serve page) 61);
                 Tick 0 (world (serve pageEmptyFields) 660)] in
  NoDup (map link (rows (db (state (@run engine sys events))))).
Proof.
  apply (@run_keeps_links_unique engine).
  repeat constructor; simpl; intuition discriminate.
Defined.

Lemma updateNews_stores_each_item_witness :
  hasLink "http://example.com/news/article/1"
          (db (@updateNews engine (world (serve page) 60) rule fresh)) = true.
Proof.
  exact (@updateNews_stores_each_item engine (world (serve page) 60) rule fresh
           (Some [mkNewsItem "http://example.com/news/article/1" "First";
                  mkNewsItem "http://other.com/x" "Second"]) [] 0
           (mkNewsItem "http://example.com/news/article/1" "First")
           eq_refl eq_refl eq_refl).
Defined.

Lemma second_cycle_changes_nothing_witness :
  let first := @updateNews engine (world (serve page) 60) rule fresh in
  let second := @updateNews engine (world (serve page) 660) rule first in
  db second = db first
  /\ log second
     = log first ++ []
       ++ [LogPrintln (InsertError "http://example.com/news/article/1" "First"
                         (UniqueConstraint "news.link"));
           LogPrintln (InsertError "http://other.com/x" "Second"
                         (UniqueConstraint "news.link"))].
Proof.
  exact (@second_cycle_changes_nothing engine (world (serve page) 60)
           (world (serve page) 660) rule fresh
           (Some [mkNewsItem "http://example.com/news/article/1" "First";
                  mkNewsItem "http://other.com/x" "Second"]) [] []
           eq_refl eq_refl (fun _ => eq_refl) (fun _ => eq_refl)).
Defined.

Lemma loadNewsList_outcome_witness :
  let nodes := htmlquery.Find page (NewsNodesXPathExpr rule) in
  match @loadNewsList engine (serve page) rule with
  | (OK items, lg) =>
      Forall (fun n => @normalizes engine rule n = true) nodes
      /\ elems items = map (@itemOfNode engine rule) nodes
      /\ (items = None <-> nodes = [])
      /\ lg = flat_map (@logsOf engine rule) nodes
  | (Err e, _) =>
      Exists (fun n => @normalizes engine rule n = false) nodes
      /\ exists cause, e = ConvertError "" (URL rule) cause
  end.
Proof. exact (@loadNewsList_outcome engine (serve page) rule page eq_refl). Defined.

Lemma extractEntity_missing_attribute_witness :
  let bare := html.mkNode html.ElementNode "a" [html.mkAttribute "" "class" "more"] false
                          [text "More"] in
  @extractEntity engine (item [bare]) (LinkRule rule)
  = ("", [LogEmptyResult (LinkRule rule)])
  /\ forall (p : html.Node) (r : ExtractRule),
       snd (@extractEntity engine p r) = [LogEmptyResult r]
       /\ fst (@extractEntity engine p r) = ""
       \/ snd (@extractEntity engine p r) = [] /\ fst (@extractEntity engine p r) <> "".
Proof.
  apply (@extractEntity_missing_attribute engine
           (item [html.mkNode html.ElementNode "a" [html.mkAttribute "" "class" "more"]
                              false [text "More"]])
           (html.mkNode html.ElementNode "a" [html.mkAttribute "" "class" "more"] false
                        [text "More"])
           (LinkRule rule)).
  - reflexivity.
  - discriminate.
  - reflexivity.
  - repeat constructor. discriminate.
Defined.

Lemma ticker_creation_bounds_witness :
  (tickerPeriod rule = 600000000000)%Z
  /\ status (@updateNewsPeriodically_enter engine (world (serve page) 60) (Some rule) fresh)
     = Running.
Proof.
  pose proof (@ticker_creation_bounds engine (world (serve page) 60) rule fresh
                eq_refl eq_refl) as [Hin _].
  assert (Hrange : (1 <= Interval rule <= 153722867)%N) by (simpl; lia).
  destruct (Hin Hrange) as (Hperiod & _ & Hstatus). split; [exact Hperiod | exact Hstatus].
Defined.

Lemma task_runs_while_cycles_load_witness :
  status (@updateNewsPeriodically engine (Some rule) (world (serve page) 60)
            [world (serve page) 660; world (serve pageEmptyFields) 1260] fresh)
  = Running.
Proof.
  apply (@task_runs_while_cycles_load engine).
  - reflexivity.
  - simpl. lia.
  - repeat constructor.
Defined.

Lemma longer_term_finds_less_witness :
  exists found_short found_long,
    getNews store None "Go" = OK (Some found_short)
    /\ getNews store None "Gophers" = OK (Some found_long)
    /\ incl found_long found_short
    /\ length found_long <= length found_short.
Proof.
  apply (longer_term_finds_less store "Go" "Gophers"); [|reflexivity].
  exists "", "phers". reflexivity.
Defined.

Lemma newest_item_is_listed_first_witness :
  let x := mkNewsItem "http://example.com/news/new" "Something new" in
  exists before,
    getNews store None "" = OK (Some before)
    /\ fst (insertNewsItem store None 40 x) = None
    /\ getNews (snd (insertNewsItem store None 40 x)) None "" = OK (Some (x :: before)).
Proof.
  apply (newest_item_is_listed_first store
           (mkNewsItem "http://example.com/news/new" "Something new") 40).
  - reflexivity.
  - repeat (constructor; [simpl; lia|]). constructor.
Defined.

Lemma inserted_item_is_found_witness :
  let x := mkNewsItem "http://example.com/news/new" "Something new" in
  (exists items,
      getNews (snd (insertNewsItem store None 40 x)) None "new" = OK (Some items)
      /\ In x items)
  /\ forall any items y,
       getNews store None any = OK (Some items) -> In y items -> Link y <> Link x.
Proof.
  apply (inserted_item_is_found store None 40
           (mkNewsItem "http://example.com/news/new" "Something new") "new").
  - reflexivity.
  - exists "Something ", "". reflexivity.
  - reflexivity.
Defined.

Lemma converted_link_has_a_scheme_witness :
  exists scheme rest,
    scheme <> "" /\ "http://example.com/news/article/1" = scheme +++ ":" +++ rest
    /\ forall u, url.Parse "article/1" = OK u -> url.IsAbs u = false ->
                 scheme = url.Scheme (plainURL "http" "example.com" "/news/index.html").
Proof.
  exact (converted_link_has_a_scheme pageURL "article/1" "http://example.com/news/article/1"
           (plainURL "http" "example.com" "/news/index.html") eq_refl eq_refl eq_refl).
Defined.

Lemma control_byte_ends_the_process_witness :
  let broken := item [anchor ("article/" +++ String "010"%char "1") "Broken"] in
  let w := world (serve (document [broken; goodItem])) 60 in
  (forall baseURL,
      convertToAbsURL baseURL (@linkOf engine rule broken)
      = Err (url_Error "parse" (fst (url.split (@linkOf engine rule broken) "#" true))
               (errorString "net/url: invalid control character in URL")))
  /\ status (@updateNews engine w rule fresh) = Exited 1
  /\ db (@updateNews engine w rule fresh) = db fresh.
Proof.
  apply (@control_byte_ends_the_process engine
           (world (serve (document [item [anchor ("article/" +++ String "010"%char "1")
                                                 "Broken"]; goodItem])) 60)
           rule fresh
           (document [item [anchor ("article/" +++ String "010"%char "1") "Broken"];
                      goodItem])
           (item [anchor ("article/" +++ String "010"%char "1") "Broken"])).
  - reflexivity.
  - left. reflexivity.
  - reflexivity.
Defined.

Lemma converting_twice_is_converting_once_witness :
  exists out,
    convertToAbsURL (pageAddress "http" "example.com" "/news/index.html") "article/1" = OK out
    /\ convertToAbsURL "http://other.org/feed.html" out = OK out.
Proof.
  exact (converting_twice_is_converting_once "http" "example.com" "/news/index.html"
           "article/1" "http://other.org/feed.html" (plainURL "http" "other.org" "/feed.html")
           (or_introl eq_refl) eq_refl eq_refl eq_refl eq_refl).
Defined.

Lemma loaded_links_are_served_witness :
  let table := db (@updateNews engine (world (serve page) 60) rule fresh) in
  exists entries,
    searchHandler table None (OK [])
    = (http_OK "application/json" (json.Array entries), [])
    /\ (exists r, In r (rows table) /\ link r = "http://other.com/x")
    /\ forall r,
         In r (rows table) ->
         In (json.Object [("link", json.Str (json.encoded (link r)));
                          ("title", json.Str (json.encoded (title r)))]) entries.
Proof.
  exact (@loaded_links_are_served engine (world (serve page) 60) rule fresh
           (Some [mkNewsItem "http://example.com/news/article/1" "First";
                  mkNewsItem "http://other.com/x" "Second"]) [] 1
           (mkNewsItem "http://other.com/x" "Second") []
           eq_refl eq_refl eq_refl eq_refl).
Defined.

Lemma rule_members_unknown_missing_repeated_witness :
  let members := [("url", json.Str "http://a.example/");
                  ("intervalMinutes", json.Number "5")] in
  let note := [("comment", json.Str "front page")] in
  let r := mkParsingRule 5 "http://a.example/" "" (mkExtractRule "" "")
                         (mkExtractRule "" "") in
  decodeRulePointer (json.Object note) = OK (Some zeroRule)
  /\ decodeRulePointer (json.Object (members ++ note)) = OK (Some r)
  /\ decodeRulePointer (json.Object (members ++ [("url", json.Str "http://b.example/")]))
     = OK (Some (mkParsingRule 5 "http://b.example/" "" (mkExtractRule "" "")
                               (mkExtractRule "" ""))).
Proof.
  apply (rule_members_unknown_missing_repeated
           [("comment", json.Str "front page")]
           [("url", json.Str "http://a.example/"); ("intervalMinutes", json.Number "5")]
           (mkParsingRule 5 "http://a.example/" "" (mkExtractRule "" "")
                          (mkExtractRule "" ""))
           "http://b.example/").
  - repeat constructor.
  - reflexivity.
Defined.
